(** * InvoicePDFGenerator: a shallow embedding of [generator.py]

    The script builds a fixed product catalog, draws recipients, dates,
    line items and a tax rate from Python's global random generator,
    renders one PDF per invoice, and writes a catalog CSV, a manifest
    CSV and a ZIP of every PDF found in the output folder.

    Modelling choices, all following the code:
    - Python [float] is IEEE binary64: Rocq's primitive [float], whose
      operations round to nearest even exactly as CPython's do.
    - Python [int] values that are counters or quantities are [nat];
      day numbers are [Z].
    - The global random generator is a stream of raw words with a
      cursor; [random.seed] replaces the stream, every draw advances
      the cursor.
    - The folder the script writes into is a finite map from file
      names to contents; the clock is read through a counter of
      [datetime.now()] calls.
    - An uncaught exception ends the script: fallible steps return a
      sum. The exceptions of the model are those of the script's own
      logic (the guarded import, [random.sample]); writes succeed.
    - Text is bytes (UTF-8); [reportlab] is a function from what
      [draw_invoice] lays out to the bytes of a PDF. *)

From Stdlib Require Import ZArith String Ascii List Lia Uint63.
From Stdlib Require Import DecimalString DecimalNat DecimalFacts.
From Stdlib Require Import Floats.PrimFloat Floats.FloatOps Floats.SpecFloat.
From stdpp Require Import base gmap strings list.

Set Warnings "-inexact-float,-abstract-large-number,-register-all".
Local Open Scope string_scope.

(** ** Python's formatting of integers and floats *)

Module Fmt.

(** [str(n)] for a non-negative [int]. *)
Definition dec (n : nat) : string := NilZero.string_of_uint (Nat.to_uint n).

Fixpoint zeros (k : nat) : string :=
  match k with
  | O => ""
  | S k' => String "0" (zeros k')
  end.

(** [f"{n:0wd}"]: decimal, left-padded with zeros to a least width. *)
Definition zfill (w : nat) (n : nat) : string :=
  let s := dec n in zeros (w - String.length s) ++ s.

(** The reading of a decimal field back into a number ([int(s)]). *)
Definition undec (s : string) : option nat :=
  match NilEmpty.uint_of_string s with
  | Some u => match s with "" => None | _ => Some (Nat.of_uint u) end
  | None => None
  end.

(** [float(n)] for a small non-negative [int] (exact below 2^53). *)
Definition float_of_nat (n : nat) : float :=
  PrimFloat.of_uint63 (Uint63.of_Z (Z.of_nat n)).

(** Rounding of [n / 2^k] to the nearest integer, ties to even. *)
Definition div_pow2_half_even (n : Z) (k : Z) : Z :=
  let d := Z.pow 2 k in
  let q := Z.div n d in
  let r := Z.modulo n d in
  if (2 * r <? d)%Z then q
  else if (d <? 2 * r)%Z then (q + 1)%Z
  else if Z.even q then q else (q + 1)%Z.

(** The absolute value of a finite float in hundredths, correctly
    rounded (ties to even on the exact binary value), with its sign
    bit: the digits that [format(x, '.2f')] prints. *)
Definition cents (x : float) : option (bool * Z) :=
  match Prim2SF x with
  | S754_zero s => Some (s, 0%Z)
  | S754_finite s m e =>
      Some (s, if (0 <=? e)%Z
               then (Zpos m * 100 * Z.pow 2 e)%Z
               else div_pow2_half_even (Zpos m * 100) (- e))
  | S754_infinity _ => None
  | S754_nan => None
  end.

Definition nonfinite (x : float) : string :=
  match Prim2SF x with
  | S754_infinity true => "-inf"
  | S754_infinity false => "inf"
  | _ => "nan"
  end.

(** Digits of the integer part with a comma between groups of three,
    counted from the right: the [,] option of the format language. *)
Fixpoint group3 (digits : list ascii) : list ascii :=
  match digits with
  | [] => []
  | c :: rest =>
      if (0 <? length rest)%nat && (length rest mod 3 =? 0)%nat
      then c :: ","%char :: group3 rest
      else c :: group3 rest
  end.

Definition sign_str (s : bool) : string := if s then "-" else "".

(** [f"{x:.2f}"] *)
Definition f2 (x : float) : string :=
  match cents x with
  | Some (s, c) =>
      sign_str s ++ dec (Z.to_nat (c / 100)) ++ "." ++ zfill 2 (Z.to_nat (c mod 100))
  | None => nonfinite x
  end.

(** [f"{x:,.2f}"] *)
Definition f2_grouped (x : float) : string :=
  match cents x with
  | Some (s, c) =>
      sign_str s
      ++ string_of_list_ascii (group3 (list_ascii_of_string (dec (Z.to_nat (c / 100)))))
      ++ "." ++ zfill 2 (Z.to_nat (c mod 100))
  | None => nonfinite x
  end.

End Fmt.

(** ** The random generator ([random], a library of Python)

    The generator is a stream of raw words and a cursor. [randbelow]
    reduces one word below a positive bound; [randint], [choice] and
    [random] are defined from it as in [random.py]. Which words a seed
    produces (the Mersenne Twister) is a parameter of the script. *)

Module Random.

Record rng := mk_rng { words : nat -> N; cursor : nat }.

Definition next (g : rng) : N * rng :=
  (words g (cursor g), mk_rng (words g) (S (cursor g))).

(** [_randbelow(n)], for [n > 0]. *)
Definition randbelow (n : nat) (g : rng) : nat * rng :=
  let (w, g') := next g in (N.to_nat (w mod N.of_nat n), g').

(** [randint(a, b)] is [a + _randbelow(b - a + 1)]. *)
Definition randint (a b : nat) (g : rng) : nat * rng :=
  let (r, g') := randbelow (b - a + 1) g in (a + r, g').

(** [choice(seq)] is [seq[_randbelow(len(seq))]]; [d] stands for the
    [IndexError] of an empty sequence, which no call of the script
    meets. *)
Definition choice {A} (d : A) (l : list A) (g : rng) : A * rng :=
  let (r, g') := randbelow (length l) g in (nth r l d, g').

(** [random()]: a 53-bit integer scaled into [0, 1). *)
Definition random (g : rng) : float * rng :=
  let (w, g') := next g in
  (PrimFloat.div (PrimFloat.of_uint63 (Uint63.of_Z (Z.of_N (w mod 2 ^ 53))))
                 9007199254740992%float, g').

(** The selection loop of [sample]: [k] draws from the live prefix
    [pool[0 : m]]; the drawn slot is refilled with the last live item.
    The last branch is the [IndexError] of a draw outside the pool,
    which [k <= m <= len(pool)] rules out. *)
Fixpoint sample_loop {A} (k : nat) (m : nat) (pool : list A) (g : rng)
  : list A * rng :=
  match k with
  | O => ([], g)
  | S k' =>
      let (j, g1) := randbelow m g in
      match pool !! j, pool !! (m - 1) with
      | Some x, Some y =>
          let (rest, g2) := sample_loop k' (m - 1) (<[j := y]> pool) g1 in
          (x :: rest, g2)
      | _, _ => ([], g1)
      end
  end.

(** [sample(population, k)] by the selection loop: [ValueError] when
    [k] exceeds the population, else [k] items at distinct positions.
    CPython runs this loop when the population is small against [k],
    and a second loop otherwise ([sample_cpython] below has both, and
    the test between them). The second loop has no bound on its draws
    for an arbitrary stream of words; the two loops meet the same
    contract, and the script below is run with this one for every [k],
    so that a run is defined for every stream. What the sampler
    returns as CPython runs it is stated on [sample_cpython]. *)
Definition sample {A} (population : list A) (k : nat) (g : rng)
  : option (list A) * rng :=
  if (length population <? k)%nat then (None, g)
  else let (r, g') := sample_loop k (length population) population g in
       (Some r, g').

(** CPython's second loop: an index below [n] is drawn, and drawn
    again while it is in [selected]; [fuel] bounds the draws of one
    item ([None]: no new index within the bound; the code would go on
    drawing). *)
Fixpoint redraw (fuel n : nat) (selected : list nat) (g : rng)
  : option (nat * rng) :=
  match fuel with
  | O => None
  | S fuel' =>
      let (j, g') := randbelow n g in
      if bool_decide (j ∈ selected) then redraw fuel' n selected g'
      else Some (j, g')
  end.

Fixpoint sample_redrawing {A} (fuel k : nat) (population : list A)
                          (selected : list nat) (g : rng)
  : option (list A * rng) :=
  match k with
  | O => Some ([], g)
  | S k' =>
      match redraw fuel (length population) selected g with
      | None => None
      | Some (j, g1) =>
          match population !! j,
                sample_redrawing fuel k' population (j :: selected) g1 with
          | Some x, Some (rest, g2) => Some (x :: rest, g2)
          | _, _ => None
          end
      end
  end.

(** [setsize] of [sample]: 21, plus [4 ** _ceil(_log(k * 3, 4))] when
    [k > 5]. The exponent is the least [e] with [3 k <= 4 ^ e], half of
    the binary logarithm rounded up ([3 k] is never a power of 4). *)
Definition setsize (k : nat) : nat :=
  if (5 <? k)%nat then 21 + 4 ^ ((Nat.log2_up (k * 3) + 1) / 2) else 21.

(** [sample(population, k)] as CPython runs it: the [ValueError], then
    the selection loop when [n <= setsize], the redrawing loop
    otherwise. The outer [None] is a redrawing loop that has not found
    a new index within [fuel] draws. *)
Definition sample_cpython {A} (fuel : nat) (population : list A) (k : nat) (g : rng)
  : option (option (list A) * rng) :=
  let n := length population in
  if (n <? k)%nat then Some (None, g)
  else if (n <=? setsize k)%nat then
    let (r, g') := sample_loop k n population g in Some (Some r, g')
  else
    match sample_redrawing fuel k population [] g with
    | Some (r, g') => Some (Some r, g')
    | None => None
    end.

End Random.

(** ** Dates ([datetime], a library of Python)

    A [datetime] is its proleptic Gregorian day number ([toordinal])
    and a time of day; adding [timedelta(days=k)] adds [k] to the day
    number. [strftime] goes through the calendar conversion of
    [datetime.py]. *)

Module Datetime.

Record datetime := mk_dt { ordinal : Z; time_of_day : N }.

Definition add_days (d : datetime) (k : Z) : datetime :=
  mk_dt (ordinal d + k) (time_of_day d).

Definition DI400Y : Z := 146097.
Definition DI100Y : Z := 36524.
Definition DI4Y : Z := 1461.

Definition DAYS_IN_MONTH : list Z :=
  [-1; 31; 28; 31; 30; 31; 30; 31; 31; 30; 31; 30; 31]%Z.
Definition DAYS_BEFORE_MONTH : list Z :=
  [-1; 0; 31; 59; 90; 120; 151; 181; 212; 243; 273; 304; 334]%Z.

Definition b2z (b : bool) : Z := if b then 1%Z else 0%Z.

(** The month and day of the [n]-th day (from 0) of a year. *)
Definition month_day (leapyear : bool) (n : Z) : Z * Z :=
  let month := Z.shiftr (n + 50) 5 in
  let preceding :=
    (nth (Z.to_nat month) DAYS_BEFORE_MONTH 0 + b2z ((2 <? month) && leapyear))%Z in
  if (n <? preceding)%Z then
    let month' := (month - 1)%Z in
    let preceding' :=
      (preceding - (nth (Z.to_nat month') DAYS_IN_MONTH 0
                    + b2z ((month' =? 2) && leapyear)))%Z in
    (month', n - preceding' + 1)%Z
  else (month, n - preceding + 1)%Z.

(** [_ord2ymd]: day number to (year, month, day). *)
Definition ord2ymd (ord : Z) : Z * Z * Z :=
  let n := (ord - 1)%Z in
  let n400 := (n / DI400Y)%Z in
  let n := (n mod DI400Y)%Z in
  let n100 := (n / DI100Y)%Z in
  let n := (n mod DI100Y)%Z in
  let n4 := (n / DI4Y)%Z in
  let n := (n mod DI4Y)%Z in
  let n1 := (n / 365)%Z in
  let n := (n mod 365)%Z in
  let year := (n400 * 400 + 1 + n100 * 100 + n4 * 4 + n1)%Z in
  if (n1 =? 4)%Z || (n100 =? 4)%Z then (year - 1, 12, 31)%Z
  else
    let leapyear := (n1 =? 3)%Z && (negb (n4 =? 24)%Z || (n100 =? 3)%Z) in
    let (month, day) := month_day leapyear n in
    (year, month, day).

Definition MONTH_ABBR : list string :=
  [""; "Jan"; "Feb"; "Mar"; "Apr"; "May"; "Jun";
   "Jul"; "Aug"; "Sep"; "Oct"; "Nov"; "Dec"].

(** [strftime('%Y%m%d')] *)
Definition strftime_Ymd (d : datetime) : string :=
  let '(y, m, dd) := ord2ymd (ordinal d) in
  Fmt.zfill 4 (Z.to_nat y) ++ Fmt.zfill 2 (Z.to_nat m) ++ Fmt.zfill 2 (Z.to_nat dd).

(** [strftime('%Y-%m-%d')] *)
Definition strftime_iso (d : datetime) : string :=
  let '(y, m, dd) := ord2ymd (ordinal d) in
  Fmt.zfill 4 (Z.to_nat y) ++ "-" ++ Fmt.zfill 2 (Z.to_nat m)
  ++ "-" ++ Fmt.zfill 2 (Z.to_nat dd).

(** [strftime('%b %d, %Y')] *)
Definition strftime_bdY (d : datetime) : string :=
  let '(y, m, dd) := ord2ymd (ordinal d) in
  nth (Z.to_nat m) MONTH_ABBR "" ++ " " ++ Fmt.zfill 2 (Z.to_nat dd)
  ++ ", " ++ Fmt.zfill 4 (Z.to_nat y).

End Datetime.

(** ** The static tables of the script *)

Local Open Scope float_scope.

Definition OUTPUT_COUNT : nat := 20.

Definition CATALOG_CSV : string := "product_catalog.csv".
Definition MANIFEST_CSV : string := "invoice_manifest.csv".
Definition ZIP_PATH : string := "invoices.zip".

Definition FROM_NAME : string := "Nickyboys' Restaurant Goodies".
Definition FROM_ADDR_1 : string := "1000 Continental Dr.".
Definition FROM_ADDR_2 : string := "King of Prussia, PA 19406".
Definition FROM_PHONE : string := "(610) 555-0199".
Definition FROM_EMAIL : string := "orders@nicykboysrestaurantgoods.com".

(** A catalog is a Python [dict] from product name to (unit, price):
    its items in insertion order. *)
Definition catalog := list (string * (string * float)).

Definition PRODUCT_CATALOG : catalog := [
  ("Stainless Steel Chef Knife 8in", ("each", 34.99));
  ("Paring Knife 3.5in", ("each", 12.50));
  ("Silver Fork", ("each", 5.00));
  ("Dinner Spoon", ("each", 4.50));
  ("Soup Ladle", ("each", 11.25));
  ("Wooden Spatula", ("each", 3.99));
  ("Silicone Spatula", ("each", 5.49));
  ("Nonstick Fry Pan 10in", ("each", 39.95));
  ("Cast Iron Skillet 12in", ("each", 54.00));
  ("Stainless Sauce Pan 2qt", ("each", 29.99));
  ("Stainless Stock Pot 12qt", ("each", 79.00));
  ("Cutting Board - Maple", ("each", 22.75));
  ("Cutting Board - Plastic", ("each", 12.99));
  ("Mixing Bowl 3qt", ("each", 8.25));
  ("Mixing Bowl 5qt", ("each", 11.50));
  ("Sheet Pan Half", ("each", 9.25));
  ("Sheet Pan Full", ("each", 14.75));
  ("Baking Parchment Roll", ("roll", 7.80));
  ("Squeeze Bottle 16oz", ("each", 1.99));
  ("Food Storage Container 2qt", ("each", 6.25));
  ("Food Storage Container 4qt", ("each", 8.10));
  ("Cambro Lid (fits 2–4qt)", ("each", 2.10));
  ("Disposable Gloves (Box 100)", ("box", 7.99));
  ("Chef Apron", ("each", 12.00));
  ("Digital Thermometer", ("each", 18.95));
  ("Kitchen Towels (Pack of 6)", ("pack", 10.99));
  ("Aluminum Foil Heavy Duty 1000ft", ("roll", 29.50));
  ("Plastic Wrap 2000ft", ("roll", 24.25));
  ("Bus Tub", ("each", 9.99));
  ("Dish Rack", ("each", 16.50));
  ("Serrated Bread Knife 10in", ("each", 24.75));
  ("Tongs 12in", ("each", 4.60));
  ("Whisk 10in", ("each", 3.80));
  ("Mandoline Slicer", ("each", 42.00));
  ("Colander Stainless 5qt", ("each", 14.20));
  ("Immersion Blender", ("each", 89.00));
  ("Heat-Resistant Spatula", ("each", 6.40));
  ("Silicone Baking Mat Half", ("each", 11.20));
  ("Grill Brush", ("each", 7.30));
  ("Commercial Can Opener", ("each", 64.99))
].

Definition CITIES : list (string * string * string) := [
  ("Philadelphia", "PA", "191");
  ("Pittsburgh", "PA", "152");
  ("Harrisburg", "PA", "171");
  ("Newark", "DE", "197");
  ("Wilmington", "DE", "198");
  ("Baltimore", "MD", "212");
  ("Towson", "MD", "212");
  ("Cherry Hill", "NJ", "080");
  ("Trenton", "NJ", "086");
  ("Camden", "NJ", "081");
  ("New York", "NY", "100");
  ("Yonkers", "NY", "107");
  ("Stamford", "CT", "069");
  ("Allentown", "PA", "181");
  ("Reading", "PA", "196");
  ("Lancaster", "PA", "176");
  ("Scranton", "PA", "185");
  ("Bethlehem", "PA", "180")
].

Definition STREET_NAMES : list string := [
  "Market St"; "Broad St"; "Main St"; "Chestnut St"; "Walnut St";
  "Spruce St"; "Pine St"; "Maple Ave"; "Elm Ave"; "Second St";
  "Third St"; "Fourth St"; "Fifth Ave"; "Park Ave"; "Ridge Ave";
  "Front St"; "River Rd"; "High St"; "Bridge St"; "Union Ave"
].

Definition RESTAURANT_PREFIX : list string := [
  "Golden"; "Red Oak"; "Blue Harbor"; "Sunrise"; "Cedar Grove"; "Harvest";
  "Liberty"; "Hudson"; "Riverstone"; "Silver Spoon"; "Firefly"; "Willow";
  "Urban"; "Green Leaf"; "Copper Pot"; "Iron Gate"; "Saffron"; "Juniper";
  "Nick's"; "Bella"; "Little"
].

Definition RESTAURANT_SUFFIX : list string := [
  "Bistro"; "Tavern"; "Kitchen"; "Trattoria"; "Grill"; "Diner";
  "Cantina"; "Ramen House"; "Pizzeria"; "Steakhouse"; "Cafe";
  "Tap House"; "Bar & Grill"; "Smokehouse"; "Gastropub"
].

Definition NOUNS : list string :=
  ["Fork"; "Spatula"; "Spice"; "Anchor"; "Lantern"; "Hearth"; "Crown"; "Sailor"; "Spoon"].

Definition ADJECTIVES : list string :=
  ["Rusty"; "Golden"; "Blue"; "Green"; "Silver"; "Old"; "Velvet"].

Definition DUE_DAYS : list nat := [7; 14; 21; 30]%nat.

Definition TAX_RATES : list float :=
  [0.06; 0.0625; 0.07; 0.0725; 0.08; 0.0825; 0.085].

(** ** [csv.writer] with the default dialect

    Comma separated, a field quoted only when it holds a comma, a
    quote, a carriage return or a line feed (quotes inside doubled),
    each row ended by carriage return and line feed. *)

Module Csv.

Definition dquote : ascii := ascii_of_nat 34.
Definition cr : ascii := ascii_of_nat 13.
Definition lf : ascii := ascii_of_nat 10.

Definition special (c : ascii) : bool :=
  Ascii.eqb c ","%char || Ascii.eqb c dquote || Ascii.eqb c cr || Ascii.eqb c lf.

Fixpoint needs_quote (s : string) : bool :=
  match s with
  | EmptyString => false
  | String c s' => special c || needs_quote s'
  end.

Fixpoint escape (s : string) : string :=
  match s with
  | EmptyString => EmptyString
  | String c s' =>
      if Ascii.eqb c dquote then String dquote (String dquote (escape s'))
      else String c (escape s')
  end.

Definition field (s : string) : string :=
  if needs_quote s
  then String dquote (escape s ++ String dquote EmptyString)
  else s.

Fixpoint join (sep : string) (l : list string) : string :=
  match l with
  | [] => EmptyString
  | [x] => x
  | x :: rest => x ++ sep ++ join sep rest
  end.

Definition writerow (row : list string) : string :=
  join "," (List.map field row) ++ String cr (String lf EmptyString).

Definition writerows (rows : list (list string)) : string :=
  String.concat EmptyString (List.map writerow rows).

End Csv.

(** ** The generators of the script *)

Import Random Datetime.

Definition make_restaurant_name (g : rng) : string * rng :=
  let (r, g1) := random g in
  if PrimFloat.ltb r 0.5 then
    let (p, g2) := choice "" RESTAURANT_PREFIX g1 in
    let (s, g3) := choice "" RESTAURANT_SUFFIX g2 in
    (p ++ " " ++ s, g3)%string
  else
    let (noun, g2) := choice "" NOUNS g1 in
    let (adj, g3) := choice "" ADJECTIVES g2 in
    ("The " ++ adj ++ " " ++ noun, g3)%string.

Definition make_address (g : rng) : (string * string) * rng :=
  let (number, g1) := randint 100 9999 g in
  let (street, g2) := choice "" STREET_NAMES g1 in
  let '((city, state, zip_prefix), g3) := choice ("", "", "") CITIES g2 in
  let (zip_suffix, g4) := randint 10 99 g3 in
  let zipcode := (zip_prefix ++ Fmt.zfill 2 zip_suffix)%string in
  ((Fmt.dec number ++ " " ++ street, city ++ ", " ++ state ++ " " ++ zipcode)%string, g4).

(** One line of an invoice: (name, unit, qty, price, amount). *)
Definition line : Type := string * string * nat * float * float.

Definition line_name (l : line) : string := let '(n, _, _, _, _) := l in n.
Definition line_unit (l : line) : string := let '(_, u, _, _, _) := l in u.
Definition line_qty (l : line) : nat := let '(_, _, q, _, _) := l in q.
Definition line_price (l : line) : float := let '(_, _, _, p, _) := l in p.
Definition line_amount (l : line) : float := let '(_, _, _, _, a) := l in a.

(** The [for] loop of [choose_line_items]: one quantity per item,
    appended to [lines]. *)
Fixpoint fill_lines (items : catalog) (lines : list line) (g : rng)
  : list line * rng :=
  match items with
  | [] => (lines, g)
  | (name, (unit, price)) :: rest =>
      let (qty, g') := randint 1 40 g in
      fill_lines rest (lines ++ [(name, unit, qty, price, Fmt.float_of_nat qty * price)]) g'
  end.

(** [choose_line_items()], with the global [PRODUCT_CATALOG] it reads
    as an argument. [None] is the [ValueError] of [random.sample]. *)
Definition choose_line_items (cat : catalog) (g : rng) : option (list line) * rng :=
  let (n, g1) := randint 5 12 g in
  match sample cat n g1 with
  | (None, g2) => (None, g2)
  | (Some items, g2) =>
      let (lines, g3) := fill_lines items [] g2 in (Some lines, g3)
  end.

(** [choose_line_items()] with [random.sample] as CPython runs it. *)
Definition choose_line_items_cpython (fuel : nat) (cat : catalog) (g : rng)
  : option (option (list line) * rng) :=
  let (n, g1) := randint 5 12 g in
  match sample_cpython fuel cat n g1 with
  | None => None
  | Some (None, g2) => Some (None, g2)
  | Some (Some items, g2) =>
      let (lines, g3) := fill_lines items [] g2 in Some (Some lines, g3)
  end.

(** [currency(x)] *)
Definition currency (x : float) : string := ("$" ++ Fmt.f2_grouped x)%string.

(** [sum] of floats from the [int] 0, left to right. (CPython 3.12
    and later also carry the rounding errors of the additions and add
    them at the end; the result is the same whenever at most one
    addition is inexact, and nothing below depends on how the sum is
    formed, except the printed values of the examples.) *)
Definition py_sum (l : list float) : float :=
  fold_left PrimFloat.add l 0.

(** [int(x)] for a float: truncation toward zero ([None] for the
    [ValueError] / [OverflowError] of nan and the infinities). *)
Definition int_of_float (x : float) : option Z :=
  match Prim2SF x with
  | S754_zero _ => Some 0%Z
  | S754_finite s m e =>
      let a := if (0 <=? e)%Z then (Zpos m * 2 ^ e)%Z else (Zpos m / 2 ^ (- e))%Z in
      Some (if s then (- a)%Z else a)
  | _ => None
  end.

(** ** The world the script runs in *)

Inductive exn :=
  | RuntimeError (msg : string)
  | ValueError (msg : string).

(** A file of the output folder: plain bytes, or a ZIP archive with
    its members in the order they were added. *)
Inductive file :=
  | Bytes (s : string)
  | Archive (members : list (string * file)).

(** What [draw_invoice] hands to the layout engine: the cells of its
    tables. The fixed paragraphs, styles and page size are the layout
    engine's business. *)
Record story := mk_story {
  st_meta : list (string * string);
  st_from : list string;
  st_to : list string;
  st_data : list (list string);
  st_totals : list (string * string)
}.

Record world := mk_world {
  w_rng : rng;
  w_ticks : nat;
  w_files : gmap string file
}.

Inductive outcome (A : Type) :=
  | Ok (a : A)
  | Raise (e : exn).
Arguments Ok {A} a.
Arguments Raise {A} e.

(** A step of the script: it reads and changes the world, and ends
    with a value or an uncaught exception. *)
Definition M (A : Type) : Type := world -> outcome A * world.

Definition ret {A} (a : A) : M A := fun w => (Ok a, w).

Definition bind {A B} (c : M A) (k : A -> M B) : M B :=
  fun w => match c w with
           | (Ok a, w') => k a w'
           | (Raise e, w') => (Raise e, w')
           end.

Definition raise {A} (e : exn) : M A := fun w => (Raise e, w).

#[global] Instance M_ret : MRet M := @ret.
#[global] Instance M_bind : MBind M := fun A B k c => bind c k.

(** A draw from the global generator. *)
Definition draw {A} (f : rng -> A * rng) : M A :=
  fun w => let (a, g) := f (w_rng w) in
           (Ok a, mk_world g (w_ticks w) (w_files w)).

(** [open(path, "w")] followed by the writes and the close. The folder
    takes every write: a read-only folder, a full disk or an error
    inside [reportlab] are outside the model, and no property below
    speaks of them. *)
Definition write_file (path : string) (f : file) : M unit :=
  fun w => (Ok tt, mk_world (w_rng w) (w_ticks w) (<[path := f]> (w_files w))).

Definition is_pdf (name : string) : bool :=
  let n := String.length name in
  (4 <=? n)%nat && String.eqb (String.substring (n - 4) 4 name) ".pdf".

(** [PDF_DIR.glob("*.pdf")]: the entries of the folder whose name ends
    in [.pdf], in the order the folder lists them. *)
Definition glob_pdf (files : gmap string file) : list (string * file) :=
  List.filter (fun p => is_pdf (fst p)) (map_to_list files).

Section Script.

(** The words [random.seed(n)] starts the generator with. *)
Variable mt : Z -> nat -> N.
(** The reading of the [k]-th call of [datetime.now()]. *)
Variable clock : nat -> datetime.
(** [SimpleDocTemplate.build]: the bytes of the laid-out document. *)
Variable doc_build : story -> string.
(** The outcome of importing [reportlab]: the text of the exception,
    if there is one. *)
Variable reportlab_import : option string.

Definition seed (n : Z) : M unit :=
  fun w => (Ok tt, mk_world (mk_rng (mt n) 0) (w_ticks w) (w_files w)).

Definition now : M datetime :=
  fun w => (Ok (clock (w_ticks w)), mk_world (w_rng w) (S (w_ticks w)) (w_files w)).

Definition random_invoice_number (i : nat) : M string :=
  t ← now;
  mret ("INV-" ++ strftime_Ymd t ++ "-" ++ Fmt.zfill 3 i)%string.

Definition percent_label (tax_rate : float) : string :=
  match int_of_float (tax_rate * 100) with
  | Some z => ("Tax (" ++ (if (z <? 0)%Z then "-" else "") ++ Fmt.dec (Z.abs_nat z) ++ "%)")%string
  | None => "Tax (nan%)"%string
  end.

(** The totals [draw_invoice] computes for the totals block. *)
Definition draw_invoice_totals (lines : list line) (tax_rate : float)
  : float * float * float :=
  let subtotal := py_sum (List.map (fun l : line => let '(_, _, _, _, a) := l in a) lines) in
  let tax := subtotal * tax_rate in
  let grand := subtotal + tax in
  (subtotal, tax, grand).

(** The flowables of [draw_invoice], in the order they are appended. *)
Definition invoice_story (invoice_number bill_to_name bill_to_addr1
                          bill_to_addr2 : string) (issued_date due_date : datetime)
                         (lines : list line) (tax_rate : float) : story :=
  let meta := [("Invoice No.", invoice_number);
               ("Invoice Date", strftime_bdY issued_date);
               ("Due Date", strftime_bdY due_date)]%string in
  let from_block := ["FROM"%string; FROM_NAME; FROM_ADDR_1; FROM_ADDR_2; FROM_PHONE; FROM_EMAIL] in
  let to_block := ["TO"%string; bill_to_name; bill_to_addr1; bill_to_addr2] in
  let data :=
    ["DESCRIPTION"; "UNIT"; "QTY"; "RATE"; "AMOUNT"]%string
    :: List.map (fun l : line =>
                   let '(desc, unit, qty, rate, amount) := l in
                   [desc; unit; Fmt.dec qty; currency rate; currency amount]) lines in
  let '(subtotal, tax, grand) := draw_invoice_totals lines tax_rate in
  let totals := [("Subtotal"%string, currency subtotal);
                 (percent_label tax_rate, currency tax);
                 ("GRAND TOTAL"%string, currency grand)] in
  mk_story meta from_block to_block data totals.

Definition draw_invoice (pdf_path invoice_number bill_to_name bill_to_addr1
                         bill_to_addr2 : string) (issued_date due_date : datetime)
                        (lines : list line) (tax_rate : float) : M unit :=
  write_file pdf_path
    (Bytes (doc_build (invoice_story invoice_number bill_to_name bill_to_addr1
                         bill_to_addr2 issued_date due_date lines tax_rate))).

(** The catalog export, header first. *)
Definition catalog_rows (cat : catalog) : list (list string) :=
  ["Product"; "Unit"; "PriceUSD"]%string
  :: List.map (fun e : string * (string * float) =>
                 let '(name, (unit, price)) := e in [name; unit; Fmt.f2 price]) cat.

Definition MANIFEST_HEADER : list string :=
  ["InvoiceNo"; "IssuedDate"; "DueDate"; "ToName"; "ToAddr1"; "ToAddr2";
   "Subtotal"; "Tax"; "GrandTotal"]%string.

(** The local variables of one pass of the main loop once the random
    draws are made. *)
Record invoice := mk_invoice {
  invoice_no : string;
  to_name : string;
  addr1 : string;
  addr2 : string;
  issued : datetime;
  due : datetime;
  lines : list line;
  tax_rate : float
}.

(** The draws of one pass, in the order of the source. *)
Definition gen_invoice (cat : catalog) (base_issue : datetime) (i : nat) : M invoice :=
  invoice_no ← random_invoice_number i;
  to_name ← draw make_restaurant_name;
  '(addr1, addr2) ← draw make_address;
  k ← draw (randint 0 25);
  let issued := add_days base_issue (Z.of_nat k) in
  c ← draw (choice 0%nat DUE_DAYS);
  let due := add_days issued (Z.of_nat c) in
  ol ← draw (choose_line_items cat);
  match ol with
  | None => raise (ValueError "Sample larger than population or is negative")
  | Some lines =>
      tax_rate ← draw (choice nan TAX_RATES);
      mret (mk_invoice invoice_no to_name addr1 addr2 issued due lines tax_rate)
  end.

(** The totals the main loop recomputes for the manifest. *)
Definition main_totals (lines : list line) (tax_rate : float) : float * float * float :=
  let subtotal := py_sum (List.map (fun l : line => let '(_, a) := l in a) lines) in
  let tax := subtotal * tax_rate in
  let grand := subtotal + tax in
  (subtotal, tax, grand).

Definition manifest_row (inv : invoice) : list string :=
  let '(subtotal, tax, grand) := main_totals (lines inv) (tax_rate inv) in
  [invoice_no inv; strftime_iso (issued inv); strftime_iso (due inv);
   to_name inv; addr1 inv; addr2 inv;
   Fmt.f2 subtotal; Fmt.f2 tax; Fmt.f2 grand].

(** The body of the main loop: draw, render, return the manifest row
    the loop appends. *)
Definition loop_body (cat : catalog) (base_issue : datetime) (i : nat)
  : M (list string) :=
  inv ← gen_invoice cat base_issue i;
  let pdf_path := (invoice_no inv ++ ".pdf")%string in
  draw_invoice pdf_path (invoice_no inv) (to_name inv) (addr1 inv) (addr2 inv)
               (issued inv) (due inv) (lines inv) (tax_rate inv);;
  mret (manifest_row inv).

(** [for i in range(...)] over the remaining indices. *)
Fixpoint main_loop (cat : catalog) (base_issue : datetime) (indices : list nat)
                   (manifest_rows : list (list string)) : M (list (list string)) :=
  match indices with
  | [] => mret manifest_rows
  | i :: rest =>
      row ← loop_body cat base_issue i;
      main_loop cat base_issue rest (manifest_rows ++ [row])
  end.

Definition zip_pdfs : M unit :=
  fun w => write_file ZIP_PATH (Archive (glob_pdf (w_files w))) w.

(** The script below its imports, for [OUTPUT_COUNT = n] and
    [PRODUCT_CATALOG = cat]. *)
Definition main (n : nat) (cat : catalog) : M unit :=
  seed 42;;
  write_file CATALOG_CSV (Bytes (Csv.writerows (catalog_rows cat)));;
  t ← now;
  let base_issue := add_days t (-30) in
  manifest_rows ← main_loop cat base_issue (seq 1 n) [];
  write_file MANIFEST_CSV (Bytes (Csv.writerows (MANIFEST_HEADER :: manifest_rows)));;
  zip_pdfs.

Definition IMPORT_MESSAGE (e : string) : string :=
  ("This environment needs the 'reportlab' package to generate PDFs. "
   ++ "Please install it (e.g., `pip install reportlab`) and rerun. "
   ++ "Import error: " ++ e)%string.

(** The whole script: the guarded import, then [main]. *)
Definition script (n : nat) (cat : catalog) : M unit :=
  match reportlab_import with
  | Some e => raise (RuntimeError (IMPORT_MESSAGE e))
  | None => main n cat
  end.

End Script.

(** * Vocabulary of the properties *)

Local Close Scope string_scope.
Local Open Scope list_scope.

(** ** Strings *)

Definition is_digit (c : ascii) : bool :=
  (48 <=? nat_of_ascii c)%nat && (nat_of_ascii c <=? 57)%nat.

Fixpoint all_digits (s : string) : bool :=
  match s with
  | EmptyString => true
  | String c s' => is_digit c && all_digits s'
  end.

Fixpoint has_dash (s : string) : bool :=
  match s with
  | EmptyString => false
  | String c s' => Ascii.eqb c "-" || has_dash s'
  end.

(** The field after the last dash of a string. *)
Fixpoint after_last_dash (s : string) : string :=
  match s with
  | EmptyString => EmptyString
  | String c s' =>
      if has_dash s' then after_last_dash s'
      else if Ascii.eqb c "-" then s' else String c s'
  end.

(** A string with its commas taken out. *)
Fixpoint unsep (s : string) : string :=
  match s with
  | EmptyString => EmptyString
  | String c s' => if Ascii.eqb c "," then unsep s' else String c (unsep s')
  end.

(** [needle in s] *)
Definition mentions (needle s : string) : Prop :=
  exists pre post : string, s = (pre ++ needle ++ post)%string.

(** The checks that the bounded facts below run over a range. *)
Definition width_ok (w k : nat) : bool := (String.length (Fmt.zfill w k) =? w)%nat.

Definition month_day_ok (leap : bool) (k : nat) : bool :=
  let '(m, d) := month_day leap (Z.of_nat k) in
  (1 <=? m)%Z && (m <=? 12)%Z && (1 <=? d)%Z && (d <=? 31)%Z.

(** ** Lines *)

(** A line made from a catalog entry: its name, unit and price, a
    quantity in 1..40, and the float product as amount. *)
Definition line_of (e : string * (string * float)) (l : line) : Prop :=
  exists qty : nat,
    (1 <= qty <= 40)%nat
    /\ l = (e.1, e.2.1, qty, e.2.2, Fmt.float_of_nat qty * e.2.2).

(** The lines of one document: 5 to 12 of them, no product twice,
    each a catalog entry with a quantity in 1..40 and the product of
    quantity and catalog price as amount. *)
Definition lines_ok (cat : catalog) (lines : list line) : Prop :=
  (5 <= length lines <= 12)%nat
  /\ NoDup (List.map line_name lines)
  /\ Forall (fun l : line =>
               exists unit price,
                 (line_name l, (unit, price)) ∈ cat
                 /\ line_unit l = unit
                 /\ (1 <= line_qty l <= 40)%nat
                 /\ line_price l = price
                 /\ line_amount l = Fmt.float_of_nat (line_qty l) * price) lines.

(** Whether the two-decimal form of [q * p], as the code computes it,
    is the exact decimal product of [q] and the two-decimal form of
    [p]. *)
Definition cents_exact (p : float) (q : nat) : bool :=
  match Fmt.cents p, Fmt.cents (Fmt.float_of_nat q * p) with
  | Some (false, c), Some (false, a) => (a =? Z.of_nat q * c)%Z
  | _, _ => false
  end.

(** ** The draws of a pass of the main loop

    A pass reads the world only through the generator and one clock
    reading, and changes only the generator, the clock counter and one
    file. [pass_draws] is the chain of draws a pass makes, in the order
    of the source; [assemble] is the invoice they make at a clock
    reading. *)

Record draws := mk_draws {
  d_name : string;
  d_addr1 : string;
  d_addr2 : string;
  d_offset : nat;
  d_term : nat;
  d_lines : list line;
  d_rate : float
}.

Definition pass_draws (cat : catalog) (g : rng) : option draws * rng :=
  let (name, g1) := make_restaurant_name g in
  let '((a1, a2), g2) := make_address g1 in
  let (k, g3) := randint 0 25 g2 in
  let (c, g4) := choice 0%nat DUE_DAYS g3 in
  match choose_line_items cat g4 with
  | (None, g5) => (None, g5)
  | (Some ls, g5) =>
      let (rate, g6) := choice nan TAX_RATES g5 in
      (Some (mk_draws name a1 a2 k c ls rate), g6)
  end.

(** What the draws of a pass satisfy. *)
Definition draws_ok (cat : catalog) (d : draws) : Prop :=
  (d_offset d <= 25)%nat
  /\ d_term d ∈ DUE_DAYS
  /\ lines_ok cat (d_lines d)
  /\ d_rate d ∈ TAX_RATES.

(** The draws of [n] passes in a row, when none of them fails. *)
Fixpoint loop_draws (cat : catalog) (n : nat) (g : rng) : option (list draws) * rng :=
  match n with
  | O => (Some [], g)
  | S n' =>
      match pass_draws cat g with
      | (Some d, g1) =>
          match loop_draws cat n' g1 with
          | (Some ds, g2) => (Some (d :: ds), g2)
          | (None, g2) => (None, g2)
          end
      | (None, g1) => (None, g1)
      end
  end.

Definition SAMPLE_ERROR : exn :=
  ValueError "Sample larger than population or is negative".

(** ** The invoices of a run *)

Definition invoice_number (t : datetime) (i : nat) : string :=
  ("INV-" ++ strftime_Ymd t ++ "-" ++ Fmt.zfill 3 i)%string.

Definition assemble (t base_issue : datetime) (i : nat) (d : draws) : invoice :=
  let issued := add_days base_issue (Z.of_nat (d_offset d)) in
  mk_invoice (invoice_number t i) (d_name d) (d_addr1 d) (d_addr2 d)
             issued (add_days issued (Z.of_nat (d_term d))) (d_lines d) (d_rate d).

Definition pdf_name (inv : invoice) : string := (invoice_no inv ++ ".pdf")%string.

Definition story_of (inv : invoice) : story :=
  invoice_story (invoice_no inv) (to_name inv) (addr1 inv) (addr2 inv)
                (issued inv) (due inv) (lines inv) (tax_rate inv).

(** The invoices of consecutive passes: pass [j] reads the clock for
    the [j]-th time after [t]. *)
Fixpoint assemble_all (clock : nat -> datetime) (base_issue : datetime) (t : nat)
                      (indices : list nat) (ds : list draws) : list invoice :=
  match indices, ds with
  | i :: indices', d :: ds' =>
      assemble (clock t) base_issue i d
      :: assemble_all clock base_issue (S t) indices' ds'
  | _, _ => []
  end.

(** The invoices of a run of [n] passes started when the clock has
    been read [t0] times: the generator starts from the words of seed
    42, the base date is the reading [t0] minus 30 days, and pass [i]
    has index [i] and reading [t0 + i]. *)
Definition run_invoices (mt : Z -> nat -> N) (clock : nat -> datetime)
                        (n : nat) (cat : catalog) (t0 : nat) : list invoice :=
  match fst (loop_draws cat n (mk_rng (mt 42%Z) 0)) with
  | Some ds => assemble_all clock (add_days (clock t0) (-30)) (S t0) (seq 1 n) ds
  | None => []
  end.

(** ** The files of a run *)

(** The PDFs written by a list of passes, in order. *)
Definition write_pdfs (doc_build : story -> string) (invs : list invoice)
                      (files : gmap string file) : gmap string file :=
  fold_left (fun fs inv => <[pdf_name inv := Bytes (doc_build (story_of inv))]> fs)
            invs files.

Definition catalog_file (cat : catalog) : file :=
  Bytes (Csv.writerows (catalog_rows cat)).

Definition manifest_file (invs : list invoice) : file :=
  Bytes (Csv.writerows (MANIFEST_HEADER :: List.map manifest_row invs)).

(** The folder after a run that completes. *)
Definition final_files (doc_build : story -> string) (cat : catalog)
                       (invs : list invoice) (files : gmap string file)
  : gmap string file :=
  let files1 := <[CATALOG_CSV := catalog_file cat]> files in
  let files2 := write_pdfs doc_build invs files1 in
  let files3 := <[MANIFEST_CSV := manifest_file invs]> files2 in
  <[ZIP_PATH := Archive (glob_pdf files3)]> files3.

Definition archive_names (w : world) : list string :=
  match w_files w !! ZIP_PATH with
  | Some (Archive members) => List.map fst members
  | _ => []
  end.

Definition manifest_of (w : world) : option file := w_files w !! MANIFEST_CSV.

(** ** Readings of the claims that the code does not meet *)

(** [round(x, 2)]: the float nearest to the two-decimal rounding of
    [x] (for magnitudes below 2^63 hundredths). *)
Definition round2 (x : float) : float :=
  match Fmt.cents x with
  | Some (s, c) =>
      let m := PrimFloat.div (PrimFloat.of_uint63 (Uint63.of_Z c)) 100 in
      if s then PrimFloat.opp m else m
  | None => x
  end.

(** The tax is the two-decimal rounding of subtotal times rate, and
    the grand total is subtotal plus tax. *)
Definition tax_rounded (inv : invoice) : Prop :=
  let '(s, t, g) := main_totals (lines inv) (tax_rate inv) in
  t = round2 (s * tax_rate inv) /\ g = s + t.

(** The shape INV-YYYYMMDD-NNN. *)
Definition is_invoice_number (s : string) : Prop :=
  exists date seqn : string,
    s = ("INV-" ++ date ++ "-" ++ seqn)%string
    /\ String.length date = 8%nat /\ all_digits date = true
    /\ String.length seqn = 3%nat /\ all_digits seqn = true.

(** ** Concrete worlds *)

(** A generator whose words are all zero: every draw is the least
    value of its range. *)
Definition zero_rng : rng := mk_rng (fun _ => 0%N) 0.

(** Words for which the first pass draws five lines, the first four
    catalog entries once each and 17 of the fifth, and the rate
    0.0625: a subtotal of 248.24. *)
Definition EXAMPLE_WORDS (k : nat) : N :=
  nth k [0; 0; 0; 0; 0; 0; 0; 0; 0; 0; 0; 1; 2; 3; 4; 0; 0; 0; 0; 16; 1]%N 0%N.

(** A clock that stands at midnight of 2026-11-05. *)
Definition EXAMPLE_CLOCK (k : nat) : datetime := mk_dt 739925 0.

(** A clock on 2026-11-05 whose time of day moves with each reading. *)
Definition MOVING_CLOCK (k : nat) : datetime := mk_dt 739925 (N.of_nat (1000 * k)).

Definition CATALOG_11 : catalog := take 11 PRODUCT_CATALOG.

Definition YESTERDAY_PDF : string := "INV-20261104-001.pdf".

(** A folder that still holds a PDF of an earlier run. *)
Definition STALE_WORLD : world :=
  mk_world zero_rng 0 {[ YESTERDAY_PDF := Bytes "earlier run" ]}.

(** ** Streams on which the redrawing loop ends *)

(** From the cursor on, every [fuel] consecutive words hold [k]
    different indices below [n]: a redraw that avoids fewer than [k]
    indices finds a new one within [fuel] draws. *)
Definition varied (fuel k n : nat) (g : rng) : Prop :=
  forall c, (cursor g <= c)%nat ->
    exists l : list nat,
      NoDup l /\ length l = k
      /\ forall v, v ∈ l ->
           exists j, (j < fuel)%nat /\ fst (randbelow n (mk_rng (words g) (c + j))) = v.

(** A stream that gives every word twice: 0, 0, 1, 1, 2, 2, ... *)
Definition TWICE_RNG : rng := mk_rng (fun k => N.of_nat (k / 2)) 0.

(** ** Recipients, CSV lines and labels *)

(** The generator [k] draws later. *)
Definition advance (k : nat) (g : rng) : rng :=
  mk_rng (words g) (cursor g + k).

(** The two forms of a restaurant name. *)
Definition name_shape (name : string) : Prop :=
  (exists p s, p ∈ RESTAURANT_PREFIX /\ s ∈ RESTAURANT_SUFFIX
               /\ name = (p ++ " " ++ s)%string)
  \/ (exists a n, a ∈ ADJECTIVES /\ n ∈ NOUNS
                  /\ name = ("The " ++ a ++ " " ++ n)%string).

(** The two lines of an address: a street number of 100..9999 and a
    street; a city of the table with its state, and a zip code made of
    the city's prefix and a suffix of 10..99. *)
Definition address_shape (a1 a2 : string) : Prop :=
  exists (number : nat) street city state prefix (suffix : nat),
    (100 <= number <= 9999)%nat /\ street ∈ STREET_NAMES
    /\ (city, state, prefix) ∈ CITIES /\ (10 <= suffix <= 99)%nat
    /\ a1 = (Fmt.dec number ++ " " ++ street)%string
    /\ a2 = (city ++ ", " ++ state ++ " " ++ prefix ++ Fmt.zfill 2 suffix)%string
    /\ String.length (prefix ++ Fmt.zfill 2 suffix) = 5%nat
    /\ all_digits (prefix ++ Fmt.zfill 2 suffix) = true.

Definition recipient_ok (d : draws) : Prop :=
  name_shape (d_name d) /\ address_shape (d_addr1 d) (d_addr2 d).

Fixpoint has_dquote (s : string) : bool :=
  match s with
  | EmptyString => false
  | String c s' => Ascii.eqb c Csv.dquote || has_dquote s'
  end.

(** A field between double quotes. *)
Definition quoted (s : string) : string :=
  String Csv.dquote (s ++ String Csv.dquote EmptyString).

Definition CRLF : string := String Csv.cr (String Csv.lf EmptyString).

(** The line of the manifest for an invoice: nine fields, the second
    address line between double quotes. *)
Definition manifest_line (inv : invoice) : string :=
  let '(s, t, g) := main_totals (lines inv) (tax_rate inv) in
  (invoice_no inv ++ "," ++ strftime_iso (issued inv) ++ ","
   ++ strftime_iso (due inv) ++ "," ++ to_name inv ++ "," ++ addr1 inv ++ ","
   ++ quoted (addr2 inv) ++ "," ++ Fmt.f2 s ++ "," ++ Fmt.f2 t ++ ","
   ++ Fmt.f2 g ++ CRLF)%string.

Definition MANIFEST_HEADER_LINE : string :=
  ("InvoiceNo,IssuedDate,DueDate,ToName,ToAddr1,ToAddr2,Subtotal,Tax,GrandTotal"
   ++ CRLF)%string.

(** The label of the tax row for each rate of the program. *)
Definition TAX_LABELS : list (float * string) :=
  [(0.06, "Tax (6%)"); (0.0625, "Tax (6%)"); (0.07, "Tax (7%)");
   (0.0725, "Tax (7%)"); (0.08, "Tax (8%)"); (0.0825, "Tax (8%)");
   (0.085, "Tax (8%)")]%string.

(** The row of the PDF's item table for a line. *)
Definition item_row (l : line) : list string :=
  [line_name l; line_unit l; Fmt.dec (line_qty l);
   currency (line_price l); currency (line_amount l)].

Definition ITEM_HEADER : list string :=
  ["DESCRIPTION"; "UNIT"; "QTY"; "RATE"; "AMOUNT"]%string.

(** Checks run over the static tables. *)
Definition plain (s : string) : bool := negb (Csv.needs_quote s).

Definition city_ok (c : string * string * string) : bool :=
  let '(city, state, prefix) := c in
  plain city && negb (has_dquote city) && plain state && negb (has_dquote state) && (String.length prefix =? 3)%nat
  && all_digits prefix.

Definition price_plain (e : string * (string * float)) : bool :=
  String.eqb (Fmt.f2_grouped e.2.2) (Fmt.f2 e.2.2).

(** The line of the catalog export for an entry, and the entries whose
    name and unit hold no character that makes [csv.writer] quote. *)
Definition catalog_line (e : string * (string * float)) : string :=
  (e.1 ++ "," ++ e.2.1 ++ "," ++ Fmt.f2 e.2.2 ++ CRLF)%string.

Definition CATALOG_HEADER_LINE : string := ("Product,Unit,PriceUSD" ++ CRLF)%string.

Definition entry_plain (e : string * (string * float)) : bool :=
  plain e.1 && plain e.2.1.

(** The world a run that fails in pass [k + 1] leaves: the catalog
    export and the PDFs of the [k] passes before it. *)
Definition failed_files (doc_build : story -> string) (cat : catalog)
                        (invs : list invoice) (files : gmap string file)
  : gmap string file :=
  write_pdfs doc_build invs (<[CATALOG_CSV := catalog_file cat]> files).

(** Two printings of one calendar day: [%b %d, %Y] as in the PDF and
    [%Y-%m-%d] as in the manifest. *)
Definition MONTH_NAMES : list string :=
  ["Jan"; "Feb"; "Mar"; "Apr"; "May"; "Jun";
   "Jul"; "Aug"; "Sep"; "Oct"; "Nov"; "Dec"]%string.

Definition same_day (pdf iso : string) : Prop :=
  exists (y m d : nat) (name : string),
    (1 <= m <= 12)%nat /\ (1 <= d <= 31)%nat
    /\ MONTH_NAMES !! (m - 1)%nat = Some name
    /\ pdf = (name ++ " " ++ Fmt.zfill 2 d ++ ", " ++ Fmt.zfill 4 y)%string
    /\ iso = (Fmt.zfill 4 y ++ "-" ++ Fmt.zfill 2 m ++ "-" ++ Fmt.zfill 2 d)%string.

(** A run of two passes over the first five catalog entries whose
    second pass asks for six lines. *)
Definition SHORT_CATALOG : catalog := take 5 PRODUCT_CATALOG.

Definition SHORT_WORDS (k : nat) : N := if (k =? 30)%nat then 1%N else 0%N.

Definition SHORT_RUN : outcome unit * world :=
  script (fun _ => SHORT_WORDS) EXAMPLE_CLOCK (fun _ => "pdf"%string) None 2
         SHORT_CATALOG STALE_WORLD.

(** * Properties *)

(** ** The embedding on small inputs *)

Local Open Scope string_scope.

Example dec_0 : Fmt.dec 0 = "0". Proof. reflexivity. Qed.
Example zfill_7 : Fmt.zfill 3 7 = "007". Proof. reflexivity. Qed.
Example zfill_1000 : Fmt.zfill 3 1000 = "1000". Proof. reflexivity. Qed.
Example undec_007 : Fmt.undec "007" = Some 7%nat. Proof. reflexivity. Qed.
Example f2_a : Fmt.f2 7.34375%float = "7.34". Proof. vm_compute. reflexivity. Qed.
Example f2_b : Fmt.f2 0.625%float = "0.62". Proof. vm_compute. reflexivity. Qed.
Example f2_c : Fmt.f2 34.99%float = "34.99". Proof. vm_compute. reflexivity. Qed.
Example f2_d : Fmt.f2_grouped 1234567.891%float = "1,234,567.89". Proof. vm_compute. reflexivity. Qed.
Example f2_e : Fmt.f2_grouped 999.999%float = "1,000.00". Proof. vm_compute. reflexivity. Qed.
Example f2_f : Fmt.f2 (Fmt.float_of_nat 3 * 34.99)%float = "104.97". Proof. vm_compute. reflexivity. Qed.
Example ord2ymd_1 : Datetime.ord2ymd 1 = (1, 1, 1)%Z. Proof. reflexivity. Qed.
Example ord2ymd_leap : Datetime.ord2ymd 738945 = (2024, 2, 29)%Z. Proof. reflexivity. Qed.
Example ord2ymd_eoy : Datetime.ord2ymd 739251 = (2024, 12, 31)%Z. Proof. reflexivity. Qed.
Example ord2ymd_noy : Datetime.ord2ymd 739252 = (2025, 1, 1)%Z. Proof. reflexivity. Qed.
Example ord2ymd_2000 : Datetime.ord2ymd 730120 = (2000, 1, 1)%Z. Proof. reflexivity. Qed.
Example catalog_size : length PRODUCT_CATALOG = 40%nat. Proof. reflexivity. Qed.
Example en_dash : String.length "2–4" = 5%nat. Proof. reflexivity. Qed.
Example currency_ex : currency 1234.5 = "$1,234.50"%string. Proof. vm_compute. reflexivity. Qed.
Example int_of_float_ex : int_of_float (0.0625 * 100) = Some 6%Z. Proof. vm_compute. reflexivity. Qed.
Example int_of_float_ex2 : int_of_float (0.07 * 100) = Some 7%Z. Proof. vm_compute. reflexivity. Qed.
Example csv_ex : Csv.writerow ["a"; "Towson, MD 21212"; "x"]%string
  = String.concat "" ["a,"; String Csv.dquote "Towson, MD 21212";
                      String Csv.dquote ",x"; String Csv.cr (String Csv.lf "")]%string.
Proof. vm_compute. reflexivity. Qed.

Local Close Scope string_scope.

(** ** Strings *)

Lemma append_cons (c : ascii) (s t : string) :
  (String c s ++ t)%string = String c (s ++ t)%string.
Proof. reflexivity. Qed.

Lemma append_nil_r (s : string) : (s ++ "")%string = s.
Proof. induction s as [| c s IH]; [done | by rewrite append_cons, IH]. Qed.

Lemma append_assoc (s t u : string) : ((s ++ t) ++ u = s ++ t ++ u)%string.
Proof. induction s as [| c s IH]; [done | by rewrite !append_cons, IH]. Qed.

Lemma length_append (s t : string) :
  String.length (s ++ t) = (String.length s + String.length t)%nat.
Proof.
  induction s as [| c s IH]; [done |].
  rewrite append_cons. cbn [String.length]. by rewrite IH.
Qed.

(** ** Decimal fields *)

Lemma all_digits_app (s t : string) :
  all_digits (s ++ t) = all_digits s && all_digits t.
Proof.
  induction s as [| c s IH]; [done |].
  rewrite append_cons. cbn [all_digits]. by rewrite IH, andb_assoc.
Qed.

Lemma string_of_uint_digits (d : Decimal.uint) :
  all_digits (NilEmpty.string_of_uint d) = true.
Proof. induction d; cbn [NilEmpty.string_of_uint all_digits]; auto. Qed.

Lemma dec_digits (n : nat) : all_digits (Fmt.dec n) = true.
Proof.
  unfold Fmt.dec, NilZero.string_of_uint.
  destruct (Nat.to_uint n); try apply string_of_uint_digits. reflexivity.
Qed.

Lemma dec_nonempty (n : nat) : Fmt.dec n <> ""%string.
Proof.
  unfold Fmt.dec, NilZero.string_of_uint. by destruct (Nat.to_uint n).
Qed.

Lemma zeros_digits (k : nat) : all_digits (Fmt.zeros k) = true.
Proof. induction k; cbn [Fmt.zeros all_digits]; auto. Qed.

Lemma length_zeros (k : nat) : String.length (Fmt.zeros k) = k.
Proof. induction k; cbn [Fmt.zeros String.length]; auto. Qed.

Lemma zfill_digits (w n : nat) : all_digits (Fmt.zfill w n) = true.
Proof.
  unfold Fmt.zfill. by rewrite all_digits_app, zeros_digits, dec_digits.
Qed.

Lemma length_zfill (w n : nat) :
  String.length (Fmt.zfill w n) = Nat.max w (String.length (Fmt.dec n)).
Proof. unfold Fmt.zfill. rewrite length_append, length_zeros. lia. Qed.

Lemma uint_of_string_zeros (k : nat) (s : string) :
  NilEmpty.uint_of_string (Fmt.zeros k ++ s)
  = Nat.iter k Decimal.D0 <$> NilEmpty.uint_of_string s.
Proof.
  induction k as [| k IH]; cbn [Fmt.zeros Nat.iter].
  - change (""%string ++ s)%string with s. by destruct (NilEmpty.uint_of_string s).
  - rewrite append_cons. cbn [NilEmpty.uint_of_string]. rewrite IH.
    by destruct (NilEmpty.uint_of_string s).
Qed.

Lemma of_uint_zeros (k : nat) (u : Decimal.uint) :
  Nat.of_uint (Nat.iter k Decimal.D0 u) = Nat.of_uint u.
Proof. induction k as [| k IH]; [done |]. exact IH. Qed.

Lemma uint_of_string_dec (n : nat) :
  exists u, NilEmpty.uint_of_string (Fmt.dec n) = Some u /\ Nat.of_uint u = n.
Proof.
  unfold Fmt.dec, NilZero.string_of_uint.
  pose proof (DecimalNat.Unsigned.of_to n) as Hn.
  destruct (Nat.to_uint n) as [| d | d | d | d | d | d | d | d | d | d] eqn:E;
    try (eexists; split; [apply NilEmpty.usu | exact Hn]).
  exists (Decimal.D0 Decimal.Nil). split; [reflexivity | exact Hn].
Qed.

(** A zero-padded field reads back as the number it was made from. *)
Lemma undec_zfill (w n : nat) : Fmt.undec (Fmt.zfill w n) = Some n.
Proof.
  unfold Fmt.undec, Fmt.zfill.
  rewrite uint_of_string_zeros.
  destruct (uint_of_string_dec n) as (u & -> & Hu). cbn [fmap option_fmap option_map].
  rewrite of_uint_zeros, Hu.
  destruct (Fmt.zeros (w - String.length (Fmt.dec n)) ++ Fmt.dec n)%string eqn:E; [| done].
  exfalso. apply (f_equal String.length) in E.
  rewrite length_append in E. cbn in E.
  pose proof (dec_nonempty n). destruct (Fmt.dec n); [done | cbn in E; lia].
Qed.

Lemma zfill_inj (w n m : nat) : Fmt.zfill w n = Fmt.zfill w m -> n = m.
Proof.
  intros H. apply (f_equal Fmt.undec) in H. rewrite !undec_zfill in H. congruence.
Qed.

(** ** Draws stay in range *)

Lemma randbelow_lt (n : nat) (g : rng) :
  (0 < n)%nat -> (fst (randbelow n g) < n)%nat.
Proof.
  intros Hn. unfold randbelow, next. simpl.
  assert (words g (cursor g) mod N.of_nat n < N.of_nat n)%N
    by (apply N.mod_lt; lia).
  lia.
Qed.

Lemma randint_range (a b : nat) (g : rng) :
  (a <= b)%nat -> (a <= fst (randint a b g) <= b)%nat.
Proof.
  intros Hab. unfold randint.
  pose proof (randbelow_lt (b - a + 1) g ltac:(lia)) as H.
  destruct (randbelow (b - a + 1) g) as [r g']. simpl in *. lia.
Qed.

Lemma choice_elem {A} (d : A) (l : list A) (g : rng) :
  l <> [] -> fst (choice d l g) ∈ l.
Proof.
  intros Hl. unfold choice.
  pose proof (randbelow_lt (length l) g) as H.
  destruct (randbelow (length l) g) as [r g']. simpl in *.
  apply list_elem_of_In, nth_In, H. destruct l; [done | simpl; lia].
Qed.

(** ** [random.sample] returns items at distinct positions *)

Lemma take_swap_out {A} (pool : list A) (m j : nat) (x y : A) :
  (j < m)%nat -> pool !! j = Some x -> pool !! (m - 1)%nat = Some y ->
  take m pool ≡ₚ x :: take (m - 1) (<[j := y]> pool).
Proof.
  intros Hj Hx Hy.
  replace m with (S (m - 1)) at 1 by lia.
  rewrite (take_S_r _ _ _ Hy).
  destruct (decide (j = m - 1)%nat) as [-> | Hne].
  - rewrite take_insert_ge by lia.
    assert (x = y) by congruence. subst y.
    by rewrite Permutation_app_comm.
  - rewrite take_insert_lt by lia.
    assert (Hl : take (m - 1) pool !! j = Some x)
      by (rewrite lookup_take_lt by lia; done).
    pose proof (lookup_lt_Some _ _ _ Hl) as Hlen.
    rewrite (insert_take_drop _ _ _ Hlen).
    rewrite <- (take_drop_middle _ _ _ Hl) at 1.
    rewrite <- app_assoc. simpl.
    rewrite <- Permutation_middle. constructor.
    apply Permutation_app_head.
    symmetry. apply Permutation_cons_append.
Qed.

Lemma sample_loop_spec {A} (k : nat) : forall (m : nat) (pool : list A) (g : rng),
  (k <= m <= length pool)%nat ->
  exists rest, length (fst (sample_loop k m pool g)) = k
               /\ take m pool ≡ₚ fst (sample_loop k m pool g) ++ rest.
Proof.
  induction k as [| k IH]; intros m pool g Hm; cbn [sample_loop].
  - exists (take m pool). done.
  - pose proof (randbelow_lt m g ltac:(lia)) as Hj.
    destruct (randbelow m g) as [j g1]. simpl in Hj. cbn beta iota.
    destruct (lookup_lt_is_Some_2 pool j ltac:(lia)) as [x Hx].
    destruct (lookup_lt_is_Some_2 pool (m - 1) ltac:(lia)) as [y Hy].
    rewrite Hx, Hy.
    destruct (IH (m - 1)%nat (<[j := y]> pool) g1) as (rest & Hlen & Hperm).
    { rewrite length_insert. lia. }
    destruct (sample_loop k (m - 1) (<[j := y]> pool) g1) as [r g2].
    simpl in *. exists rest. split; [lia |].
    rewrite (take_swap_out pool m j x y Hj Hx Hy). by rewrite Hperm.
Qed.

Lemma sample_spec {A} (population : list A) (k : nat) (g : rng) :
  match fst (sample population k g) with
  | None => (length population < k)%nat
  | Some r => (k <= length population)%nat /\ length r = k
              /\ exists rest, population ≡ₚ r ++ rest
  end.
Proof.
  unfold sample. destruct (Nat.ltb_spec (length population) k) as [Hlt | Hge].
  - done.
  - destruct (sample_loop_spec k (length population) population g ltac:(lia))
      as (rest & Hlen & Hperm).
    destruct (sample_loop k (length population) population g) as [r g'].
    simpl in *. rewrite firstn_all in Hperm. eauto.
Qed.

(** The second loop of CPython's [sample] meets the same contract
    whenever it returns: items at distinct positions. *)
Lemma redraw_fresh (fuel n : nat) (selected : list nat) :
  forall (g : rng) (j : nat) (g' : rng),
    redraw fuel n selected g = Some (j, g') -> j ∉ selected.
Proof.
  induction fuel as [| fuel IH]; intros g j g' H; cbn [redraw] in H; [done |].
  destruct (randbelow n g) as [j0 g0].
  destruct (bool_decide_reflect (j0 ∈ selected)) as [Hin | Hout].
  - by apply IH in H.
  - by injection H as <- <-.
Qed.

Lemma Forall2_lookup_delete {A} (l : list A) (j : nat) (js : list nat) (r : list A) :
  j ∉ js ->
  Forall2 (fun i x => l !! i = Some x) js r ->
  Forall2 (fun i x => delete j l !! i = Some x)
          ((fun i => if decide (i < j)%nat then i else pred i) <$> js) r.
Proof.
  intros Hj Hall. induction Hall as [| i x js r Hx Hall IH]; [constructor |].
  apply not_elem_of_cons in Hj as [Hne Hj].
  cbn [fmap list_fmap]. constructor; [| by apply IH].
  destruct (decide (i < j)%nat) as [Hlt | Hge].
  - by rewrite list_lookup_delete_lt.
  - rewrite list_lookup_delete_ge by lia.
    by replace (S (pred i)) with i by lia.
Qed.

Lemma picks_Permutation {A} (n : nat) :
  forall (js : list nat) (l r : list A),
    length js = n -> NoDup js ->
    Forall2 (fun j x => l !! j = Some x) js r ->
    exists rest, l ≡ₚ r ++ rest.
Proof.
  induction n as [| n IH]; intros js l r Hlen Hnd Hall.
  - destruct js; [| done]. apply Forall2_nil_inv_l in Hall as ->. by exists l.
  - destruct js as [| j js]; [done |].
    apply Forall2_cons_inv_l in Hall as (x & r' & Hx & Hall & ->).
    apply NoDup_cons in Hnd as [Hj Hnd].
    destruct (IH ((fun i => if decide (i < j)%nat then i else pred i) <$> js)
                 (delete j l) r') as [rest Hperm].
    + rewrite length_fmap. cbn in Hlen. lia.
    + apply NoDup_fmap_2_strong; [| done].
      intros a b Ha Hb Hab.
      assert (a <> j) by (intros ->; done). assert (b <> j) by (intros ->; done).
      destruct (decide (a < j)%nat), (decide (b < j)%nat); lia.
    + by apply Forall2_lookup_delete.
    + exists rest. rewrite (delete_Permutation l j x Hx), Hperm. done.
Qed.

Lemma sample_redrawing_picks {A} (fuel k : nat) (population : list A) :
  forall (selected : list nat) (g : rng) (r : list A) (g' : rng),
    sample_redrawing fuel k population selected g = Some (r, g') ->
    exists js, length js = k /\ length r = k /\ NoDup js
               /\ (forall j, j ∈ js -> j ∉ selected)
               /\ Forall2 (fun j x => population !! j = Some x) js r.
Proof.
  induction k as [| k IH]; intros selected g r g' H; cbn [sample_redrawing] in H.
  - injection H as <- <-. exists []. repeat split; try constructor.
    intros j Hin. by apply elem_of_nil in Hin.
  - destruct (redraw fuel (length population) selected g) as [[j g1] |] eqn:Hj; [| done].
    apply redraw_fresh in Hj.
    destruct (population !! j) as [x |] eqn:Hx; [| done].
    destruct (sample_redrawing fuel k population (j :: selected) g1)
      as [[rest g2] |] eqn:Hrest; [| done].
    injection H as <- <-.
    destruct (IH _ _ _ _ Hrest) as (js & Hlen & Hlr & Hnd & Hfresh & Hall).
    exists (j :: js). cbn [length]. repeat split; try lia.
    + apply NoDup_cons. split; [| done].
      intros Hin. apply (Hfresh j Hin), list_elem_of_here.
    + intros i [-> | Hin]%elem_of_cons; [done |].
      intros Hsel. by apply (Hfresh i Hin), list_elem_of_further.
    + by constructor.
Qed.

Lemma sample_redrawing_spec {A} (fuel k : nat) (population r : list A) (g g' : rng) :
  sample_redrawing fuel k population [] g = Some (r, g') ->
  length r = k /\ exists rest, population ≡ₚ r ++ rest.
Proof.
  intros H. apply sample_redrawing_picks in H as (js & Hlen & Hlr & Hnd & _ & Hall).
  split; [done |]. by apply (picks_Permutation k js).
Qed.

(** ** [random.sample] as CPython runs it *)

Lemma randbelow_at (n : nat) (w : nat -> N) (c : nat) :
  randbelow n (mk_rng w c) = (N.to_nat (w c mod N.of_nat n), mk_rng w (S c)).
Proof. reflexivity. Qed.

(** The redrawing ends as soon as the stream holds a new index. *)
Lemma redraw_returns (fuel n : nat) (selected : list nat) (w : nat -> N) :
  forall c,
    (exists j, (j < fuel)%nat
               /\ fst (randbelow n (mk_rng w (c + j))) ∉ selected) ->
    exists i c', redraw fuel n selected (mk_rng w c) = Some (i, mk_rng w c')
                 /\ (c <= c')%nat.
Proof.
  induction fuel as [| fuel IH]; intros c (j & Hj & Hfresh); [lia |].
  cbn [redraw]. rewrite randbelow_at.
  destruct (bool_decide_reflect (N.to_nat (w c mod N.of_nat n) ∈ selected))
    as [Hin | Hout].
  - destruct j as [| j].
    + rewrite Nat.add_0_r, randbelow_at in Hfresh. done.
    + destruct (IH (S c)) as (i & c' & Hr & Hle).
      { exists j. split; [lia |]. by replace (S c + j)%nat with (c + S j)%nat by lia. }
      exists i, c'. split; [done | lia].
  - exists (N.to_nat (w c mod N.of_nat n)), (S c). split; [done | lia].
Qed.

Lemma redraw_lt (fuel n : nat) (selected : list nat) :
  forall (g : rng) (i : nat) (g' : rng),
    (0 < n)%nat -> redraw fuel n selected g = Some (i, g') -> (i < n)%nat.
Proof.
  induction fuel as [| fuel IH]; intros g i g' Hn H; cbn [redraw] in H; [done |].
  pose proof (randbelow_lt n g Hn) as Hlt.
  destruct (randbelow n g) as [j g0]. cbn [fst] in Hlt.
  destruct (bool_decide (j ∈ selected)).
  - by apply IH in H.
  - injection H as <- <-. done.
Qed.

(** Among more different indices than were selected, one is new. *)
Lemma fresh_among (l selected : list nat) :
  NoDup l -> (length selected < length l)%nat -> exists v, v ∈ l /\ v ∉ selected.
Proof.
  intros Hnd Hlen.
  destruct (Forall_Exists_dec (fun v => v ∈ selected) (fun v => v ∉ selected)
              (fun v => decide (v ∈ selected)) l) as [Hall | Hex].
  - rewrite Forall_forall in Hall.
    pose proof (submseteq_length _ _ (NoDup_submseteq _ _ Hnd Hall)). lia.
  - by apply Exists_exists in Hex.
Qed.

(** On a stream that is varied enough, the redrawing loop returns. *)
Lemma sample_redrawing_returns {A} (fuel K : nat) (population : list A)
                               (w : nat -> N) (c0 : nat) :
  (0 < length population)%nat ->
  varied fuel K (length population) (mk_rng w c0) ->
  forall (k : nat) (selected : list nat) (c : nat),
    (c0 <= c)%nat -> (length selected + k <= K)%nat ->
    exists r c',
      sample_redrawing fuel k population selected (mk_rng w c) = Some (r, mk_rng w c').
Proof.
  intros Hpop Hvar. induction k as [| k IH]; intros selected c Hc Hlen.
  - exists [], c. reflexivity.
  - cbn [sample_redrawing].
    destruct (Hvar c Hc) as (l & Hnd & Hl & Hwin). cbn [words] in Hwin.
    destruct (fresh_among l selected Hnd ltac:(lia)) as (v & Hv & Hfresh).
    destruct (Hwin v Hv) as (j & Hj & Hval).
    destruct (redraw_returns fuel (length population) selected w c)
      as (i & c1 & Hr & Hle).
    { exists j. split; [done |]. by rewrite Hval. }
    rewrite Hr.
    pose proof (redraw_lt _ _ _ _ _ _ Hpop Hr) as Hi.
    destruct (lookup_lt_is_Some_2 population i Hi) as [x Hx]. rewrite Hx.
    destruct (IH (i :: selected) c1 ltac:(lia) ltac:(cbn [length]; lia))
      as (r & c' & Hrest).
    rewrite Hrest. eauto.
Qed.

(** When the population is small against [k], CPython's [sample] is
    the selection loop. *)
Lemma sample_cpython_pool {A} (fuel : nat) (population : list A) (k : nat) (g : rng) :
  (length population <= setsize k)%nat ->
  sample_cpython fuel population k g
  = Some (fst (sample population k g), snd (sample population k g)).
Proof.
  intros Hn. unfold sample_cpython, sample.
  destruct (length population <? k)%nat; [done |].
  destruct (Nat.leb_spec (length population) (setsize k)); [| lia].
  by destruct (sample_loop k (length population) population g).
Qed.

(** CPython's [sample] returns [k] items at distinct positions: on
    every stream through the selection loop, and through the
    redrawing loop on a stream that is varied enough. *)
Lemma sample_cpython_spec {A} (fuel : nat) (population : list A) (k : nat) (g : rng) :
  (k <= length population)%nat ->
  ((setsize k < length population)%nat -> varied fuel k (length population) g) ->
  exists r g',
    sample_cpython fuel population k g = Some (Some r, g')
    /\ length r = k /\ exists rest, population ≡ₚ r ++ rest.
Proof.
  intros Hk Hvar.
  destruct (Nat.le_gt_cases (length population) (setsize k)) as [Hsmall | Hlarge].
  - rewrite sample_cpython_pool by done.
    pose proof (sample_spec population k g) as Hs.
    destruct (sample population k g) as [[r |] g']; cbn [fst snd] in *; [| lia].
    destruct Hs as (_ & Hlen & Hperm). by exists r, g'.
  - unfold sample_cpython.
    destruct (Nat.ltb_spec (length population) k); [lia |].
    destruct (Nat.leb_spec (length population) (setsize k)); [lia |].
    destruct g as [w c].
    destruct (sample_redrawing_returns fuel k population w c ltac:(lia)
                (Hvar Hlarge) k [] c ltac:(lia) ltac:(cbn [length]; lia))
      as (r & c' & Hr).
    rewrite Hr. exists r, (mk_rng w c'). split; [done |].
    by apply sample_redrawing_spec in Hr.
Qed.

(** The hypothesis is needed: on the stream of zeros the first index
    drawn is 0, every redraw gives 0 again, and no bound suffices. *)
Lemma redraw_zeros (fuel n c : nat) :
  redraw fuel n [0%nat] (mk_rng (fun _ => 0%N) c) = None.
Proof.
  revert c. induction fuel as [| fuel IH]; intros c; [done |].
  cbn [redraw]. rewrite randbelow_at.
  change (0 mod N.of_nat n)%N with 0%N. cbn. apply IH.
Qed.

Lemma varied_later (fuel k n : nat) (g g' : rng) :
  words g' = words g -> (cursor g <= cursor g')%nat ->
  varied fuel k n g -> varied fuel k n g'.
Proof.
  intros Hw Hc Hvar c Hle. rewrite Hw. apply Hvar. lia.
Qed.

(** ** The line-item sampler *)

Lemma fill_lines_spec (items : catalog) : forall (acc : list line) (g : rng),
  exists new, fst (fill_lines items acc g) = acc ++ new
              /\ Forall2 line_of items new.
Proof.
  induction items as [| [name [unit price]] rest IH]; intros acc g; cbn [fill_lines].
  - exists []. split; [by rewrite app_nil_r | constructor].
  - pose proof (randint_range 1 40 g ltac:(lia)) as Hq.
    destruct (randint 1 40 g) as [qty g']. simpl in Hq.
    destruct (IH (acc ++ [(name, unit, qty, price, Fmt.float_of_nat qty * price)]) g')
      as (new & Heq & Hall).
    exists ((name, unit, qty, price, Fmt.float_of_nat qty * price) :: new).
    split.
    + rewrite Heq, <- app_assoc. done.
    + constructor; [| done]. exists qty. done.
Qed.

Lemma choose_line_items_spec (cat : catalog) (g : rng) :
  let n := fst (randint 5 12 g) in
  match fst (choose_line_items cat g) with
  | None => (length cat < n)%nat
  | Some lines =>
      (n <= length cat)%nat
      /\ exists items rest, cat ≡ₚ items ++ rest /\ length items = n
                            /\ Forall2 line_of items lines
  end.
Proof.
  unfold choose_line_items.
  destruct (randint 5 12 g) as [n g1]. cbn [fst].
  pose proof (sample_spec cat n g1) as Hs.
  destruct (sample cat n g1) as [[items |] g2]; cbn [fst] in *; [| done].
  destruct Hs as (Hle & Hlen & rest & Hperm).
  destruct (fill_lines_spec items [] g2) as (new & Heq & Hall).
  destruct (fill_lines items [] g2) as [lines g3]. cbn [fst] in *.
  subst lines. split; [done |]. exists items, rest. done.
Qed.

Lemma line_of_name (e : string * (string * float)) (l : line) :
  line_of e l -> line_name l = e.1.
Proof. intros (qty & _ & ->). done. Qed.

Lemma Forall2_line_names (items : catalog) (lines : list line) :
  Forall2 line_of items lines -> List.map line_name lines = List.map fst items.
Proof.
  induction 1 as [| e l items lines He _ IH]; [done |].
  simpl. by rewrite (line_of_name e l He), IH.
Qed.

Lemma choose_line_items_ok (cat : catalog) (g : rng) :
  NoDup (List.map fst cat) -> (12 <= length cat)%nat ->
  exists lines, fst (choose_line_items cat g) = Some lines /\ lines_ok cat lines.
Proof.
  intros Hnd Hlen.
  pose proof (choose_line_items_spec cat g) as H. cbn zeta in H.
  pose proof (randint_range 5 12 g ltac:(lia)) as Hn.
  destruct (choose_line_items cat g) as [[lines |] g']; cbn [fst] in *; [| lia].
  destruct H as (_ & items & rest & Hperm & Hitems & Hall).
  exists lines. split; [done |]. repeat split.
  - rewrite <- (Forall2_length _ _ _ Hall). lia.
  - rewrite <- (Forall2_length _ _ _ Hall). lia.
  - rewrite (Forall2_line_names _ _ Hall).
    assert (Hp : List.map fst cat ≡ₚ List.map fst items ++ List.map fst rest)
      by (rewrite <- map_app; by apply Permutation_map).
    rewrite Hp in Hnd. by apply NoDup_app in Hnd as [? _].
  - apply Forall_forall. intros l Hl.
    apply list_elem_of_lookup in Hl as [i Hi].
    destruct (Forall2_lookup_r _ _ _ _ _ Hall Hi) as ([name [unit price]] & Hitem & qty & Hq & ->).
    exists unit, price. cbn. repeat split; try lia.
    rewrite Hperm. apply elem_of_app. left.
    apply list_elem_of_lookup. eauto.
Qed.

(** The lines made from items at distinct positions of the catalog. *)
Lemma lines_of_items (cat items rest : catalog) (lines : list line) :
  NoDup (List.map fst cat) -> cat ≡ₚ items ++ rest ->
  (5 <= length items <= 12)%nat -> Forall2 line_of items lines ->
  lines_ok cat lines.
Proof.
  intros Hnd Hperm Hlen Hall. repeat split.
  - rewrite <- (Forall2_length _ _ _ Hall). lia.
  - rewrite <- (Forall2_length _ _ _ Hall). lia.
  - rewrite (Forall2_line_names _ _ Hall).
    assert (Hp : List.map fst cat ≡ₚ List.map fst items ++ List.map fst rest)
      by (rewrite <- map_app; by apply Permutation_map).
    rewrite Hp in Hnd. by apply NoDup_app in Hnd as [? _].
  - apply Forall_forall. intros l Hl.
    apply list_elem_of_lookup in Hl as [i Hi].
    destruct (Forall2_lookup_r _ _ _ _ _ Hall Hi)
      as ([name [unit price]] & Hitem & qty & Hq & ->).
    exists unit, price. cbn. repeat split; try lia.
    rewrite Hperm. apply elem_of_app. left.
    apply list_elem_of_lookup. eauto.
Qed.

Lemma randint_at (a b : nat) (w : nat -> N) (c : nat) :
  snd (randint a b (mk_rng w c)) = mk_rng w (S c).
Proof. reflexivity. Qed.

(** With CPython's sampler, [choose_line_items] returns on every
    stream when the count drawn sends [sample] through the selection
    loop, and on a varied stream when it goes through the redrawing
    loop. *)
Lemma choose_line_items_cpython_ok (fuel : nat) (cat : catalog) (g : rng) :
  let n := fst (randint 5 12 g) in
  NoDup (List.map fst cat) -> (12 <= length cat)%nat ->
  ((setsize n < length cat)%nat -> varied fuel n (length cat) g) ->
  exists lines g',
    choose_line_items_cpython fuel cat g = Some (Some lines, g')
    /\ length lines = n /\ lines_ok cat lines.
Proof.
  cbn zeta. intros Hnd Hlen Hvar. unfold choose_line_items_cpython.
  pose proof (randint_range 5 12 g ltac:(lia)) as Hn.
  assert (Hg1 : words (snd (randint 5 12 g)) = words g
                /\ (cursor g <= cursor (snd (randint 5 12 g)))%nat).
  { destruct g as [w c]. rewrite randint_at. cbn. split; [done | lia]. }
  destruct (randint 5 12 g) as [n g1]. cbn [fst snd] in *.
  destruct (sample_cpython_spec fuel cat n g1 ltac:(lia))
    as (items & g2 & Hs & Hitems & rest & Hperm).
  { intros Hlarge. destruct Hg1. by apply varied_later with g, Hvar. }
  rewrite Hs.
  destruct (fill_lines_spec items [] g2) as (new & Heq & Hall).
  destruct (fill_lines items [] g2) as [lines g3]. cbn [fst] in Heq.
  rewrite app_nil_l in Heq. subst new.
  exists lines, g3. split; [done |]. split.
  - rewrite <- (Forall2_length _ _ _ Hall). done.
  - apply lines_of_items with items rest; try done. lia.
Qed.

(** When [sample] goes through the selection loop, the sampler of the
    script above is CPython's. *)
Lemma choose_line_items_cpython_pool (fuel : nat) (cat : catalog) (g : rng) :
  (length cat <= setsize (fst (randint 5 12 g)))%nat ->
  choose_line_items_cpython fuel cat g
  = Some (fst (choose_line_items cat g), snd (choose_line_items cat g)).
Proof.
  unfold choose_line_items_cpython, choose_line_items.
  destruct (randint 5 12 g) as [n g1]. cbn [fst]. intros Hn.
  rewrite sample_cpython_pool by done.
  destruct (sample cat n g1) as [[items |] g2]; cbn [fst snd]; [| done].
  by destruct (fill_lines items [] g2).
Qed.

Lemma setsize_6_12 (k : nat) : (6 <= k <= 12)%nat -> setsize k = 85%nat.
Proof.
  intros Hk.
  assert (Hcases : (k = 6 \/ k = 7 \/ k = 8 \/ k = 9 \/ k = 10 \/ k = 11 \/ k = 12)%nat)
    by lia.
  repeat (destruct Hcases as [-> | Hcases]; [reflexivity |]). by subst k.
Qed.

Lemma sample_redrawing_zeros {A} (fuel k c : nat) (population : list A) :
  sample_redrawing fuel (S k) population [0%nat] (mk_rng (fun _ => 0%N) c) = None.
Proof. cbn [sample_redrawing]. by rewrite redraw_zeros. Qed.

(** On the stream of zeros [choose_line_items] draws the count 5, and
    its second item is never found. *)
Lemma redrawing_can_spin (fuel : nat) :
  choose_line_items_cpython fuel PRODUCT_CATALOG zero_rng = None.
Proof.
  unfold choose_line_items_cpython.
  change (randint 5 12 zero_rng) with (5%nat, mk_rng (fun _ : nat => 0%N) 1).
  unfold sample_cpython.
  change (length PRODUCT_CATALOG <? 5)%nat with false.
  change (length PRODUCT_CATALOG <=? setsize 5)%nat with false.
  cbn beta iota zeta. destruct fuel as [| fuel]; [reflexivity |].
  change (sample_redrawing (S fuel) 5 PRODUCT_CATALOG [] ?g)
    with (match redraw (S fuel) (length PRODUCT_CATALOG) [] g with
          | None => None
          | Some (j, g1) =>
              match PRODUCT_CATALOG !! j,
                    sample_redrawing (S fuel) 4 PRODUCT_CATALOG (j :: []) g1 with
              | Some x, Some (rest, g2) => Some (x :: rest, g2)
              | _, _ => None
              end
          end).
  assert (redraw (S fuel) (length PRODUCT_CATALOG) [] (mk_rng (fun _ => 0%N) 1)
          = Some (0%nat, mk_rng (fun _ => 0%N) 2)) as -> by reflexivity.
  rewrite sample_redrawing_zeros. by destruct (PRODUCT_CATALOG !! 0%nat).
Qed.

(** The stream that gives every word twice holds five different
    indices below 40 in any ten consecutive words. *)
Lemma residues_differ (m i j : nat) :
  (i < j < 40)%nat -> ((m + i) mod 40 <> (m + j) mod 40)%nat.
Proof.
  intros Hij.
  pose proof (Nat.div_mod_eq (m + i) 40). pose proof (Nat.div_mod_eq (m + j) 40).
  pose proof (Nat.mod_upper_bound (m + i) 40 ltac:(lia)).
  pose proof (Nat.mod_upper_bound (m + j) 40 ltac:(lia)).
  generalize dependent ((m + i) mod 40)%nat. generalize dependent ((m + j) mod 40)%nat.
  generalize ((m + i) / 40)%nat ((m + j) / 40)%nat. intros. lia.
Qed.

Lemma twice_varied : varied 10 5 40 TWICE_RNG.
Proof.
  intros c _. cbn [words TWICE_RNG].
  exists ((fun i => ((c / 2 + i) mod 40)%nat) <$> [0; 1; 2; 3; 4]%nat).
  split; [| split].
  - cbn [fmap list_fmap].
    repeat (apply NoDup_cons; split;
            [rewrite ?not_elem_of_cons; repeat split;
             try apply not_elem_of_nil; apply residues_differ; lia |]).
    apply NoDup_nil_2.
  - reflexivity.
  - intros v Hv. apply list_elem_of_fmap in Hv as (i & -> & Hi).
    exists (2 * i)%nat.
    assert (Hi4 : (i <= 4)%nat).
    { repeat (apply elem_of_cons in Hi as [-> | Hi]; [lia |]). by apply elem_of_nil in Hi. }
    split; [lia |]. rewrite randbelow_at. cbn [fst].
    change 40%N with (N.of_nat 40). rewrite <- Nat2N.inj_mod, Nat2N.id.
    f_equal. replace (c + 2 * i)%nat with (c + i * 2)%nat by lia.
    by rewrite Nat.div_add.
Qed.

(** On that stream the two loops of [sample] pick different items
    from the same words: the selection loop refills the drawn slot
    with the last live item, the redrawing loop draws again. *)
Example loops_differ :
  List.map line_name (default [] (fst (choose_line_items PRODUCT_CATALOG TWICE_RNG)))
  = ["Stainless Steel Chef Knife 8in"; "Paring Knife 3.5in"; "Grill Brush";
     "Silver Fork"; "Heat-Resistant Spatula"]%string.
Proof. vm_compute. reflexivity. Qed.

(** ** One pass of the main loop, flattened *)

Arguments make_restaurant_name : simpl never.
Arguments make_address : simpl never.
Arguments randint : simpl never.
Arguments choice : simpl never.
Arguments choose_line_items : simpl never.
Arguments strftime_Ymd : simpl never.

Lemma gen_invoice_eq clock cat base i (w : world) :
  gen_invoice clock cat base i w =
  match pass_draws cat (w_rng w) with
  | (Some d, g') =>
      (Ok (assemble (clock (w_ticks w)) base i d),
       mk_world g' (S (w_ticks w)) (w_files w))
  | (None, g') => (Raise SAMPLE_ERROR, mk_world g' (S (w_ticks w)) (w_files w))
  end.
Proof.
  unfold gen_invoice, pass_draws, random_invoice_number, now, draw.
  unfold mbind, M_bind, bind, mret, M_ret, ret, raise. cbn [w_rng w_ticks w_files].
  destruct (make_restaurant_name (w_rng w)) as [name g1]. cbn.
  destruct (make_address g1) as [[a1 a2] g2]. cbn.
  destruct (randint 0 25 g2) as [k g3]. cbn.
  destruct (choice 0%nat DUE_DAYS g3) as [c g4]. cbn.
  destruct (choose_line_items cat g4) as [[ls |] g5]; cbn; [| done].
  destruct (choice nan TAX_RATES g5) as [rate g6]. done.
Qed.

Lemma loop_body_eq clock doc_build cat base i (w : world) :
  loop_body clock doc_build cat base i w =
  match pass_draws cat (w_rng w) with
  | (Some d, g') =>
      let inv := assemble (clock (w_ticks w)) base i d in
      (Ok (manifest_row inv),
       mk_world g' (S (w_ticks w))
                (<[pdf_name inv := Bytes (doc_build (story_of inv))]> (w_files w)))
  | (None, g') => (Raise SAMPLE_ERROR, mk_world g' (S (w_ticks w)) (w_files w))
  end.
Proof.
  unfold loop_body. unfold mbind at 1, M_bind, bind.
  rewrite gen_invoice_eq.
  destruct (pass_draws cat (w_rng w)) as [[d |] g']; done.
Qed.

Lemma main_loop_eq clock doc_build cat base (indices : list nat) :
  forall (rows : list (list string)) (w : world) (ds : list draws) (g' : rng),
  loop_draws cat (length indices) (w_rng w) = (Some ds, g') ->
  let invs := assemble_all clock base (w_ticks w) indices ds in
  main_loop clock doc_build cat base indices rows w =
  (Ok (rows ++ List.map manifest_row invs),
   mk_world g' (w_ticks w + length indices)
            (write_pdfs doc_build invs (w_files w))).
Proof.
  induction indices as [| i rest IH]; intros rows w ds g' Hd; cbn [length loop_draws] in Hd.
  - injection Hd as <- <-. cbn. rewrite app_nil_r, Nat.add_0_r.
    by destruct w.
  - cbn [main_loop]. unfold mbind, M_bind, bind. rewrite loop_body_eq.
    destruct (pass_draws cat (w_rng w)) as [[d |] g1]; [| done].
    destruct (loop_draws cat (length rest) g1) as [[ds' |] g2] eqn:Hrest; [| done].
    injection Hd as <- <-. cbn beta iota zeta.
    rewrite (IH _ _ ds' g2) by done.
    cbn [w_ticks w_files w_rng assemble_all List.map length write_pdfs fold_left].
    rewrite <- app_assoc. f_equal. f_equal. lia.
Qed.

Lemma pass_draws_fails_iff (cat : catalog) (g : rng) :
  exists g4, fst (pass_draws cat g) = None <-> fst (choose_line_items cat g4) = None.
Proof.
  unfold pass_draws.
  destruct (make_restaurant_name g) as [name g1].
  destruct (make_address g1) as [[a1 a2] g2].
  destruct (randint 0 25 g2) as [k g3].
  destruct (choice 0%nat DUE_DAYS g3) as [c g4].
  exists g4.
  destruct (choose_line_items cat g4) as [[ls |] g5]; [| done].
  destruct (choice nan TAX_RATES g5) as [rate g6]. done.
Qed.

Lemma pass_draws_ok (cat : catalog) (g : rng) :
  NoDup (List.map fst cat) -> (12 <= length cat)%nat ->
  exists d, fst (pass_draws cat g) = Some d /\ draws_ok cat d.
Proof.
  intros Hnd Hlen. unfold pass_draws.
  destruct (make_restaurant_name g) as [name g1].
  destruct (make_address g1) as [[a1 a2] g2].
  pose proof (randint_range 0 25 g2 ltac:(lia)) as Hk.
  destruct (randint 0 25 g2) as [k g3].
  pose proof (choice_elem 0%nat DUE_DAYS g3 ltac:(done)) as Hc.
  destruct (choice 0%nat DUE_DAYS g3) as [c g4].
  destruct (choose_line_items_ok cat g4 Hnd Hlen) as (ls & Hls & Hok).
  destruct (choose_line_items cat g4) as [[ls' |] g5]; cbn [fst] in *; [| done].
  injection Hls as ->.
  pose proof (choice_elem nan TAX_RATES g5 ltac:(done)) as Hr.
  destruct (choice nan TAX_RATES g5) as [rate g6].
  eexists. split; [done |]. repeat split; cbn in *; try done; try lia; apply Hok.
Qed.

Lemma loop_draws_ok (cat : catalog) (n : nat) :
  NoDup (List.map fst cat) -> (12 <= length cat)%nat ->
  forall g, exists ds, fst (loop_draws cat n g) = Some ds
                       /\ length ds = n /\ Forall (draws_ok cat) ds.
Proof.
  intros Hnd Hlen. induction n as [| n IH]; intros g; cbn [loop_draws].
  - exists []. done.
  - destruct (pass_draws_ok cat g Hnd Hlen) as (d & Hd & Hok).
    destruct (pass_draws cat g) as [[d' |] g1]; cbn [fst] in Hd; [| done].
    injection Hd as ->.
    destruct (IH g1) as (ds & Hds & Hl & Hall).
    destruct (loop_draws cat n g1) as [[ds' |] g2]; cbn [fst] in Hds; [| done].
    injection Hds as ->.
    exists (d :: ds). cbn. repeat split; [lia | by constructor].
Qed.

(** ** The whole run, flattened *)

Lemma main_eq mt clock doc_build (n : nat) (cat : catalog) (w : world) ds g' :
  loop_draws cat n (mk_rng (mt 42%Z) 0) = (Some ds, g') ->
  main mt clock doc_build n cat w =
  (Ok tt, mk_world g' (S (w_ticks w) + n)
            (final_files doc_build cat (run_invoices mt clock n cat (w_ticks w))
                         (w_files w))).
Proof.
  intros Hd. unfold main, run_invoices. rewrite Hd. cbn [fst].
  unfold mbind, M_bind, bind, seed, write_file, now, zip_pdfs.
  cbn [w_rng w_ticks w_files].
  erewrite main_loop_eq; cycle 1.
  { cbn [w_rng]. rewrite length_seq. exact Hd. }
  cbn [w_rng w_ticks w_files]. rewrite length_seq. done.
Qed.

Lemma main_ok mt clock doc_build (n : nat) (cat : catalog) (w : world) :
  NoDup (List.map fst cat) -> (12 <= length cat)%nat ->
  exists g',
    main mt clock doc_build n cat w =
    (Ok tt, mk_world g' (S (w_ticks w) + n)
              (final_files doc_build cat (run_invoices mt clock n cat (w_ticks w))
                           (w_files w))).
Proof.
  intros Hnd Hlen.
  destruct (loop_draws_ok cat n Hnd Hlen (mk_rng (mt 42%Z) 0)) as (ds & Hds & _).
  destruct (loop_draws cat n (mk_rng (mt 42%Z) 0)) as [o g'] eqn:E.
  cbn [fst] in Hds. subst o. exists g'. by apply main_eq with ds.
Qed.

Lemma PRODUCT_CATALOG_NoDup : NoDup (List.map fst PRODUCT_CATALOG).
Proof. refine (bool_decide_unpack _ _). vm_compute. exact I. Qed.

Lemma PRODUCT_CATALOG_length : (12 <= length PRODUCT_CATALOG)%nat.
Proof. cbn. lia. Qed.

(** * The claims *)

(** ** C2: the line-item sampler *)

(** Every catalog price times every quantity of 1..40, as the float
    product the code computes, shows at two decimals the exact decimal
    product: the amounts are accurate to the cent. *)
Lemma amounts_cents_exact :
  forallb (fun e : string * (string * float) => forallb (cents_exact e.2.2) (seq 1 40))
          PRODUCT_CATALOG = true.
Proof. vm_compute. reflexivity. Qed.

Lemma amount_cents (e : string * (string * float)) (q : nat) :
  e ∈ PRODUCT_CATALOG -> (1 <= q <= 40)%nat ->
  exists c, Fmt.cents e.2.2 = Some (false, c)
            /\ Fmt.cents (Fmt.float_of_nat q * e.2.2) = Some (false, (Z.of_nat q * c)%Z).
Proof.
  intros He Hq. pose proof amounts_cents_exact as Hall.
  rewrite forallb_forall in Hall.
  specialize (Hall e (proj1 (list_elem_of_In _ _) He)). cbn beta in Hall.
  rewrite forallb_forall in Hall.
  specialize (Hall q ltac:(apply in_seq; lia)). unfold cents_exact in Hall.
  destruct (Fmt.cents e.2.2) as [[[] c] |]; try done.
  destruct (Fmt.cents (Fmt.float_of_nat q * e.2.2)) as [[[] a] |]; try done.
  apply Z.eqb_eq in Hall. subst a. by exists c.
Qed.

(** C2. [choose_line_items] on the program's catalog, with
    [random.sample] as CPython runs it, returns as many lines as the
    count it draws, between 5 and 12, with pairwise distinct product
    names, each line the name, unit and price of a catalog entry with
    a quantity in 1..40, and as amount the float product of quantity
    and price, which at two decimals is the exact decimal product of
    the quantity and the price: no cent is lost. For a count of 6..12
    [sample] runs its selection loop and this holds on every stream
    (the sampler of the script's model is then CPython's); for the
    count 5 it runs the redrawing loop, which returns once the stream
    holds a new index, here within [fuel] draws. *)
Theorem line_items_sampled (fuel : nat) (g : rng) :
  (fst (randint 5 12 g) = 5%nat -> varied fuel 5 (length PRODUCT_CATALOG) g) ->
  exists lines g',
    choose_line_items_cpython fuel PRODUCT_CATALOG g = Some (Some lines, g')
    /\ length lines = fst (randint 5 12 g)
    /\ (5 <= length lines <= 12)%nat
    /\ NoDup (List.map line_name lines)
    /\ Forall (fun l : line =>
         exists unit price c,
           (line_name l, (unit, price)) ∈ PRODUCT_CATALOG
           /\ line_unit l = unit
           /\ (1 <= line_qty l <= 40)%nat
           /\ line_price l = price
           /\ line_amount l = Fmt.float_of_nat (line_qty l) * price
           /\ Fmt.cents price = Some (false, c)
           /\ Fmt.cents (line_amount l)
              = Some (false, (Z.of_nat (line_qty l) * c)%Z)) lines
    /\ ((6 <= fst (randint 5 12 g))%nat ->
        choose_line_items PRODUCT_CATALOG g = (Some lines, g')).
Proof.
  intros Hvar.
  pose proof (randint_range 5 12 g ltac:(lia)) as Hn.
  destruct (choose_line_items_cpython_ok fuel PRODUCT_CATALOG g
              PRODUCT_CATALOG_NoDup PRODUCT_CATALOG_length)
    as (lines & g' & Hrun & Hlen & Hl5 & Hnd & Hall).
  { intros Hlarge. cbn zeta in *.
    destruct (decide (fst (randint 5 12 g) = 5%nat)) as [E | E].
    - rewrite E. by apply Hvar.
    - rewrite setsize_6_12 in Hlarge by lia. cbn in Hlarge. lia. }
  exists lines, g'. split; [done |]. split; [done |]. split; [done |].
  split; [done |]. split.
  - eapply Forall_impl; [exact Hall |]. cbn beta.
    intros l (unit & price & Hin & Hu & Hq & Hp & Ha).
    destruct (amount_cents _ (line_qty l) Hin Hq) as (c & Hc & Hac).
    cbn [fst snd] in Hc, Hac. exists unit, price, c. by rewrite Ha.
  - intros H6. rewrite choose_line_items_cpython_pool in Hrun
      by (rewrite setsize_6_12 by lia; cbn; lia).
    injection Hrun as H1 H2.
    by destruct (choose_line_items PRODUCT_CATALOG g) as [o g0]; cbn [fst snd] in *; subst.
Qed.

Lemma line_items_sampled_witness :
  fst (randint 5 12 TWICE_RNG) = 5%nat
  /\ varied 10 5 (length PRODUCT_CATALOG) TWICE_RNG
  /\ exists lines g',
       choose_line_items_cpython 10 PRODUCT_CATALOG TWICE_RNG = Some (Some lines, g')
       /\ List.map line_name lines
          = ["Stainless Steel Chef Knife 8in"; "Paring Knife 3.5in"; "Silver Fork";
             "Dinner Spoon"; "Soup Ladle"]%string
       /\ List.map line_qty lines = [5; 6; 6; 7; 7]%nat
       /\ cursor g' = 14%nat.
Proof.
  split; [reflexivity |]. split; [exact twice_varied |].
  destruct (line_items_sampled 10 TWICE_RNG (fun _ => twice_varied))
    as (lines & g' & Hrun & _).
  exists lines, g'. split; [exact Hrun |].
  vm_compute in Hrun. injection Hrun as <- <-. repeat split.
Defined.

(** ** C6: a catalog that is too small *)

(** C6 as stated fails: a catalog of 11 entries is sampled without
    error when the drawn count is 5. *)
Lemma small_catalog_sampled :
  length CATALOG_11 = 11%nat
  /\ fst (randint 5 12 zero_rng) = 5%nat
  /\ List.map line_name
       (default [] (fst (choose_line_items CATALOG_11 zero_rng)))
     = ["Stainless Steel Chef Knife 8in"; "Stainless Stock Pot 12qt";
        "Stainless Sauce Pan 2qt"; "Cast Iron Skillet 12in";
        "Nonstick Fry Pan 10in"]%string
  /\ fst (choose_line_items CATALOG_11 zero_rng) <> None.
Proof.
  split; [reflexivity |]. split; [reflexivity |]. split; [vm_compute; reflexivity |].
  intros H. apply (f_equal (fun o : option (list line) => bool_decide (is_Some o))) in H.
  vm_compute in H. discriminate.
Qed.

(** C6, amended. The sampler draws a count [n] in 5..12 and fails
    exactly when the catalog has fewer than [n] entries: always below 5
    entries, never from 12 entries on. A failing pass raises the
    [ValueError] of [random.sample] out of the main loop: the loop
    stops there, no later pass is run and the pass writes no file. *)
Theorem sampling_fails_iff (cat : catalog) (g : rng) :
  let n := fst (randint 5 12 g) in
  (5 <= n <= 12)%nat
  /\ (fst (choose_line_items cat g) = None <-> (length cat < n)%nat)
  /\ ((length cat < 5)%nat -> fst (choose_line_items cat g) = None)
  /\ ((12 <= length cat)%nat -> fst (choose_line_items cat g) <> None)
  /\ forall clock doc_build base i rest rows (w : world),
       fst (pass_draws cat (w_rng w)) = None ->
       exists g',
         main_loop clock doc_build cat base (i :: rest) rows w
         = (Raise SAMPLE_ERROR, mk_world g' (S (w_ticks w)) (w_files w)).
Proof.
  cbn zeta.
  pose proof (randint_range 5 12 g ltac:(lia)) as Hn.
  pose proof (choose_line_items_spec cat g) as Hs. cbn zeta in Hs.
  assert (Hiff : fst (choose_line_items cat g) = None
                 <-> (length cat < fst (randint 5 12 g))%nat).
  { destruct (choose_line_items cat g) as [[ls |] g']; cbn [fst] in *.
    - split; [done | lia].
    - done. }
  split; [done |]. split; [done |]. split; [| split].
  - intros Hlt. apply Hiff. lia.
  - intros Hge Hnone. apply Hiff in Hnone. lia.
  - intros clock doc_build base i rest rows w Hnone.
    cbn [main_loop]. unfold mbind, M_bind, bind. rewrite loop_body_eq.
    destruct (pass_draws cat (w_rng w)) as [[d |] g']; cbn [fst] in Hnone; [done |].
    by exists g'.
Qed.

(** The amended claim at an empty catalog: the first pass fails. *)
Lemma sampling_fails_iff_witness :
  fst (choose_line_items [] zero_rng) = None
  /\ fst (main_loop (fun _ => mk_dt 739925 0) (fun _ => ""%string) [] (mk_dt 739895 0)
                    [1%nat; 2%nat] [] (mk_world zero_rng 0 ∅))
     = Raise SAMPLE_ERROR.
Proof.
  pose proof (sampling_fails_iff [] zero_rng) as (_ & _ & Hfail & _ & Hloop).
  split; [apply Hfail; cbn; lia |].
  destruct (Hloop (fun _ => mk_dt 739925 0) (fun _ => ""%string) (mk_dt 739895 0)
                  1%nat [2%nat] [] (mk_world zero_rng 0 ∅)) as [g' ->];
    [vm_compute; reflexivity | reflexivity].
Defined.

(** ** C7: the import guard *)

(** C7. When importing [reportlab] raises (with any text [e]), the
    script ends at once with a [RuntimeError] whose message names the
    package and says how to install it, and the world is unchanged:
    no file is written, no random number drawn, no clock read. *)
Theorem import_guard mt clock doc_build (e : string) (n : nat) (cat : catalog)
                     (w : world) :
  script mt clock doc_build (Some e) n cat w
  = (Raise (RuntimeError (IMPORT_MESSAGE e)), w)
  /\ mentions "the 'reportlab' package" (IMPORT_MESSAGE e)
  /\ mentions "pip install reportlab" (IMPORT_MESSAGE e)
  /\ mentions e (IMPORT_MESSAGE e).
Proof.
  split; [reflexivity |]. unfold mentions, IMPORT_MESSAGE. split; [| split].
  - exists "This environment needs "%string.
    eexists. cbn. reflexivity.
  - eexists "This environment needs the 'reportlab' package to generate PDFs. Please install it (e.g., `"%string.
    eexists. cbn. reflexivity.
  - exists ("This environment needs the 'reportlab' package to generate PDFs. "
            ++ "Please install it (e.g., `pip install reportlab`) and rerun. "
            ++ "Import error: ")%string, ""%string.
    rewrite append_nil_r. reflexivity.
Qed.

(** ** C10: the totals in the PDF and in the manifest *)

Lemma unsep_app (s t : string) : unsep (s ++ t) = (unsep s ++ unsep t)%string.
Proof.
  induction s as [| c s IH]; [done |].
  rewrite append_cons. cbn [unsep]. rewrite IH. by destruct (Ascii.eqb c ",").
Qed.

Lemma is_digit_not_comma (c : ascii) : is_digit c = true -> Ascii.eqb c "," = false.
Proof.
  intros H. destruct (Ascii.eqb_spec c ","%char) as [-> | _]; [| done].
  vm_compute in H. discriminate.
Qed.

Lemma unsep_digits (s : string) : all_digits s = true -> unsep s = s.
Proof.
  induction s as [| c s IH]; [done |]. cbn [all_digits unsep].
  intros [Hc Hs]%andb_true_iff. by rewrite (is_digit_not_comma c Hc), IH.
Qed.

Lemma all_digits_list (s : string) :
  all_digits s = forallb is_digit (list_ascii_of_string s).
Proof. induction s as [| c s IH]; [done |]. cbn. by rewrite IH. Qed.

Lemma unsep_group3 (l : list ascii) :
  forallb is_digit l = true ->
  unsep (string_of_list_ascii (Fmt.group3 l)) = string_of_list_ascii l.
Proof.
  induction l as [| c l IH]; [done |]. cbn [forallb Fmt.group3].
  intros [Hc Hl]%andb_true_iff.
  destruct ((0 <? length l)%nat && (length l mod 3 =? 0)%nat);
    cbn [string_of_list_ascii unsep];
    rewrite (is_digit_not_comma c Hc); [rewrite Ascii.eqb_refl |];
    by rewrite IH.
Qed.

(** [currency] prints what the manifest prints, after a dollar sign
    and with commas between the thousands. *)
Lemma currency_shows_f2 (x : float) :
  exists body, currency x = String "$" body /\ unsep body = Fmt.f2 x.
Proof.
  exists (Fmt.f2_grouped x). split; [reflexivity |].
  unfold Fmt.f2_grouped, Fmt.f2.
  destruct (Fmt.cents x) as [[s c] |].
  - rewrite !unsep_app. f_equal; [by destruct s |]. f_equal.
    + rewrite unsep_group3, string_of_list_ascii_of_string; [done |].
      by rewrite <- all_digits_list, dec_digits.
    + f_equal. apply unsep_digits, zfill_digits.
  - unfold Fmt.nonfinite. by destruct (Prim2SF x) as [| [] | |].
Qed.

Lemma totals_agree (ls : list line) (rate : float) :
  draw_invoice_totals ls rate = main_totals ls rate.
Proof.
  unfold draw_invoice_totals, main_totals.
  assert (E : List.map (fun l : line => let '(_, _, _, _, a) := l in a) ls
              = List.map (fun l : line => let '(_, a) := l in a) ls)
    by (apply map_ext; by intros [[[[? ?] ?] ?] ?]).
  by rewrite E.
Qed.

(** C10. Every pass of the main loop over the program's catalog
    completes; the PDF it writes is laid out from a story whose totals
    block shows [currency] of three floats (subtotal, tax, grand
    total), and the manifest row it returns records the [.2f] form of
    the same three floats: [draw_invoice] and the main loop compute
    them by the same formulas from the same lines and tax rate. Each
    PDF string is the manifest string behind a dollar sign, with
    commas between the thousands. *)
Theorem pdf_totals_match_manifest clock doc_build base (i : nat) (w : world) :
  exists inv row w' s t g,
    loop_body clock doc_build PRODUCT_CATALOG base i w = (Ok row, w')
    /\ row = manifest_row inv
    /\ w_files w' !! pdf_name inv = Some (Bytes (doc_build (story_of inv)))
    /\ draw_invoice_totals (lines inv) (tax_rate inv) = (s, t, g)
    /\ main_totals (lines inv) (tax_rate inv) = (s, t, g)
    /\ List.map snd (st_totals (story_of inv)) = [currency s; currency t; currency g]
    /\ drop 6 row = [Fmt.f2 s; Fmt.f2 t; Fmt.f2 g]
    /\ Forall2 (fun pdf csv => exists body, pdf = String "$" body /\ unsep body = csv)
               (List.map snd (st_totals (story_of inv))) (drop 6 row).
Proof.
  rewrite loop_body_eq.
  destruct (pass_draws_ok PRODUCT_CATALOG (w_rng w)
              PRODUCT_CATALOG_NoDup PRODUCT_CATALOG_length) as (d & Hd & _).
  destruct (pass_draws PRODUCT_CATALOG (w_rng w)) as [o g']. cbn [fst] in Hd. subst o.
  set (inv := assemble (clock (w_ticks w)) base i d).
  destruct (main_totals (lines inv) (tax_rate inv)) as [[s t] g] eqn:Hmain.
  assert (Hstory : List.map snd (st_totals (story_of inv))
                   = [currency s; currency t; currency g]).
  { unfold story_of, invoice_story. rewrite totals_agree, Hmain. reflexivity. }
  assert (Hrow : drop 6 (manifest_row inv) = [Fmt.f2 s; Fmt.f2 t; Fmt.f2 g]).
  { unfold manifest_row. rewrite Hmain. reflexivity. }
  exists inv, (manifest_row inv). eexists. exists s, t, g.
  split; [reflexivity |]. split; [reflexivity |].
  split; [cbn [w_files]; apply lookup_insert_eq |].
  split; [by rewrite totals_agree |]. split; [done |].
  split; [done |]. split; [done |].
  rewrite Hstory, Hrow.
  repeat constructor; apply currency_shows_f2.
Qed.

(** ** Facts about every invoice of a run *)

Lemma assemble_all_Forall clock base (cat : catalog) (P : invoice -> Prop) :
  (forall t i d, draws_ok cat d -> P (assemble t base i d)) ->
  forall indices ds t,
    Forall (draws_ok cat) ds -> Forall P (assemble_all clock base t indices ds).
Proof.
  intros HP indices. induction indices as [| i rest IH]; intros ds t Hds; [constructor |].
  destruct Hds as [| d ds Hd Hds]; cbn [assemble_all]; constructor; auto.
Qed.

Lemma length_assemble_all clock base : forall indices ds t,
  length indices = length ds ->
  length (assemble_all clock base t indices ds) = length ds.
Proof.
  induction indices as [| i rest IH]; intros [| d ds] t Hlen; cbn in *; try done.
  rewrite IH; lia.
Qed.

(** A run over the program's catalog completes, and its outputs are
    those of [final_files] for the invoices of [run_invoices]. *)
Lemma run_completes mt clock doc_build (n : nat) (w : world) :
  exists g',
    script mt clock doc_build None n PRODUCT_CATALOG w =
    (Ok tt, mk_world g' (S (w_ticks w) + n)
              (final_files doc_build PRODUCT_CATALOG
                 (run_invoices mt clock n PRODUCT_CATALOG (w_ticks w)) (w_files w))).
Proof.
  apply main_ok; [apply PRODUCT_CATALOG_NoDup | apply PRODUCT_CATALOG_length].
Qed.

Lemma run_invoices_eq mt clock (n t0 : nat) :
  exists ds,
    length ds = n /\ Forall (draws_ok PRODUCT_CATALOG) ds
    /\ run_invoices mt clock n PRODUCT_CATALOG t0
       = assemble_all clock (add_days (clock t0) (-30)) (S t0) (seq 1 n) ds.
Proof.
  unfold run_invoices.
  destruct (loop_draws_ok PRODUCT_CATALOG n PRODUCT_CATALOG_NoDup
              PRODUCT_CATALOG_length (mk_rng (mt 42%Z) 0)) as (ds & -> & Hlen & Hall).
  by exists ds.
Qed.

Lemma run_invoices_Forall mt clock (n t0 : nat) (P : invoice -> Prop) :
  (forall t i d, draws_ok PRODUCT_CATALOG d ->
                 P (assemble t (add_days (clock t0) (-30)) i d)) ->
  Forall P (run_invoices mt clock n PRODUCT_CATALOG t0).
Proof.
  intros HP. destruct (run_invoices_eq mt clock n t0) as (ds & _ & Hall & ->).
  by apply assemble_all_Forall with PRODUCT_CATALOG.
Qed.

Lemma length_run_invoices mt clock (n t0 : nat) :
  length (run_invoices mt clock n PRODUCT_CATALOG t0) = n.
Proof.
  destruct (run_invoices_eq mt clock n t0) as (ds & Hlen & _ & ->).
  rewrite length_assemble_all; [done | by rewrite length_seq].
Qed.

(** ** C8: issue and due dates *)

(** C8. A run completes, and for each of its invoices the issue date
    is the base date (the clock reading taken before the loop, minus
    30 days) plus an offset of 0..25 days, so that it lies from 30 to
    5 days before that reading, and the due date is the issue date
    plus 7, 14, 21 or 30 days. (That the offset is uniform is a
    property of the generator's words, which are a parameter here.) *)
Theorem issue_and_due_dates mt clock doc_build (n : nat) (w : world) :
  let today := clock (w_ticks w) in
  let invs := run_invoices mt clock n PRODUCT_CATALOG (w_ticks w) in
  (exists g',
     script mt clock doc_build None n PRODUCT_CATALOG w =
     (Ok tt, mk_world g' (S (w_ticks w) + n)
               (final_files doc_build PRODUCT_CATALOG invs (w_files w))))
  /\ length invs = n
  /\ Forall (fun inv =>
       exists k c : nat,
         (k <= 25)%nat /\ c ∈ [7; 14; 21; 30]%nat
         /\ issued inv = add_days (add_days today (-30)) (Z.of_nat k)
         /\ due inv = add_days (issued inv) (Z.of_nat c)
         /\ (ordinal today - 30 <= ordinal (issued inv) <= ordinal today - 5)%Z
         /\ (ordinal (due inv) = ordinal (issued inv) + Z.of_nat c)%Z) invs.
Proof.
  cbn zeta. split; [apply run_completes |]. split; [apply length_run_invoices |].
  apply run_invoices_Forall. intros t i d (Hk & Hc & _ & _).
  exists (d_offset d), (d_term d). cbn. repeat split; try done; lia.
Qed.

(** ** C1: tax and grand total *)

(** C1 as stated fails. On a subtotal of 248.24 at 6.25 % the code's
    tax is the float next to 15.515, which is not a two-decimal value;
    and the strings do not add up either: the manifest shows 248.24,
    15.52 and 263.75. *)
Lemma tax_not_rounded :
  exists inv,
    fst (gen_invoice EXAMPLE_CLOCK PRODUCT_CATALOG (mk_dt 739895 0) 1
           (mk_world (mk_rng EXAMPLE_WORDS 0) 0 ∅)) = Ok inv
    /\ List.map line_name (lines inv)
       = ["Stainless Steel Chef Knife 8in"; "Paring Knife 3.5in"; "Silver Fork";
          "Dinner Spoon"; "Soup Ladle"]%string
    /\ List.map line_qty (lines inv) = [1; 1; 1; 1; 17]%nat
    /\ tax_rate inv = 0.0625
    /\ main_totals (lines inv) (tax_rate inv)
       = (248.24000000000001, 15.515000000000001, 263.755)
    /\ round2 (248.24000000000001 * 0.0625) = 15.52
    /\ PrimFloat.eqb 15.515000000000001 15.52 = false
    /\ ~ tax_rounded inv
    /\ drop 6 (manifest_row inv) = ["248.24"; "15.52"; "263.75"]%string.
Proof.
  eexists. split; [vm_compute; reflexivity |].
  split; [reflexivity |]. split; [reflexivity |]. split; [reflexivity |].
  split; [vm_compute; reflexivity |]. split; [vm_compute; reflexivity |].
  split; [reflexivity |]. split; [| vm_compute; reflexivity].
  unfold tax_rounded.
  replace (main_totals _ _) with (248.24000000000001, 15.515000000000001, 263.755)
    by (vm_compute; reflexivity).
  intros [H _].
  apply (f_equal (fun x => PrimFloat.eqb x 15.515000000000001)) in H.
  vm_compute in H. discriminate.
Qed.

(** The hundredths that [.2f] prints are the nearest to the exact
    value [m * 2^e] of the float: off by at most half a hundredth. *)
Lemma div_pow2_half_even_nearest (n k : Z) :
  (0 <= k)%Z ->
  (2 * Z.abs (Fmt.div_pow2_half_even n k * 2 ^ k - n) <= 2 ^ k)%Z.
Proof.
  intros Hk. unfold Fmt.div_pow2_half_even.
  assert (Hd : (0 < 2 ^ k)%Z) by (apply Z.pow_pos_nonneg; lia).
  pose proof (Z.div_mod n (2 ^ k) ltac:(lia)) as Hn.
  pose proof (Z.mod_pos_bound n (2 ^ k) Hd) as Hr.
  set (d := (2 ^ k)%Z) in *. set (q := (n / d)%Z) in *. set (r := (n mod d)%Z) in *.
  destruct (Z.ltb_spec (2 * r) d); [lia |].
  destruct (Z.ltb_spec d (2 * r)); [lia |].
  destruct (Z.even q); lia.
Qed.

Lemma cents_nearest (x : float) (s : bool) (m : positive) (e : Z) :
  Prim2SF x = S754_finite s m e ->
  exists c, Fmt.cents x = Some (s, c)
            /\ if (0 <=? e)%Z then c = (Zpos m * 100 * 2 ^ e)%Z
               else (2 * Z.abs (c * 2 ^ (- e) - Zpos m * 100) <= 2 ^ (- e))%Z.
Proof.
  intros Hx. unfold Fmt.cents. rewrite Hx. eexists. split; [reflexivity |].
  destruct (Z.leb_spec 0 e); [reflexivity |].
  apply div_pow2_half_even_nearest. lia.
Qed.

(** C1, amended. A run completes, and for each of its invoices the
    tax rate is one of the seven, the tax is the float product of
    subtotal and rate with no rounding, and the grand total is the
    float sum of subtotal and tax, in [draw_invoice] and in the main
    loop alike; two decimals appear only in the strings: the manifest
    columns are the [.2f] forms of these unrounded values. *)
Theorem tax_is_unrounded_product mt clock doc_build (n : nat) (w : world) :
  let invs := run_invoices mt clock n PRODUCT_CATALOG (w_ticks w) in
  (exists g',
     script mt clock doc_build None n PRODUCT_CATALOG w =
     (Ok tt, mk_world g' (S (w_ticks w) + n)
               (final_files doc_build PRODUCT_CATALOG invs (w_files w))))
  /\ Forall (fun inv =>
       tax_rate inv ∈ TAX_RATES
       /\ let s := py_sum (List.map line_amount (lines inv)) in
          let t := s * tax_rate inv in
          let g := s + t in
          main_totals (lines inv) (tax_rate inv) = (s, t, g)
          /\ draw_invoice_totals (lines inv) (tax_rate inv) = (s, t, g)
          /\ drop 6 (manifest_row inv) = [Fmt.f2 s; Fmt.f2 t; Fmt.f2 g]) invs.
Proof.
  cbn zeta. split; [apply run_completes |].
  apply run_invoices_Forall. intros t i d (_ & _ & _ & Hr).
  split; [exact Hr |].
  assert (E : main_totals (lines (assemble t (add_days (clock (w_ticks w)) (-30)) i d))
                          (tax_rate (assemble t (add_days (clock (w_ticks w)) (-30)) i d))
              = (py_sum (List.map line_amount (d_lines d)),
                 py_sum (List.map line_amount (d_lines d)) * d_rate d,
                 py_sum (List.map line_amount (d_lines d))
                 + py_sum (List.map line_amount (d_lines d)) * d_rate d)).
  { unfold main_totals. cbn [lines tax_rate assemble].
    replace (List.map (fun l : line => let '(_, a) := l in a) (d_lines d))
      with (List.map line_amount (d_lines d))
      by (apply map_ext; by intros [[[[? ?] ?] ?] ?]).
    reflexivity. }
  split; [exact E |]. split; [by rewrite totals_agree |].
  unfold manifest_row. rewrite E. reflexivity.
Qed.

(** ** C5: invoice numbers *)

Lemma has_dash_app (s t : string) : has_dash (s ++ t) = has_dash s || has_dash t.
Proof.
  induction s as [| c s IH]; [done |].
  rewrite append_cons. cbn [has_dash]. by rewrite IH, orb_assoc.
Qed.

Lemma digits_no_dash (s : string) : all_digits s = true -> has_dash s = false.
Proof.
  induction s as [| c s IH]; [done |]. cbn [all_digits has_dash].
  intros [Hc Hs]%andb_true_iff. rewrite (IH Hs), orb_false_r.
  destruct (Ascii.eqb_spec c "-"%char) as [-> | _]; [| done].
  vm_compute in Hc. discriminate.
Qed.

Lemma after_last_dash_app (pre t : string) :
  has_dash t = false -> after_last_dash (pre ++ String "-" t) = t.
Proof.
  intros Ht. induction pre as [| c pre IH].
  - change (""%string ++ String "-" t)%string with (String "-" t).
    cbn [after_last_dash]. by rewrite Ht.
  - rewrite append_cons. cbn [after_last_dash].
    rewrite has_dash_app. cbn [has_dash]. rewrite orb_true_r. exact IH.
Qed.

(** The sequence number can be read back from an invoice number. *)
Lemma invoice_number_seq (t : datetime) (i : nat) :
  Fmt.undec (after_last_dash (invoice_number t i)) = Some i.
Proof.
  unfold invoice_number.
  change ("INV-" ++ strftime_Ymd t ++ "-" ++ Fmt.zfill 3 i)%string
    with ("INV-" ++ strftime_Ymd t ++ String "-" (Fmt.zfill 3 i))%string.
  rewrite <- append_assoc, after_last_dash_app by apply digits_no_dash, zfill_digits.
  apply undec_zfill.
Qed.

Lemma invoice_number_inj (t t' : datetime) (i j : nat) :
  invoice_number t i = invoice_number t' j -> i = j.
Proof.
  intros H. apply (f_equal (fun s => Fmt.undec (after_last_dash s))) in H.
  rewrite !invoice_number_seq in H. congruence.
Qed.

Lemma append_inj_r (s s' t : string) : (s ++ t = s' ++ t)%string -> s = s'.
Proof.
  revert s'. induction s as [| c s IH]; intros [| c' s'] H; [done | | |].
  - apply (f_equal String.length) in H. rewrite !length_append in H.
    cbn [String.length] in H. lia.
  - apply (f_equal String.length) in H. rewrite !length_append in H.
    cbn [String.length] in H. lia.
  - rewrite !append_cons in H. injection H as -> H. f_equal. by apply IH.
Qed.

Lemma substring_app_r (s t : string) (m : nat) :
  String.substring (String.length s) m (s ++ t) = String.substring 0 m t.
Proof. induction s as [| c s IH]; [done |]. rewrite append_cons. exact IH. Qed.

Lemma is_pdf_append (s : string) : is_pdf (s ++ ".pdf") = true.
Proof.
  unfold is_pdf. rewrite length_append. cbn [String.length].
  replace (String.length s + 4 - 4)%nat with (String.length s) by lia.
  rewrite substring_app_r.
  apply andb_true_iff. split; [apply Nat.leb_le; lia | reflexivity].
Qed.

(** C5 as stated fails: the pass with index 1000 gets a number with a
    four-digit sequence field. *)
Lemma invoice_number_1000 :
  fst (random_invoice_number EXAMPLE_CLOCK 1000 (mk_world zero_rng 0 ∅))
  = Ok "INV-20261105-1000"%string
  /\ ~ is_invoice_number "INV-20261105-1000".
Proof.
  split; [vm_compute; reflexivity |].
  intros (date & seqn & H & Hd & _ & Hs & _).
  apply (f_equal String.length) in H.
  rewrite !length_append, Hd, Hs in H. vm_compute in H. discriminate.
Qed.

Lemma month_day_bounds (leap : bool) (n : Z) :
  (0 <= n < 365)%Z ->
  (1 <= (month_day leap n).1 <= 12)%Z /\ (1 <= (month_day leap n).2 <= 31)%Z.
Proof.
  intros Hn.
  assert (Hall : forallb (month_day_ok leap) (seq 0 365) = true)
    by (destruct leap; vm_compute; reflexivity).
  rewrite forallb_forall in Hall.
  specialize (Hall (Z.to_nat n)).
  unfold month_day_ok in Hall. rewrite Z2Nat.id in Hall by lia.
  destruct (month_day leap n) as [m d]. cbn [fst snd].
  assert (Hin : In (Z.to_nat n) (seq 0 365)) by (apply in_seq; lia).
  apply Hall in Hin. lia.
Qed.

Lemma ord2ymd_bounds (ord : Z) :
  let '(y, m, d) := ord2ymd ord in (1 <= m <= 12)%Z /\ (1 <= d <= 31)%Z.
Proof.
  unfold ord2ymd.
  destruct ((_ =? 4)%Z || (_ =? 4)%Z); [lia |].
  match goal with |- context [month_day ?l ?n] =>
    pose proof (month_day_bounds l n ltac:(apply Z.mod_pos_bound; lia)) as H;
    destruct (month_day l n) as [m d]
  end.
  exact H.
Qed.

Lemma ord2ymd_year (ord : Z) :
  (364878 <= ord <= 3652059)%Z ->
  let '(y, _, _) := ord2ymd ord in (1000 <= y <= 9999)%Z.
Proof.
  intros Hord. unfold ord2ymd, DI400Y, DI100Y, DI4Y.
  set (n0 := (ord - 1)%Z).
  set (n400 := (n0 / 146097)%Z). set (r400 := (n0 mod 146097)%Z).
  set (n100 := (r400 / 36524)%Z). set (r100 := (r400 mod 36524)%Z).
  set (n4 := (r100 / 1461)%Z). set (r4 := (r100 mod 1461)%Z).
  set (n1 := (r4 / 365)%Z). set (r1 := (r4 mod 365)%Z).
  assert (Hy : (1000 <= n400 * 400 + 1 + n100 * 100 + n4 * 4 + n1 <= 9999)%Z
               /\ ((n1 = 4 \/ n100 = 4)%Z
                   -> (1001 <= n400 * 400 + 1 + n100 * 100 + n4 * 4 + n1)%Z)).
  { subst n1 r1 n4 r4 n100 r100 n400 r400 n0. Z.div_mod_to_equations. lia. }
  destruct Hy as [Hy Hy'].
  destruct ((n1 =? 4)%Z || (n100 =? 4)%Z) eqn:E.
  - apply orb_true_iff in E. rewrite !Z.eqb_eq in E. specialize (Hy' E). lia.
  - destruct (month_day _ r1). lia.
Qed.

Lemma zfill_width (w bound n : nat) :
  forallb (width_ok w) (seq 0 bound) = true ->
  (n < bound)%nat -> String.length (Fmt.zfill w n) = w.
Proof.
  intros Hall Hn. rewrite forallb_forall in Hall.
  apply Nat.eqb_eq, Hall, in_seq. lia.
Qed.

Lemma zfill2_width (n : nat) : (n < 100)%nat -> String.length (Fmt.zfill 2 n) = 2%nat.
Proof. apply zfill_width. vm_compute. reflexivity. Qed.

Lemma zfill3_width (n : nat) : (n < 1000)%nat -> String.length (Fmt.zfill 3 n) = 3%nat.
Proof. apply zfill_width. vm_compute. reflexivity. Qed.

Lemma zfill4_width (n : nat) :
  (Z.of_nat n < 10000)%Z -> String.length (Fmt.zfill 4 n) = 4%nat.
Proof.
  intros Hn. apply zfill_width with (Z.to_nat 10000); [vm_compute; reflexivity | lia].
Qed.

(** [%Y%m%d] of a date with a four-digit year is eight digits. *)
Lemma strftime_Ymd_shape (t : datetime) :
  (364878 <= ordinal t <= 3652059)%Z ->
  String.length (strftime_Ymd t) = 8%nat /\ all_digits (strftime_Ymd t) = true.
Proof.
  intros Ht. unfold strftime_Ymd.
  pose proof (ord2ymd_bounds (ordinal t)) as Hb.
  pose proof (ord2ymd_year (ordinal t) Ht) as Hy.
  destruct (ord2ymd (ordinal t)) as [[y m] d]. destruct Hb as [Hm Hd].
  assert (Hy4 : (Z.of_nat (Z.to_nat y) < 10000)%Z) by lia.
  assert (Hm2 : (Z.to_nat m < 100)%nat) by lia.
  assert (Hd2 : (Z.to_nat d < 100)%nat) by lia.
  split.
  - rewrite !length_append, zfill4_width, !zfill2_width by done. reflexivity.
  - rewrite !all_digits_app, !zfill_digits. reflexivity.
Qed.

Lemma invoice_number_shape (t : datetime) (i : nat) :
  (i <= 999)%nat -> (364878 <= ordinal t <= 3652059)%Z ->
  is_invoice_number (invoice_number t i).
Proof.
  intros Hi Ht. destruct (strftime_Ymd_shape t Ht) as [Hl Hd].
  exists (strftime_Ymd t), (Fmt.zfill 3 i).
  split; [reflexivity |]. split; [done |]. split; [done |].
  split; [apply zfill3_width; lia | apply zfill_digits].
Qed.

Lemma assemble_all_lookup clock base : forall indices ds t j inv,
  assemble_all clock base t indices ds !! j = Some inv ->
  exists i d, indices !! j = Some i /\ ds !! j = Some d
              /\ inv = assemble (clock (t + j)%nat) base i d.
Proof.
  induction indices as [| i rest IH]; intros [| d ds] t j inv H; cbn in H; try done.
  destruct j as [| j]; cbn in H.
  - injection H as <-. exists i, d. by rewrite Nat.add_0_r.
  - destruct (IH ds (S t) j inv H) as (i' & d' & Hi & Hd & ->).
    exists i', d'. repeat split; try done. do 2 f_equal. lia.
Qed.

Lemma run_invoices_lookup mt clock (n t0 j : nat) (inv : invoice) :
  run_invoices mt clock n PRODUCT_CATALOG t0 !! j = Some inv ->
  exists d, draws_ok PRODUCT_CATALOG d
            /\ inv = assemble (clock (S t0 + j)%nat) (add_days (clock t0) (-30)) (S j) d.
Proof.
  destruct (run_invoices_eq mt clock n t0) as (ds & _ & Hall & ->). intros H.
  apply assemble_all_lookup in H as (i & d & Hi & Hd & ->).
  apply lookup_seq in Hi as [-> _].
  exists d. split; [| done].
  rewrite Forall_lookup in Hall. by apply Hall with j.
Qed.

Lemma run_invoice_numbers_NoDup mt clock (n t0 : nat) :
  NoDup (List.map invoice_no (run_invoices mt clock n PRODUCT_CATALOG t0)).
Proof.
  apply NoDup_alt. intros j1 j2 s H1 H2.
  change (List.map invoice_no ?l) with (invoice_no <$> l) in H1, H2.
  rewrite list_lookup_fmap in H1, H2.
  destruct (run_invoices mt clock n PRODUCT_CATALOG t0 !! j1) as [inv1 |] eqn:E1; [| done].
  destruct (run_invoices mt clock n PRODUCT_CATALOG t0 !! j2) as [inv2 |] eqn:E2; [| done].
  apply run_invoices_lookup in E1 as (d1 & _ & ->).
  apply run_invoices_lookup in E2 as (d2 & _ & ->).
  assert (H : invoice_number (clock (S t0 + j1)%nat) (S j1)
              = invoice_number (clock (S t0 + j2)%nat) (S j2)).
  { apply (inj Some). etrans; [exact H1 | symmetry; exact H2]. }
  apply invoice_number_inj in H. lia.
Qed.

Lemma run_pdf_names_NoDup mt clock (n t0 : nat) :
  NoDup (List.map pdf_name (run_invoices mt clock n PRODUCT_CATALOG t0)).
Proof.
  pose proof (run_invoice_numbers_NoDup mt clock n t0) as H.
  assert (E : List.map pdf_name (run_invoices mt clock n PRODUCT_CATALOG t0)
              = (fun s => s ++ ".pdf")%string
                <$> (List.map invoice_no (run_invoices mt clock n PRODUCT_CATALOG t0))).
  { change (List.map invoice_no ?l) with (invoice_no <$> l).
    rewrite <- list_fmap_compose. reflexivity. }
  rewrite E. apply NoDup_fmap_2; [| exact H].
  intros s s' Hs. by apply append_inj_r in Hs.
Qed.

(** C5, amended. A run completes; its [j]-th pass (from 0) numbers
    its invoice INV-, the date of that pass's clock reading as
    [%Y%m%d], a dash, and [j + 1] in decimal, zero-padded to at least
    three digits: the field reads back as [j + 1], and it has exactly
    three digits up to 999, when the whole number has the shape
    INV-YYYYMMDD-NNN (for a four-digit year). The numbers of a run are
    pairwise distinct, whatever the clock does, and so are the PDF
    file names. *)
Theorem invoice_numbers mt clock doc_build (n : nat) (w : world) :
  let invs := run_invoices mt clock n PRODUCT_CATALOG (w_ticks w) in
  (exists g',
     script mt clock doc_build None n PRODUCT_CATALOG w =
     (Ok tt, mk_world g' (S (w_ticks w) + n)
               (final_files doc_build PRODUCT_CATALOG invs (w_files w))))
  /\ length invs = n
  /\ (forall (j : nat) (inv : invoice),
        invs !! j = Some inv ->
        let t := clock (S (w_ticks w) + j)%nat in
        invoice_no inv = ("INV-" ++ strftime_Ymd t ++ "-" ++ Fmt.zfill 3 (S j))%string
        /\ (forall w0 : world,
              w_ticks w0 = (S (w_ticks w) + j)%nat ->
              fst (random_invoice_number clock (S j) w0) = Ok (invoice_no inv))
        /\ Fmt.undec (after_last_dash (invoice_no inv)) = Some (S j)
        /\ (3 <= String.length (Fmt.zfill 3 (S j)))%nat
        /\ all_digits (Fmt.zfill 3 (S j)) = true
        /\ ((S j <= 999)%nat -> (364878 <= ordinal t <= 3652059)%Z ->
            is_invoice_number (invoice_no inv)))
  /\ NoDup (List.map invoice_no invs)
  /\ NoDup (List.map pdf_name invs).
Proof.
  cbn zeta. split; [apply run_completes |]. split; [apply length_run_invoices |].
  split; [| split; [apply run_invoice_numbers_NoDup | apply run_pdf_names_NoDup]].
  intros j inv Hj. apply run_invoices_lookup in Hj as (d & _ & ->).
  cbn [invoice_no assemble].
  split; [reflexivity |].
  split; [intros w0 Hw0; rewrite <- Hw0; reflexivity |].
  split; [apply invoice_number_seq |].
  split; [rewrite length_zfill; lia |]. split; [apply zfill_digits |].
  intros Hi Ht. by apply invoice_number_shape.
Qed.

(** The amended claim at a run of two invoices on 2026-11-05. *)
Lemma invoice_numbers_witness :
  List.map invoice_no
    (run_invoices (fun _ => EXAMPLE_WORDS) EXAMPLE_CLOCK 2 PRODUCT_CATALOG 0)
  = ["INV-20261105-001"; "INV-20261105-002"]%string
  /\ is_invoice_number "INV-20261105-002".
Proof.
  split; [vm_compute; reflexivity |].
  pose proof (invoice_numbers (fun _ => EXAMPLE_WORDS) EXAMPLE_CLOCK (fun _ => ""%string)
                2 (mk_world zero_rng 0 ∅)) as (_ & _ & H & _).
  destruct (run_invoices (fun _ => EXAMPLE_WORDS) EXAMPLE_CLOCK 2 PRODUCT_CATALOG 0 !! 1%nat)
    as [inv |] eqn:E; [| vm_compute in E; discriminate].
  destruct (H 1%nat inv E) as (Hno & _ & _ & _ & _ & Hshape).
  assert (Hinv : invoice_no inv = "INV-20261105-002"%string)
    by (rewrite Hno; vm_compute; reflexivity).
  rewrite <- Hinv. apply Hshape; [lia | vm_compute; split; discriminate].
Defined.

(** ** The output folder after a run *)

Lemma is_pdf_pdf_name (inv : invoice) : is_pdf (pdf_name inv) = true.
Proof. apply is_pdf_append. Qed.

Lemma write_pdfs_lookup_other doc_build (invs : list invoice) :
  forall (files : gmap string file) (k : string),
    k ∉ List.map pdf_name invs ->
    write_pdfs doc_build invs files !! k = files !! k.
Proof.
  induction invs as [| inv rest IH]; intros files k Hk; [done |].
  cbn [write_pdfs fold_left]. cbn [List.map] in Hk.
  apply not_elem_of_cons in Hk as [Hne Hk].
  change (fold_left ?f rest ?a) with (write_pdfs doc_build rest a).
  rewrite IH by done. by rewrite lookup_insert_ne.
Qed.

Lemma write_pdfs_lookup_not_pdf doc_build (invs : list invoice)
                                (files : gmap string file) (k : string) :
  is_pdf k = false -> write_pdfs doc_build invs files !! k = files !! k.
Proof.
  intros Hk. apply write_pdfs_lookup_other.
  intros Hin. change (List.map pdf_name invs) with (pdf_name <$> invs) in Hin.
  apply list_elem_of_fmap in Hin as (inv & -> & _).
  rewrite is_pdf_pdf_name in Hk. discriminate.
Qed.

Lemma write_pdfs_lookup_in doc_build (invs : list invoice) :
  forall (files : gmap string file) (inv : invoice),
    NoDup (List.map pdf_name invs) -> inv ∈ invs ->
    write_pdfs doc_build invs files !! pdf_name inv
    = Some (Bytes (doc_build (story_of inv))).
Proof.
  induction invs as [| inv0 rest IH]; intros files inv Hnd Hin.
  - by apply elem_of_nil in Hin.
  - cbn [List.map] in Hnd. apply NoDup_cons in Hnd as [Hfresh Hnd].
    cbn [write_pdfs fold_left].
    change (fold_left ?f rest ?a) with (write_pdfs doc_build rest a).
    destruct (decide (pdf_name inv = pdf_name inv0)) as [Heq | Hne].
    + rewrite Heq, write_pdfs_lookup_other, lookup_insert_eq by done.
      apply elem_of_cons in Hin as [-> | Hin]; [done |].
      exfalso. apply Hfresh. rewrite <- Heq.
      change (List.map pdf_name rest) with (pdf_name <$> rest).
      apply list_elem_of_fmap. eauto.
    + apply elem_of_cons in Hin as [-> | Hin]; [done |]. by apply IH.
Qed.

Lemma glob_pdf_elem (files : gmap string file) (k : string) (f : file) :
  (k, f) ∈ glob_pdf files <-> is_pdf k = true /\ files !! k = Some f.
Proof.
  unfold glob_pdf. rewrite list_elem_of_In, filter_In, <- list_elem_of_In.
  rewrite elem_of_map_to_list. cbn [fst]. tauto.
Qed.

Lemma glob_pdf_NoDup (files : gmap string file) :
  NoDup (List.map fst (glob_pdf files)).
Proof.
  unfold glob_pdf.
  pose proof (NoDup_fst_map_to_list files) as H.
  change ((map_to_list files).*1) with (List.map fst (map_to_list files)) in H.
  induction (map_to_list files) as [| [k f] l IH]; [constructor |].
  cbn [List.map] in H. apply NoDup_cons in H as [Hk Hl].
  cbn [List.filter fst]. destruct (is_pdf k); [| by apply IH].
  cbn [List.map fst]. apply NoDup_cons. split; [| by apply IH].
  intros Hin. apply Hk.
  change (List.map fst ?x) with (fst <$> x) in Hin |- *.
  apply list_elem_of_fmap in Hin as ([k' f'] & -> & Hin).
  apply list_elem_of_fmap. exists (k', f'). split; [done |].
  apply list_elem_of_In, filter_In in Hin as [Hin _]. by apply list_elem_of_In.
Qed.

Lemma final_files_manifest doc_build cat invs (files : gmap string file) :
  final_files doc_build cat invs files !! MANIFEST_CSV = Some (manifest_file invs).
Proof.
  unfold final_files. rewrite lookup_insert_ne by done. apply lookup_insert_eq.
Qed.

Lemma final_files_catalog doc_build cat invs (files : gmap string file) :
  final_files doc_build cat invs files !! CATALOG_CSV = Some (catalog_file cat).
Proof.
  unfold final_files. rewrite !lookup_insert_ne by done.
  rewrite write_pdfs_lookup_not_pdf by reflexivity. apply lookup_insert_eq.
Qed.

Lemma write_pdfs_lookup doc_build (invs : list invoice) (files : gmap string file)
                        (k : string) (f : file) :
  NoDup (List.map pdf_name invs) ->
  write_pdfs doc_build invs files !! k = Some f <->
  (exists inv, inv ∈ invs /\ k = pdf_name inv /\ f = Bytes (doc_build (story_of inv)))
  \/ ((k ∉ List.map pdf_name invs) /\ files !! k = Some f).
Proof.
  intros Hnd. destruct (decide (k ∈ List.map pdf_name invs)) as [Hin | Hout].
  - change (List.map pdf_name invs) with (pdf_name <$> invs) in Hin.
    pose proof Hin as Hin'.
    apply list_elem_of_fmap in Hin as (inv & -> & Hin).
    rewrite (write_pdfs_lookup_in doc_build invs files inv Hnd Hin).
    split.
    + intros [= <-]. left. by exists inv.
    + intros [(inv' & Hin2 & Heq & ->) | [Hout _]]; [| done].
      rewrite <- (write_pdfs_lookup_in doc_build invs files inv' Hnd Hin2).
      rewrite <- Heq.
      by rewrite (write_pdfs_lookup_in doc_build invs files inv Hnd Hin).
  - rewrite write_pdfs_lookup_other by done. split.
    + intros Hf. by right.
    + intros [(inv & Hin & -> & _) | [_ Hf]]; [| done].
      exfalso. apply Hout.
      change (List.map pdf_name invs) with (pdf_name <$> invs).
      apply list_elem_of_fmap. eauto.
Qed.

(** The archive of a completed run: every file of the folder whose
    name ends in [.pdf], that is the PDFs of the run and the PDFs that
    were there before it. *)
Lemma final_files_zip doc_build cat invs (files : gmap string file) :
  NoDup (List.map pdf_name invs) ->
  exists members,
    final_files doc_build cat invs files !! ZIP_PATH = Some (Archive members)
    /\ NoDup (List.map fst members)
    /\ forall k f,
         (k, f) ∈ members <->
         (exists inv, inv ∈ invs /\ k = pdf_name inv
                      /\ f = Bytes (doc_build (story_of inv)))
         \/ (is_pdf k = true /\ (k ∉ List.map pdf_name invs) /\ files !! k = Some f).
Proof.
  intros Hnd. unfold final_files. eexists. split; [apply lookup_insert_eq |].
  split; [apply glob_pdf_NoDup |].
  intros k f. rewrite glob_pdf_elem.
  destruct (is_pdf k) eqn:Hk.
  - rewrite lookup_insert_ne by (intros <-; discriminate).
    rewrite write_pdfs_lookup by done.
    rewrite lookup_insert_ne by (intros <-; discriminate). tauto.
  - split; [intros [? _]; discriminate |].
    intros [(inv & _ & -> & _) | [? _]]; [| discriminate].
    rewrite is_pdf_pdf_name in Hk. discriminate.
Qed.

(** ** C3: manifest rows and archive members *)

(** C3 as stated fails: a run of one invoice in a folder that holds a
    PDF of the day before writes a manifest of one row and an archive
    of two documents. *)
Lemma archive_keeps_old_pdfs :
  let w' := snd (script (fun _ => EXAMPLE_WORDS) EXAMPLE_CLOCK (fun _ => "pdf"%string)
                        None 1 PRODUCT_CATALOG STALE_WORLD) in
  List.map (hd ""%string)
    (List.map manifest_row
       (run_invoices (fun _ => EXAMPLE_WORDS) EXAMPLE_CLOCK 1 PRODUCT_CATALOG 0))
  = ["INV-20261105-001"%string]
  /\ manifest_of w'
     = Some (manifest_file
               (run_invoices (fun _ => EXAMPLE_WORDS) EXAMPLE_CLOCK 1 PRODUCT_CATALOG 0))
  /\ length (archive_names w') = 2%nat
  /\ YESTERDAY_PDF ∈ archive_names w'
  /\ "INV-20261105-001.pdf"%string ∈ archive_names w'.
Proof.
  cbn zeta. split; [vm_compute; reflexivity |]. split; [vm_compute; reflexivity |].
  assert (E : archive_names
                (snd (script (fun _ => EXAMPLE_WORDS) EXAMPLE_CLOCK (fun _ => "pdf"%string)
                             None 1 PRODUCT_CATALOG STALE_WORLD))
              = ["INV-20261105-001.pdf"%string; YESTERDAY_PDF])
    by (vm_compute; reflexivity).
  rewrite E. split; [reflexivity |].
  split; [apply list_elem_of_further, list_elem_of_here | apply list_elem_of_here].
Qed.

Lemma manifest_first_column (invs : list invoice) :
  List.map (hd ""%string) (List.map manifest_row invs) = List.map invoice_no invs.
Proof.
  rewrite map_map. apply map_ext. intros inv. unfold manifest_row.
  by destruct (main_totals (lines inv) (tax_rate inv)) as [[? ?] ?].
Qed.

(** C3, amended. A run requesting [n] documents completes; the
    manifest has the header and [n] rows whose first column is the
    invoice numbers of the run; the archive has no two members of the
    same name, and its members are exactly the [n] PDFs of the run
    (named after the manifest's invoice numbers, with the bytes the
    layout engine built) together with every other file of the folder
    whose name ends in [.pdf]. In a folder that held no [.pdf] file
    before the run, the member names are exactly the [n] names of the
    manifest. *)
Theorem manifest_and_archive mt clock doc_build (n : nat) (w : world) :
  let invs := run_invoices mt clock n PRODUCT_CATALOG (w_ticks w) in
  let rows := List.map manifest_row invs in
  exists g' files' members,
    script mt clock doc_build None n PRODUCT_CATALOG w
    = (Ok tt, mk_world g' (S (w_ticks w) + n) files')
    /\ files' !! MANIFEST_CSV = Some (Bytes (Csv.writerows (MANIFEST_HEADER :: rows)))
    /\ length rows = n
    /\ List.map (hd ""%string) rows = List.map invoice_no invs
    /\ NoDup (List.map invoice_no invs)
    /\ files' !! ZIP_PATH = Some (Archive members)
    /\ NoDup (List.map fst members)
    /\ (forall k f,
          (k, f) ∈ members <->
          (exists inv, inv ∈ invs /\ k = (invoice_no inv ++ ".pdf")%string
                       /\ f = Bytes (doc_build (story_of inv)))
          \/ (is_pdf k = true /\ (k ∉ List.map pdf_name invs) /\ w_files w !! k = Some f))
    /\ ((forall k, is_pdf k = true -> w_files w !! k = None) ->
        List.map fst members ≡ₚ List.map (fun no => (no ++ ".pdf")%string)
                                         (List.map invoice_no invs)
        /\ length members = n).
Proof.
  cbn zeta.
  destruct (run_completes mt clock doc_build n w) as [g' Hrun].
  set (invs := run_invoices mt clock n PRODUCT_CATALOG (w_ticks w)) in *.
  pose proof (run_pdf_names_NoDup mt clock n (w_ticks w)) as Hnd. fold invs in Hnd.
  destruct (final_files_zip doc_build PRODUCT_CATALOG invs (w_files w) Hnd)
    as (members & Hzip & Hmnd & Hmem).
  exists g', (final_files doc_build PRODUCT_CATALOG invs (w_files w)), members.
  split; [exact Hrun |]. split; [apply final_files_manifest |].
  split; [rewrite length_map; apply length_run_invoices |].
  split; [apply manifest_first_column |].
  split; [apply run_invoice_numbers_NoDup |].
  split; [exact Hzip |]. split; [exact Hmnd |]. split; [exact Hmem |].
  intros Hclean.
  assert (Hperm : List.map fst members ≡ₚ List.map pdf_name invs).
  { apply NoDup_Permutation; [done | done |]. intros k.
    change (List.map fst members) with (fst <$> members).
    change (List.map pdf_name invs) with (pdf_name <$> invs).
    rewrite !list_elem_of_fmap. split.
    - intros ([k' f] & -> & Hin). apply Hmem in Hin as [(inv & Hin & -> & _) | (Hk & _ & Hf)].
      + by exists inv.
      + rewrite (Hclean _ Hk) in Hf. discriminate.
    - intros (inv & -> & Hin). exists (pdf_name inv, Bytes (doc_build (story_of inv))).
      split; [done |]. apply Hmem. left. by exists inv. }
  split.
  - rewrite Hperm, map_map. done.
  - rewrite <- (length_map fst members), Hperm, length_map.
    apply length_run_invoices.
Qed.

(** The amended claim at a run of two invoices in an empty folder. *)
Lemma manifest_and_archive_witness :
  (forall k, is_pdf k = true -> (∅ : gmap string file) !! k = None)
  /\ archive_names
       (snd (script (fun _ => EXAMPLE_WORDS) EXAMPLE_CLOCK (fun _ => "pdf"%string)
                    None 2 PRODUCT_CATALOG (mk_world zero_rng 0 ∅)))
     ≡ₚ ["INV-20261105-001.pdf"; "INV-20261105-002.pdf"]%string.
Proof.
  split; [intros k _; apply lookup_empty |].
  destruct (manifest_and_archive (fun _ => EXAMPLE_WORDS) EXAMPLE_CLOCK
              (fun _ => "pdf"%string) 2 (mk_world zero_rng 0 ∅))
    as (g' & files' & members & Hrun & _ & _ & _ & _ & Hzip & _ & _ & Hclean).
  unfold archive_names. rewrite Hrun. cbn [snd w_files]. rewrite Hzip.
  destruct Hclean as [Hperm _]; [intros k _; apply lookup_empty |].
  rewrite Hperm. vm_compute. reflexivity.
Defined.

(** ** C9: a run of no documents *)

(** C9 as stated fails: with no document requested, the archive of a
    folder that holds an earlier PDF has that PDF as entry. *)
Lemma empty_run_archives_old_pdfs :
  archive_names
    (snd (script (fun _ => EXAMPLE_WORDS) EXAMPLE_CLOCK (fun _ => "pdf"%string)
                 None 0 PRODUCT_CATALOG STALE_WORLD))
  = [YESTERDAY_PDF].
Proof. vm_compute. reflexivity. Qed.

(** C9, amended. A run requesting no document completes after one
    clock reading; the manifest is its header row alone; the catalog
    export has its header and one row per catalog entry; the archive
    holds the files of the folder whose name ends in [.pdf], and is
    empty when there is none. *)
Theorem empty_run mt clock doc_build (w : world) :
  exists g' files' members,
    script mt clock doc_build None 0 PRODUCT_CATALOG w
    = (Ok tt, mk_world g' (S (w_ticks w)) files')
    /\ files' !! MANIFEST_CSV = Some (Bytes (Csv.writerow MANIFEST_HEADER))
    /\ files' !! CATALOG_CSV
       = Some (Bytes (Csv.writerows
                        (["Product"; "Unit"; "PriceUSD"]%string
                         :: List.map (fun e : string * (string * float) =>
                                        [e.1; e.2.1; Fmt.f2 e.2.2]) PRODUCT_CATALOG)))
    /\ length (catalog_rows PRODUCT_CATALOG) = S (length PRODUCT_CATALOG)
    /\ files' !! ZIP_PATH = Some (Archive members)
    /\ NoDup (List.map fst members)
    /\ (forall k f, (k, f) ∈ members <-> is_pdf k = true /\ w_files w !! k = Some f)
    /\ ((forall k, is_pdf k = true -> w_files w !! k = None) -> members = []).
Proof.
  destruct (run_completes mt clock doc_build 0 w) as [g' Hrun].
  assert (Hinvs : run_invoices mt clock 0 PRODUCT_CATALOG (w_ticks w) = [])
    by reflexivity.
  rewrite Hinvs in Hrun.
  destruct (final_files_zip doc_build PRODUCT_CATALOG [] (w_files w))
    as (members & Hzip & Hmnd & Hmem); [constructor |].
  exists g', (final_files doc_build PRODUCT_CATALOG [] (w_files w)), members.
  split; [rewrite Hrun; do 2 f_equal; lia |].
  split; [rewrite final_files_manifest; reflexivity |].
  split; [rewrite final_files_catalog; reflexivity |].
  split; [reflexivity |]. split; [exact Hzip |]. split; [exact Hmnd |].
  assert (Hmem' : forall k f, (k, f) ∈ members
                              <-> is_pdf k = true /\ w_files w !! k = Some f).
  { intros k f. rewrite Hmem. split.
    - intros [(inv & Hin & _) | (Hk & _ & Hf)]; [by apply elem_of_nil in Hin | done].
    - intros [Hk Hf]. right. repeat split; try done. apply not_elem_of_nil. }
  split; [exact Hmem' |].
  intros Hclean. destruct members as [| [k f] rest]; [done |].
  exfalso. destruct (proj1 (Hmem' k f) (list_elem_of_here _ _)) as [Hk Hf].
  rewrite (Hclean k Hk) in Hf. discriminate.
Qed.

(** The amended claim in an empty folder. *)
Lemma empty_run_witness :
  (forall k, is_pdf k = true -> (∅ : gmap string file) !! k = None)
  /\ archive_names
       (snd (script (fun _ => EXAMPLE_WORDS) EXAMPLE_CLOCK (fun _ => "pdf"%string)
                    None 0 PRODUCT_CATALOG (mk_world zero_rng 0 ∅))) = [].
Proof.
  split; [intros k _; apply lookup_empty |].
  destruct (empty_run (fun _ => EXAMPLE_WORDS) EXAMPLE_CLOCK (fun _ => "pdf"%string)
              (mk_world zero_rng 0 ∅))
    as (g' & files' & members & Hrun & _ & _ & _ & Hzip & _ & _ & Hclean).
  unfold archive_names. rewrite Hrun. cbn [snd w_files]. rewrite Hzip.
  rewrite Hclean; [reflexivity | intros k _; apply lookup_empty].
Defined.

(** ** C4: reproducible exports *)

Lemma strftime_Ymd_ordinal (t t' : datetime) :
  ordinal t = ordinal t' -> strftime_Ymd t = strftime_Ymd t'.
Proof. intros H. unfold strftime_Ymd. by rewrite H. Qed.

Lemma strftime_iso_ordinal (t t' : datetime) :
  ordinal t = ordinal t' -> strftime_iso t = strftime_iso t'.
Proof. intros H. unfold strftime_iso. by rewrite H. Qed.

(** A manifest row depends on the clock and on the base date through
    their day numbers only. *)
Lemma manifest_row_dates (t t' b b' : datetime) (i : nat) (d : draws) :
  ordinal t = ordinal t' -> ordinal b = ordinal b' ->
  manifest_row (assemble t b i d) = manifest_row (assemble t' b' i d).
Proof.
  intros Ht Hb. unfold manifest_row, assemble, invoice_number.
  cbn [invoice_no issued due to_name addr1 addr2 lines tax_rate].
  rewrite (strftime_Ymd_ordinal t t' Ht).
  rewrite (strftime_iso_ordinal (add_days b (Z.of_nat (d_offset d)))
                                (add_days b' (Z.of_nat (d_offset d))))
    by (cbn; by rewrite Hb).
  rewrite (strftime_iso_ordinal
             (add_days (add_days b (Z.of_nat (d_offset d))) (Z.of_nat (d_term d)))
             (add_days (add_days b' (Z.of_nat (d_offset d))) (Z.of_nat (d_term d))))
    by (cbn; by rewrite Hb).
  reflexivity.
Qed.

Lemma manifest_rows_dates (c1 c2 : nat -> datetime) (b1 b2 : datetime) :
  ordinal b1 = ordinal b2 ->
  forall indices ds (t1 t2 : nat),
    (forall k, ordinal (c1 (t1 + k)%nat) = ordinal (c2 (t2 + k)%nat)) ->
    List.map manifest_row (assemble_all c1 b1 t1 indices ds)
    = List.map manifest_row (assemble_all c2 b2 t2 indices ds).
Proof.
  intros Hb indices.
  induction indices as [| i rest IH]; intros [| d ds] t1 t2 Hc; try done.
  cbn [assemble_all List.map]. f_equal.
  - apply manifest_row_dates; [| done].
    specialize (Hc 0%nat). by rewrite !Nat.add_0_r in Hc.
  - apply IH. intros k. specialize (Hc (S k)).
    by rewrite !Nat.add_succ_r in Hc.
Qed.

(** C4. Two runs for the same [n], under the same seeded generator,
    whose clock readings fall on the same days (reading by reading;
    the times of day are free), both complete and leave the same
    manifest bytes and the same catalog bytes, whatever the folders
    held before, whatever state the generators were in before
    [random.seed(42)], and whatever the layout engine produced. *)
Theorem exports_reproducible mt (n : nat) (clock1 clock2 : nat -> datetime)
                             (doc_build1 doc_build2 : story -> string)
                             (w1 w2 : world) :
  (forall k, ordinal (clock1 (w_ticks w1 + k)%nat)
             = ordinal (clock2 (w_ticks w2 + k)%nat)) ->
  exists w1' w2' manifest catalog_csv,
    script mt clock1 doc_build1 None n PRODUCT_CATALOG w1 = (Ok tt, w1')
    /\ script mt clock2 doc_build2 None n PRODUCT_CATALOG w2 = (Ok tt, w2')
    /\ w_files w1' !! MANIFEST_CSV = Some (Bytes manifest)
    /\ w_files w2' !! MANIFEST_CSV = Some (Bytes manifest)
    /\ w_files w1' !! CATALOG_CSV = Some (Bytes catalog_csv)
    /\ w_files w2' !! CATALOG_CSV = Some (Bytes catalog_csv).
Proof.
  intros Hclock.
  destruct (run_completes mt clock1 doc_build1 n w1) as [g1 Hrun1].
  destruct (run_completes mt clock2 doc_build2 n w2) as [g2 Hrun2].
  do 2 eexists.
  exists (Csv.writerows
            (MANIFEST_HEADER
             :: List.map manifest_row
                  (run_invoices mt clock1 n PRODUCT_CATALOG (w_ticks w1)))),
         (Csv.writerows (catalog_rows PRODUCT_CATALOG)).
  split; [exact Hrun1 |]. split; [exact Hrun2 |]. cbn [w_files].
  split; [apply final_files_manifest |].
  split; [| split; apply final_files_catalog].
  rewrite final_files_manifest. unfold manifest_file. do 4 f_equal.
  unfold run_invoices.
  destruct (fst (loop_draws PRODUCT_CATALOG n (mk_rng (mt 42%Z) 0))) as [ds |]; [| done].
  symmetry. apply manifest_rows_dates.
  - cbn. specialize (Hclock 0%nat). rewrite !Nat.add_0_r in Hclock. by rewrite Hclock.
  - intros k. specialize (Hclock (S k)).
    by rewrite !Nat.add_succ_r in Hclock.
Qed.

(** The claim at two runs of two invoices: one in an empty folder, one
    in a folder with an earlier PDF, a generator in another state, a
    clock at other times of the same day and another layout engine. *)
Lemma exports_reproducible_witness :
  (forall k, ordinal (EXAMPLE_CLOCK (0 + k)%nat) = ordinal (MOVING_CLOCK (5 + k)%nat))
  /\ exists w1' w2' manifest catalog_csv,
       script (fun _ => EXAMPLE_WORDS) EXAMPLE_CLOCK (fun _ => "pdf"%string)
              None 2 PRODUCT_CATALOG (mk_world zero_rng 0 ∅) = (Ok tt, w1')
       /\ script (fun _ => EXAMPLE_WORDS) MOVING_CLOCK (fun _ => "other"%string)
                 None 2 PRODUCT_CATALOG
                 (mk_world (mk_rng EXAMPLE_WORDS 7) 5 (w_files STALE_WORLD)) = (Ok tt, w2')
       /\ w_files w1' !! MANIFEST_CSV = Some (Bytes manifest)
       /\ w_files w2' !! MANIFEST_CSV = Some (Bytes manifest)
       /\ w_files w1' !! CATALOG_CSV = Some (Bytes catalog_csv)
       /\ w_files w2' !! CATALOG_CSV = Some (Bytes catalog_csv).
Proof.
  split; [reflexivity |].
  apply (exports_reproducible (fun _ => EXAMPLE_WORDS) 2 EXAMPLE_CLOCK MOVING_CLOCK
           (fun _ => "pdf"%string) (fun _ => "other"%string)
           (mk_world zero_rng 0 ∅)
           (mk_world (mk_rng EXAMPLE_WORDS 7) 5 (w_files STALE_WORLD))).
  reflexivity.
Defined.

(** * Further properties of the code *)

(** ** Each draw takes one word *)

Lemma advance_advance (j k : nat) (g : rng) :
  advance k (advance j g) = advance (j + k) g.
Proof. unfold advance. cbn. f_equal. lia. Qed.

Lemma randbelow_advance (n : nat) (g : rng) : snd (randbelow n g) = advance 1 g.
Proof. unfold randbelow, next, advance. cbn. f_equal. lia. Qed.

Lemma randint_advance (a b : nat) (g : rng) : snd (randint a b g) = advance 1 g.
Proof.
  unfold randint. pose proof (randbelow_advance (b - a + 1) g) as H.
  by destruct (randbelow (b - a + 1) g).
Qed.

Lemma choice_advance {A} (d : A) (l : list A) (g : rng) :
  snd (choice d l g) = advance 1 g.
Proof.
  unfold choice. pose proof (randbelow_advance (length l) g) as H.
  by destruct (randbelow (length l) g).
Qed.

Lemma random_advance (g : rng) : snd (random g) = advance 1 g.
Proof. unfold random, next, advance. cbn. f_equal. lia. Qed.

(** ** X1: restaurant names *)

Lemma make_restaurant_name_spec (g : rng) :
  name_shape (fst (make_restaurant_name g))
  /\ snd (make_restaurant_name g) = advance 3 g.
Proof.
  unfold make_restaurant_name.
  pose proof (random_advance g) as Hr.
  destruct (random g) as [r g1]. cbn [snd] in Hr. subst g1.
  destruct (PrimFloat.ltb r 0.5).
  - pose proof (choice_elem ""%string RESTAURANT_PREFIX (advance 1 g) ltac:(done)) as Hp.
    pose proof (choice_advance ""%string RESTAURANT_PREFIX (advance 1 g)) as Hg.
    destruct (choice ""%string RESTAURANT_PREFIX (advance 1 g)) as [p g2].
    cbn [fst snd] in *. subst g2.
    pose proof (choice_elem ""%string RESTAURANT_SUFFIX (advance 1 (advance 1 g))
                  ltac:(done)) as Hs.
    pose proof (choice_advance ""%string RESTAURANT_SUFFIX (advance 1 (advance 1 g))) as Hg.
    destruct (choice ""%string RESTAURANT_SUFFIX (advance 1 (advance 1 g))) as [s g3].
    cbn [fst snd] in *. subst g3. split.
    + left. by exists p, s.
    + by rewrite !advance_advance.
  - pose proof (choice_elem ""%string NOUNS (advance 1 g) ltac:(done)) as Hn.
    pose proof (choice_advance ""%string NOUNS (advance 1 g)) as Hg.
    destruct (choice ""%string NOUNS (advance 1 g)) as [n g2].
    cbn [fst snd] in *. subst g2.
    pose proof (choice_elem ""%string ADJECTIVES (advance 1 (advance 1 g))
                  ltac:(done)) as Ha.
    pose proof (choice_advance ""%string ADJECTIVES (advance 1 (advance 1 g))) as Hg.
    destruct (choice ""%string ADJECTIVES (advance 1 (advance 1 g))) as [a g3].
    cbn [fst snd] in *. subst g3. split.
    + right. by exists a, n.
    + by rewrite !advance_advance.
Qed.

(** X1. [make_restaurant_name] returns a prefix and a suffix of the
    two tables joined by a space, or "The", an adjective and a noun of
    the two lists, and takes three words from the generator in either
    branch. *)
Theorem restaurant_name_shape (g : rng) :
  name_shape (fst (make_restaurant_name g))
  /\ snd (make_restaurant_name g) = advance 3 g.
Proof. exact (make_restaurant_name_spec g). Qed.

(** ** X2: addresses *)

Lemma CITIES_ok : forallb city_ok CITIES = true.
Proof. vm_compute. reflexivity. Qed.

Lemma street_number_bounds : (100 <= 9999)%nat.
Proof. apply Nat.leb_le. vm_compute. reflexivity. Qed.

Lemma make_address_spec (g : rng) :
  address_shape (fst (make_address g)).1 (fst (make_address g)).2
  /\ snd (make_address g) = advance 4 g.
Proof.
  unfold make_address.
  pose proof (randint_range 100 9999 g street_number_bounds) as Hn.
  pose proof (randint_advance 100 9999 g) as Hg.
  destruct (randint 100 9999 g) as [number g1]. cbn [fst snd] in *. subst g1.
  pose proof (choice_elem ""%string STREET_NAMES (advance 1 g) ltac:(done)) as Hs.
  pose proof (choice_advance ""%string STREET_NAMES (advance 1 g)) as Hg.
  destruct (choice ""%string STREET_NAMES (advance 1 g)) as [street g2].
  cbn [fst snd] in *. subst g2. rewrite advance_advance.
  pose proof (choice_elem (""%string, ""%string, ""%string) CITIES (advance (1 + 1) g)
                ltac:(done)) as Hc.
  pose proof (choice_advance (""%string, ""%string, ""%string) CITIES
                (advance (1 + 1) g)) as Hg.
  destruct (choice (""%string, ""%string, ""%string) CITIES (advance (1 + 1) g))
    as [[[city state] prefix] g3].
  cbn [fst snd] in *. subst g3. rewrite advance_advance.
  pose proof (randint_range 10 99 (advance (1 + 1 + 1) g) ltac:(lia)) as Hz.
  pose proof (randint_advance 10 99 (advance (1 + 1 + 1) g)) as Hg.
  destruct (randint 10 99 (advance (1 + 1 + 1) g)) as [suffix g4].
  cbn [fst snd] in *. subst g4. rewrite advance_advance.
  split; [| reflexivity].
  exists number, street, city, state, prefix, suffix.
  pose proof CITIES_ok as Hok. rewrite forallb_forall in Hok.
  specialize (Hok _ (proj1 (list_elem_of_In _ _) Hc)). cbn [city_ok] in Hok.
  apply andb_true_iff in Hok as [Hok Hdig].
  apply andb_true_iff in Hok as [_ Hlen]. apply Nat.eqb_eq in Hlen.
  repeat split; try done; try lia.
  - rewrite length_append, Hlen, zfill2_width by lia. reflexivity.
  - by rewrite all_digits_app, Hdig, zfill_digits.
Qed.

(** X2. [make_address] returns a street number of 100..9999 and a
    street of the table as first line, and as second line a city of
    the table, a comma, its state and a zip code of exactly five
    digits, the city's three-digit prefix followed by a suffix of
    10..99; it takes four words from the generator. *)
Theorem address_lines (g : rng) :
  address_shape (fst (make_address g)).1 (fst (make_address g)).2
  /\ snd (make_address g) = advance 4 g.
Proof. exact (make_address_spec g). Qed.

(** ** X3: the lines of the manifest *)

Lemma needs_quote_app (s t : string) :
  Csv.needs_quote (s ++ t) = Csv.needs_quote s || Csv.needs_quote t.
Proof.
  induction s as [| c s IH]; [done |].
  rewrite append_cons. cbn [Csv.needs_quote]. by rewrite IH, orb_assoc.
Qed.

Lemma has_dquote_app (s t : string) :
  has_dquote (s ++ t) = has_dquote s || has_dquote t.
Proof.
  induction s as [| c s IH]; [done |].
  rewrite append_cons. cbn [has_dquote]. by rewrite IH, orb_assoc.
Qed.

Lemma is_digit_plain (c : ascii) :
  is_digit c = true -> Csv.special c = false /\ Ascii.eqb c Csv.dquote = false.
Proof.
  intros H. unfold Csv.special.
  destruct (Ascii.eqb_spec c ","%char) as [-> | _]; [vm_compute in H; discriminate |].
  destruct (Ascii.eqb_spec c Csv.dquote) as [-> | _]; [vm_compute in H; discriminate |].
  destruct (Ascii.eqb_spec c Csv.cr) as [-> | _]; [vm_compute in H; discriminate |].
  destruct (Ascii.eqb_spec c Csv.lf) as [-> | _]; [vm_compute in H; discriminate |].
  done.
Qed.

Lemma digits_plain (s : string) :
  all_digits s = true -> Csv.needs_quote s = false /\ has_dquote s = false.
Proof.
  induction s as [| c s IH]; [done |]. cbn [all_digits Csv.needs_quote has_dquote].
  intros [Hc Hs]%andb_true_iff.
  destruct (is_digit_plain c Hc) as [-> ->]. by destruct (IH Hs) as [-> ->].
Qed.

Lemma escape_id (s : string) : has_dquote s = false -> Csv.escape s = s.
Proof.
  induction s as [| c s IH]; [done |]. cbn [has_dquote Csv.escape].
  intros [Hc Hs]%orb_false_iff. by rewrite Hc, IH.
Qed.

Lemma field_plain (s : string) : Csv.needs_quote s = false -> Csv.field s = s.
Proof. intros H. unfold Csv.field. by rewrite H. Qed.

Lemma field_quoted (s : string) :
  Csv.needs_quote s = true -> has_dquote s = false -> Csv.field s = quoted s.
Proof. intros H Hq. unfold Csv.field, quoted. by rewrite H, escape_id. Qed.

Lemma f2_plain (x : float) : Csv.needs_quote (Fmt.f2 x) = false.
Proof.
  unfold Fmt.f2. destruct (Fmt.cents x) as [[s c] |].
  - rewrite !needs_quote_app.
    rewrite (proj1 (digits_plain _ (dec_digits _))).
    rewrite (proj1 (digits_plain _ (zfill_digits _ _))). by destruct s.
  - unfold Fmt.nonfinite. by destruct (Prim2SF x) as [| [] | |].
Qed.

Lemma strftime_iso_plain (t : datetime) : Csv.needs_quote (strftime_iso t) = false.
Proof.
  unfold strftime_iso. destruct (ord2ymd (ordinal t)) as [[y m] d].
  rewrite !needs_quote_app.
  by rewrite !(proj1 (digits_plain _ (zfill_digits _ _))).
Qed.

Lemma invoice_number_plain (t : datetime) (i : nat) :
  Csv.needs_quote (invoice_number t i) = false.
Proof.
  unfold invoice_number, strftime_Ymd. destruct (ord2ymd (ordinal t)) as [[y m] d].
  rewrite !needs_quote_app.
  by rewrite !(proj1 (digits_plain _ (zfill_digits _ _))).
Qed.

Lemma table_plain (l : list string) (s : string) :
  forallb (fun x => plain x && negb (has_dquote x)) l = true -> s ∈ l ->
  Csv.needs_quote s = false /\ has_dquote s = false.
Proof.
  intros Hall Hs. rewrite forallb_forall in Hall.
  specialize (Hall s (proj1 (list_elem_of_In _ _) Hs)).
  apply andb_true_iff in Hall as [H1 H2]. unfold plain in H1.
  by destruct (Csv.needs_quote s), (has_dquote s).
Qed.

Lemma name_plain (name : string) : name_shape name -> Csv.needs_quote name = false.
Proof.
  intros [(p & s & Hp & Hs & ->) | (a & n & Ha & Hn & ->)]; rewrite !needs_quote_app.
  - rewrite (proj1 (table_plain RESTAURANT_PREFIX p eq_refl Hp)).
    by rewrite (proj1 (table_plain RESTAURANT_SUFFIX s eq_refl Hs)).
  - rewrite (proj1 (table_plain ADJECTIVES a eq_refl Ha)).
    by rewrite (proj1 (table_plain NOUNS n eq_refl Hn)).
Qed.

Lemma address_plain (a1 a2 : string) :
  address_shape a1 a2 ->
  Csv.needs_quote a1 = false /\ Csv.needs_quote a2 = true /\ has_dquote a2 = false.
Proof.
  intros (number & street & city & state & prefix & suffix
          & _ & Hs & Hc & _ & -> & -> & _ & Hdig).
  pose proof CITIES_ok as Hok. rewrite forallb_forall in Hok.
  specialize (Hok _ (proj1 (list_elem_of_In _ _) Hc)). cbn [city_ok] in Hok.
  repeat (apply andb_true_iff in Hok as [Hok ?]).
  destruct (digits_plain _ Hdig) as [Hz1 Hz2].
  split; [| split].
  - rewrite !needs_quote_app, (proj1 (digits_plain _ (dec_digits _))).
    by rewrite (proj1 (table_plain STREET_NAMES street eq_refl Hs)).
  - rewrite !needs_quote_app. cbn. by rewrite orb_true_r.
  - do 4 rewrite has_dquote_app. rewrite Hz2.
    by destruct (has_dquote city), (has_dquote state).
Qed.

(** The manifest line of an invoice with a plain number, name and
    first address line, and a second address line that holds a comma
    and no double quote. *)
Lemma writerow_manifest_row (inv : invoice) :
  Csv.needs_quote (invoice_no inv) = false ->
  Csv.needs_quote (to_name inv) = false ->
  Csv.needs_quote (addr1 inv) = false ->
  Csv.needs_quote (addr2 inv) = true -> has_dquote (addr2 inv) = false ->
  Csv.writerow (manifest_row inv) = manifest_line inv.
Proof.
  intros H0 H1 H2 H3 H4. unfold manifest_row, manifest_line.
  destruct (main_totals (lines inv) (tax_rate inv)) as [[s t] g].
  unfold Csv.writerow. cbn [List.map Csv.join].
  rewrite !field_plain by (done || apply f2_plain || apply strftime_iso_plain).
  rewrite field_quoted by done.
  rewrite !field_plain by apply f2_plain.
  rewrite !append_assoc. reflexivity.
Qed.

Lemma pass_draws_recipient (cat : catalog) (g : rng) (d : draws) :
  fst (pass_draws cat g) = Some d -> recipient_ok d.
Proof.
  unfold pass_draws.
  pose proof (make_restaurant_name_spec g) as [Hname _].
  destruct (make_restaurant_name g) as [name g1].
  pose proof (make_address_spec g1) as [Haddr _].
  destruct (make_address g1) as [[a1 a2] g2].
  destruct (randint 0 25 g2) as [k g3].
  destruct (choice 0%nat DUE_DAYS g3) as [c g4].
  destruct (choose_line_items cat g4) as [[ls |] g5]; [| done].
  destruct (choice nan TAX_RATES g5) as [rate g6].
  intros [= <-]. done.
Qed.

Lemma pass_draws_full (g : rng) (d : draws) :
  fst (pass_draws PRODUCT_CATALOG g) = Some d ->
  draws_ok PRODUCT_CATALOG d /\ recipient_ok d.
Proof.
  intros H. split; [| by apply pass_draws_recipient in H].
  destruct (pass_draws_ok PRODUCT_CATALOG g PRODUCT_CATALOG_NoDup
              PRODUCT_CATALOG_length) as (d' & Hd' & Hok).
  congruence.
Qed.

Lemma loop_draws_Forall (cat : catalog) (P : draws -> Prop) :
  (forall g d, fst (pass_draws cat g) = Some d -> P d) ->
  forall n g ds, fst (loop_draws cat n g) = Some ds -> Forall P ds.
Proof.
  intros HP n. induction n as [| n IH]; intros g ds H; cbn [loop_draws] in H.
  - injection H as <-. constructor.
  - specialize (HP g).
    destruct (pass_draws cat g) as [[d |] g1]; [| done].
    specialize (IH g1).
    destruct (loop_draws cat n g1) as [[ds' |] g2]; [| done].
    injection H as <-. constructor; [by apply HP | by apply IH].
Qed.

Lemma assemble_all_Forall_gen clock base (P : draws -> Prop) (Q : invoice -> Prop) :
  (forall t i d, P d -> Q (assemble t base i d)) ->
  forall indices ds t, Forall P ds -> Forall Q (assemble_all clock base t indices ds).
Proof.
  intros HQ indices. induction indices as [| i rest IH]; intros ds t Hds; [constructor |].
  destruct Hds as [| d ds Hd Hds]; cbn [assemble_all]; constructor; auto.
Qed.

(** A fact of every invoice of a run, from the facts of its draws. *)
Lemma run_invoices_Forall_full mt clock (n t0 : nat) (Q : invoice -> Prop) :
  (forall t i d, draws_ok PRODUCT_CATALOG d -> recipient_ok d ->
                 Q (assemble t (add_days (clock t0) (-30)) i d)) ->
  Forall Q (run_invoices mt clock n PRODUCT_CATALOG t0).
Proof.
  intros HQ. unfold run_invoices.
  destruct (fst (loop_draws PRODUCT_CATALOG n (mk_rng (mt 42%Z) 0))) as [ds |] eqn:E;
    [| constructor].
  apply assemble_all_Forall_gen
    with (P := fun d => draws_ok PRODUCT_CATALOG d /\ recipient_ok d).
  - intros t i d [? ?]. by apply HQ.
  - apply (loop_draws_Forall PRODUCT_CATALOG _ pass_draws_full _ _ _ E).
Qed.

Lemma concat_cons (x : string) (xs : list string) :
  String.concat "" (x :: xs) = (x ++ String.concat "" xs)%string.
Proof. destruct xs; cbn [String.concat]; [by rewrite append_nil_r | done]. Qed.

Lemma manifest_line_assemble (t base : datetime) (i : nat) (d : draws) :
  recipient_ok d ->
  Csv.writerow (manifest_row (assemble t base i d)) = manifest_line (assemble t base i d).
Proof.
  intros [Hname Haddr]. destruct (address_plain _ _ Haddr) as (H1 & H2 & H3).
  apply writerow_manifest_row; cbn [invoice_no to_name addr1 addr2 assemble]; try done.
  - apply invoice_number_plain.
  - by apply name_plain.
Qed.

(** X3. A run completes and its manifest is the header line followed
    by one line per invoice, in order: the nine fields separated by
    commas and ended by carriage return and line feed, with the second
    address line (it holds a comma) between double quotes and every
    other field written as it is. *)
Theorem manifest_lines mt clock doc_build (n : nat) (w : world) :
  let invs := run_invoices mt clock n PRODUCT_CATALOG (w_ticks w) in
  exists g' files',
    script mt clock doc_build None n PRODUCT_CATALOG w
    = (Ok tt, mk_world g' (S (w_ticks w) + n) files')
    /\ files' !! MANIFEST_CSV
       = Some (Bytes (MANIFEST_HEADER_LINE
                      ++ String.concat "" (List.map manifest_line invs)))
    /\ Forall (fun inv => Csv.writerow (manifest_row inv) = manifest_line inv) invs.
Proof.
  cbn zeta. destruct (run_completes mt clock doc_build n w) as [g' Hrun].
  assert (Hall : Forall (fun inv => Csv.writerow (manifest_row inv) = manifest_line inv)
                        (run_invoices mt clock n PRODUCT_CATALOG (w_ticks w))).
  { apply run_invoices_Forall_full. intros t i d _ Hr. by apply manifest_line_assemble. }
  exists g'. eexists. split; [exact Hrun |]. split; [| exact Hall].
  rewrite final_files_manifest. unfold manifest_file, Csv.writerows.
  cbn [List.map]. rewrite concat_cons. do 3 f_equal.
  rewrite map_map. f_equal. apply map_ext_in. intros inv Hin.
  rewrite Forall_forall in Hall. apply Hall. by apply list_elem_of_In.
Qed.

(** ** X4: thousands separators *)

Lemma group3_short (l : list ascii) : (length l <= 3)%nat -> Fmt.group3 l = l.
Proof.
  destruct l as [| a [| b [| c [| d l]]]]; cbn [length]; intros H;
    [reflexivity | reflexivity | reflexivity | reflexivity | lia].
Qed.

Lemma group3_app3 (l : list ascii) (a b c : ascii) :
  l <> [] ->
  Fmt.group3 (l ++ [a; b; c]) = Fmt.group3 l ++ ","%char :: [a; b; c].
Proof.
  induction l as [| x l IH]; [done |]. intros _.
  destruct l as [| y l]; [reflexivity |].
  specialize (IH ltac:(done)).
  change ((x :: y :: l) ++ [a; b; c]) with (x :: ((y :: l) ++ [a; b; c])).
  cbn [Fmt.group3] in *. rewrite IH. clear IH.
  rewrite length_app. cbn [length].
  replace (S (length l) + 3)%nat with (S (length l) + 1 * 3)%nat by lia.
  rewrite Nat.Div0.mod_add.
  replace (0 <? S (length l) + 1 * 3)%nat with true
    by (symmetry; apply Nat.ltb_lt; lia).
  replace (0 <? S (length l))%nat with true by (symmetry; apply Nat.ltb_lt; lia).
  cbn [andb]. by destruct (S (length l) mod 3 =? 0)%nat.
Qed.

Lemma length_list_ascii_of_string (s : string) :
  length (list_ascii_of_string s) = String.length s.
Proof. induction s as [| c s IH]; [done |]. cbn. by rewrite IH. Qed.

Lemma dec_short (n : nat) : (n < 1000)%nat -> (String.length (Fmt.dec n) <= 3)%nat.
Proof.
  intros Hn. pose proof (zfill3_width n Hn) as H. rewrite length_zfill in H. lia.
Qed.

Lemma f2_grouped_short (x : float) (s : bool) (c : Z) :
  Fmt.cents x = Some (s, c) -> (c < 100000)%Z -> Fmt.f2_grouped x = Fmt.f2 x.
Proof.
  intros Hc Hlt. unfold Fmt.f2_grouped, Fmt.f2. rewrite Hc.
  rewrite group3_short, string_of_list_ascii_of_string; [done |].
  rewrite length_list_ascii_of_string. apply dec_short.
  destruct (Z.le_gt_cases 0 c).
  - assert (c / 100 < 1000)%Z by (apply Z.div_lt_upper_bound; lia). lia.
  - assert (c / 100 < 0)%Z by (apply Z.div_lt_upper_bound; lia). lia.
Qed.

(** X4. The digits before the decimal point of [currency] are grouped
    in threes from the right: up to three digits stand as they are,
    and three more digits after a group add a comma and the three
    digits. [currency] of an amount is a dollar sign, the sign, the
    grouped digits of the whole hundredths, a point and two digits;
    below 1000.00 that is a dollar sign before the plain two-decimal
    form. *)
Theorem thousands_separators :
  (forall l, (length l <= 3)%nat -> Fmt.group3 l = l)
  /\ (forall l a b c, l <> [] ->
        Fmt.group3 (l ++ [a; b; c]) = Fmt.group3 l ++ ","%char :: [a; b; c])
  /\ (forall x s c,
        Fmt.cents x = Some (s, c) ->
        currency x
        = String "$"
            (Fmt.sign_str s
             ++ string_of_list_ascii
                  (Fmt.group3 (list_ascii_of_string (Fmt.dec (Z.to_nat (c / 100)))))
             ++ "." ++ Fmt.zfill 2 (Z.to_nat (c mod 100)))%string)
  /\ (forall x s c,
        Fmt.cents x = Some (s, c) -> (c < 100000)%Z ->
        currency x = String "$" (Fmt.f2 x)).
Proof.
  split; [exact group3_short |]. split; [exact group3_app3 |]. split.
  - intros x s c Hc. unfold currency, Fmt.f2_grouped. rewrite Hc. reflexivity.
  - intros x s c Hc Hlt. unfold currency.
    rewrite (f2_grouped_short x s c Hc Hlt). reflexivity.
Qed.

Lemma thousands_separators_witness :
  Fmt.cents 1234567.891%float = Some (false, 123456789%Z)
  /\ currency 1234567.891%float = "$1,234,567.89"%string
  /\ Fmt.cents 34.99%float = Some (false, 3499%Z)
  /\ currency 34.99%float = String "$" (Fmt.f2 34.99%float).
Proof.
  destruct thousands_separators as (_ & _ & Hsep & Hshort).
  assert (H1 : Fmt.cents 1234567.891%float = Some (false, 123456789%Z))
    by (vm_compute; reflexivity).
  assert (H2 : Fmt.cents 34.99%float = Some (false, 3499%Z))
    by (vm_compute; reflexivity).
  split; [exact H1 |]. split; [rewrite (Hsep _ _ _ H1); vm_compute; reflexivity |].
  split; [exact H2 |]. apply (Hshort _ _ _ H2). lia.
Defined.

(** ** X5: one price per product, in the catalog export and in the PDFs *)

Lemma PRODUCT_CATALOG_prices_plain : forallb price_plain PRODUCT_CATALOG = true.
Proof. vm_compute. reflexivity. Qed.

Lemma catalog_row_elem (cat : catalog) (name unit : string) (price : float) :
  (name, (unit, price)) ∈ cat -> [name; unit; Fmt.f2 price] ∈ catalog_rows cat.
Proof.
  intros H. unfold catalog_rows. apply list_elem_of_further.
  change (List.map ?f cat) with (f <$> cat).
  apply list_elem_of_fmap. by exists (name, (unit, price)).
Qed.

Lemma story_data (inv : invoice) :
  st_data (story_of inv) = ITEM_HEADER :: List.map item_row (lines inv).
Proof.
  unfold story_of, invoice_story, draw_invoice_totals. cbn [st_data]. f_equal.
  apply map_ext. by intros [[[[? ?] ?] ?] ?].
Qed.

Lemma item_row_priced (l : line) (unit : string) (price : float) :
  (line_name l, (unit, price)) ∈ PRODUCT_CATALOG ->
  line_unit l = unit -> line_price l = price ->
  item_row l = [line_name l; unit; Fmt.dec (line_qty l);
                String "$" (Fmt.f2 price); currency (line_amount l)].
Proof.
  intros Hin Hu Hp. unfold item_row. rewrite Hu, Hp. do 3 f_equal.
  pose proof PRODUCT_CATALOG_prices_plain as Hall. rewrite forallb_forall in Hall.
  specialize (Hall _ (proj1 (list_elem_of_In _ _) Hin)).
  unfold price_plain in Hall. cbn [fst snd] in Hall. apply String.eqb_eq in Hall.
  unfold currency. by rewrite Hall.
Qed.

(** X5. A run completes and writes the catalog export; the item table
    of every PDF is the header row and one row per line, in order, and
    each row shows a product, unit and price that are a row of the
    catalog export (the price behind a dollar sign), with the quantity
    and the amount: every invoice and the export show one price per
    product. *)
Theorem one_price_per_product mt clock doc_build (n : nat) (w : world) :
  let invs := run_invoices mt clock n PRODUCT_CATALOG (w_ticks w) in
  exists g' files',
    script mt clock doc_build None n PRODUCT_CATALOG w
    = (Ok tt, mk_world g' (S (w_ticks w) + n) files')
    /\ files' !! CATALOG_CSV
       = Some (Bytes (Csv.writerows (catalog_rows PRODUCT_CATALOG)))
    /\ Forall (fun inv =>
         st_data (story_of inv) = ITEM_HEADER :: List.map item_row (lines inv)
         /\ Forall (fun l : line =>
              exists unit price_usd,
                [line_name l; unit; price_usd] ∈ catalog_rows PRODUCT_CATALOG
                /\ item_row l = [line_name l; unit; Fmt.dec (line_qty l);
                                 String "$" price_usd; currency (line_amount l)])
              (lines inv)) invs.
Proof.
  cbn zeta. destruct (run_completes mt clock doc_build n w) as [g' Hrun].
  exists g'. eexists. split; [exact Hrun |]. split; [apply final_files_catalog |].
  apply run_invoices_Forall_full. intros t i d (_ & _ & (_ & _ & Hlines) & _) _.
  split; [apply story_data |]. cbn [lines assemble].
  eapply Forall_impl; [exact Hlines |]. cbn beta.
  intros l (unit & price & Hin & Hu & _ & Hp & _).
  exists unit, (Fmt.f2 price). split; [by apply catalog_row_elem |].
  by apply item_row_priced.
Qed.

(** ** X6: the percentage of the tax row *)

Lemma percent_label_rates (rate : float) :
  rate ∈ TAX_RATES -> (rate, percent_label rate) ∈ TAX_LABELS.
Proof.
  unfold TAX_RATES. intros H.
  repeat (apply elem_of_cons in H as [-> | H]);
    [| | | | | | | by apply elem_of_nil in H];
    match goal with
    | |- (?r, percent_label ?r) ∈ _ =>
        let l := eval vm_compute in (percent_label r) in
        replace (percent_label r) with l by (vm_compute; reflexivity)
    end;
    unfold TAX_LABELS;
    repeat first [apply list_elem_of_here | apply list_elem_of_further].
Qed.

(** X6. A run completes, and in every PDF the tax row is labelled with
    the rate's percentage cut to a whole number: 6 % for the rates 6
    and 6.25 %, 7 % for 7 and 7.25 %, 8 % for 8, 8.25 and 8.5 %. The
    amount beside the label is the tax at the full rate. *)
Theorem tax_label_truncates mt clock doc_build (n : nat) (w : world) :
  let invs := run_invoices mt clock n PRODUCT_CATALOG (w_ticks w) in
  (exists g',
     script mt clock doc_build None n PRODUCT_CATALOG w =
     (Ok tt, mk_world g' (S (w_ticks w) + n)
               (final_files doc_build PRODUCT_CATALOG invs (w_files w))))
  /\ Forall (fun inv =>
       exists label s,
         (tax_rate inv, label) ∈ TAX_LABELS
         /\ s = py_sum (List.map line_amount (lines inv))
         /\ st_totals (story_of inv)
            = [("Subtotal"%string, currency s);
               (label, currency (s * tax_rate inv));
               ("GRAND TOTAL"%string, currency (s + s * tax_rate inv))]) invs.
Proof.
  cbn zeta. split; [apply run_completes |].
  apply run_invoices_Forall_full. intros t i d (_ & _ & _ & Hr) _.
  exists (percent_label (d_rate d)), (py_sum (List.map line_amount (d_lines d))).
  split; [by apply percent_label_rates |]. split; [reflexivity |].
  unfold story_of, invoice_story, draw_invoice_totals.
  cbn [st_totals lines tax_rate assemble].
  replace (List.map (fun l : line => let '(_, _, _, _, a) := l in a) (d_lines d))
    with (List.map line_amount (d_lines d))
    by (apply map_ext; by intros [[[[? ?] ?] ?] ?]).
  reflexivity.
Qed.

(** ** X7: amounts to the cent *)

(** X7. A run completes, and for every line of every invoice the
    amount, a binary float product, prints at two decimals as the
    exact decimal product of the quantity and the printed price: with
    the prices of the catalog and quantities up to 40 no cent is lost
    to floating point in a line amount. *)
Theorem line_amounts_to_the_cent mt clock doc_build (n : nat) (w : world) :
  let invs := run_invoices mt clock n PRODUCT_CATALOG (w_ticks w) in
  (exists g',
     script mt clock doc_build None n PRODUCT_CATALOG w =
     (Ok tt, mk_world g' (S (w_ticks w) + n)
               (final_files doc_build PRODUCT_CATALOG invs (w_files w))))
  /\ Forall (fun inv =>
       Forall (fun l : line =>
         exists c : Z,
           Fmt.cents (line_price l) = Some (false, c)
           /\ Fmt.cents (line_amount l) = Some (false, (Z.of_nat (line_qty l) * c)%Z))
         (lines inv)) invs.
Proof.
  cbn zeta. split; [apply run_completes |].
  apply run_invoices_Forall_full. intros t i d (_ & _ & (_ & _ & Hlines) & _) _.
  cbn [lines assemble]. eapply Forall_impl; [exact Hlines |]. cbn beta.
  intros l (unit & price & Hin & _ & Hq & Hp & Ha).
  destruct (amount_cents _ (line_qty l) Hin Hq) as (c & Hc & Hac).
  cbn [fst snd] in Hc, Hac. exists c. by rewrite Hp, Ha.
Qed.

(** ** X8: what a run touches in its folder *)

Lemma pdf_name_not_export (inv : invoice) :
  pdf_name inv <> CATALOG_CSV /\ pdf_name inv <> MANIFEST_CSV /\ pdf_name inv <> ZIP_PATH.
Proof.
  pose proof (is_pdf_pdf_name inv) as H.
  repeat split; intros E; rewrite E in H; discriminate.
Qed.

Lemma final_files_pdf doc_build cat invs (files : gmap string file) (inv : invoice) :
  NoDup (List.map pdf_name invs) -> inv ∈ invs ->
  final_files doc_build cat invs files !! pdf_name inv
  = Some (Bytes (doc_build (story_of inv))).
Proof.
  intros Hnd Hin. destruct (pdf_name_not_export inv) as (_ & Hm & Hz).
  unfold final_files. rewrite !lookup_insert_ne by done.
  by apply write_pdfs_lookup_in.
Qed.

Lemma final_files_other doc_build cat invs (files : gmap string file) (k : string) :
  k <> CATALOG_CSV -> k <> MANIFEST_CSV -> k <> ZIP_PATH ->
  k ∉ List.map pdf_name invs ->
  final_files doc_build cat invs files !! k = files !! k.
Proof.
  intros Hc Hm Hz Hk. unfold final_files. rewrite !lookup_insert_ne by done.
  rewrite write_pdfs_lookup_other by done. by rewrite lookup_insert_ne.
Qed.

Lemma final_files_keeps doc_build cat invs (files : gmap string file) (k : string) :
  is_Some (files !! k) -> is_Some (final_files doc_build cat invs files !! k).
Proof.
  intros Hk. unfold final_files.
  destruct (decide (k = ZIP_PATH)) as [-> | Hz]; [by rewrite lookup_insert_eq |].
  rewrite lookup_insert_ne by done.
  destruct (decide (k = MANIFEST_CSV)) as [-> | Hm]; [by rewrite lookup_insert_eq |].
  rewrite lookup_insert_ne by done.
  revert files Hk. induction invs as [| inv rest IH]; intros files Hk.
  - cbn [write_pdfs fold_left].
    destruct (decide (k = CATALOG_CSV)) as [-> | Hc]; [by rewrite lookup_insert_eq |].
    by rewrite lookup_insert_ne.
  - cbn [write_pdfs fold_left].
    change (fold_left ?f rest ?a) with (write_pdfs doc_build rest a).
    rewrite (insert_insert_ne _ (pdf_name inv) CATALOG_CSV)
      by apply pdf_name_not_export.
    apply IH.
    destruct (decide (k = pdf_name inv)) as [-> | Hne]; [by rewrite lookup_insert_eq |].
    by rewrite lookup_insert_ne.
Qed.

(** X8. A run completes and touches only its own outputs: each of its
    PDFs is in the folder with the bytes just built, whatever file had
    that name before; every file whose name is not the catalog export,
    the manifest, the archive or one of the run's PDFs is as it was;
    and no file of the folder is removed. *)
Theorem run_touches_only_outputs mt clock doc_build (n : nat) (w : world) :
  let invs := run_invoices mt clock n PRODUCT_CATALOG (w_ticks w) in
  exists g' files',
    script mt clock doc_build None n PRODUCT_CATALOG w
    = (Ok tt, mk_world g' (S (w_ticks w) + n) files')
    /\ (forall inv, inv ∈ invs ->
          files' !! pdf_name inv = Some (Bytes (doc_build (story_of inv))))
    /\ (forall k, k ∉ [CATALOG_CSV; MANIFEST_CSV; ZIP_PATH] ++ List.map pdf_name invs ->
          files' !! k = w_files w !! k)
    /\ (forall k, is_Some (w_files w !! k) -> is_Some (files' !! k)).
Proof.
  cbn zeta. destruct (run_completes mt clock doc_build n w) as [g' Hrun].
  exists g'. eexists. split; [exact Hrun |]. split; [| split].
  - intros inv Hin. apply final_files_pdf; [apply run_pdf_names_NoDup | done].
  - intros k Hk. rewrite !not_elem_of_app, !not_elem_of_cons in Hk.
    destruct Hk as [(Hc & Hm & Hz & _) Hp]. by apply final_files_other.
  - intros k. apply final_files_keeps.
Qed.

(** ** X9: a run that fails *)

Lemma write_pdfs_written doc_build (invs : list invoice) :
  forall (files : gmap string file) (k : string),
    k ∈ List.map pdf_name invs -> write_pdfs doc_build invs files !! k <> None.
Proof.
  induction invs as [| inv rest IH]; intros files k Hk; [by apply elem_of_nil in Hk |].
  cbn [write_pdfs fold_left].
  change (fold_left ?f rest ?a) with (write_pdfs doc_build rest a).
  destruct (decide (k ∈ List.map pdf_name rest)) as [Hr | Hr]; [by apply IH |].
  rewrite write_pdfs_lookup_other by done.
  cbn [List.map] in Hk. apply elem_of_cons in Hk as [-> | Hk]; [| done].
  by rewrite lookup_insert_eq.
Qed.

Lemma main_loop_raise clock doc_build cat base (indices : list nat) :
  forall (rows : list (list string)) (w w' : world) (e : exn),
    main_loop clock doc_build cat base indices rows w = (Raise e, w') ->
    e = SAMPLE_ERROR
    /\ exists ds g1,
         (length ds < length indices)%nat
         /\ loop_draws cat (length ds) (w_rng w) = (Some ds, g1)
         /\ fst (pass_draws cat g1) = None
         /\ w_ticks w' = (w_ticks w + S (length ds))%nat
         /\ w_files w'
            = write_pdfs doc_build (assemble_all clock base (w_ticks w) indices ds)
                         (w_files w).
Proof.
  induction indices as [| i rest IH]; intros rows w w' e Hrun.
  - discriminate.
  - cbn [main_loop] in Hrun. unfold mbind, M_bind, bind in Hrun.
    rewrite loop_body_eq in Hrun.
    destruct (pass_draws cat (w_rng w)) as [[d |] g1] eqn:Hpass.
    + cbn beta iota zeta in Hrun.
      apply IH in Hrun as (-> & ds & g2 & Hlen & Hds & Hnone & Ht & Hf).
      cbn [w_rng w_ticks w_files] in *. split; [done |].
      exists (d :: ds), g2. cbn [length loop_draws assemble_all].
      rewrite Hpass, Hds. repeat split; [lia | done | lia | done].
    + injection Hrun as <- <-. split; [done |].
      exists [], (w_rng w). cbn [length loop_draws assemble_all w_ticks w_files].
      rewrite Hpass. repeat split; [lia | lia].
Qed.

Lemma length_assemble_all_le clock base : forall indices ds t,
  (length ds <= length indices)%nat ->
  length (assemble_all clock base t indices ds) = length ds.
Proof.
  induction indices as [| i rest IH]; intros [| d ds] t Hle; cbn in *; try done; try lia.
  rewrite IH; [done | lia].
Qed.

Lemma main_raise mt clock doc_build (n : nat) (cat : catalog) (w w' : world) (e : exn) :
  main mt clock doc_build n cat w = (Raise e, w') ->
  e = SAMPLE_ERROR
  /\ exists ds g1,
       (length ds < n)%nat
       /\ loop_draws cat (length ds) (mk_rng (mt 42%Z) 0) = (Some ds, g1)
       /\ fst (pass_draws cat g1) = None
       /\ w_ticks w' = (w_ticks w + 2 + length ds)%nat
       /\ w_files w'
          = failed_files doc_build cat
              (assemble_all clock (add_days (clock (w_ticks w)) (-30))
                            (S (w_ticks w)) (seq 1 n) ds) (w_files w).
Proof.
  unfold main. unfold mbind, M_bind, bind, seed, write_file, now, zip_pdfs.
  cbn [w_rng w_ticks w_files].
  destruct (main_loop _ _ _ _ _ _ _) as [[rows | e0] w2] eqn:Hloop; [discriminate |].
  intros [= <- <-].
  apply main_loop_raise in Hloop as (-> & ds & g1 & Hlen & Hds & Hnone & Ht & Hf).
  cbn [w_rng w_ticks w_files] in *. rewrite length_seq in Hlen.
  split; [done |]. exists ds, g1. repeat split; [done | done | done | lia | done].
Qed.

(** X9. A run that ends in the [ValueError] of [random.sample] was
    stopped in some pass [k + 1 <= n], after [k] passes that
    completed. It leaves the catalog export written and the PDFs of
    those [k] passes in the folder; the manifest and the archive are
    not written (what was under their names stays), nothing is cleaned
    up, and the clock has been read [k + 2] times. (The property is
    about this exception only: an error of a write is not in the
    model.) *)
Theorem failed_run_leaves_partial_output
    mt clock doc_build (n : nat) (cat : catalog) (w w' : world) :
  script mt clock doc_build None n cat w = (Raise SAMPLE_ERROR, w') ->
  exists (k : nat) (invs : list invoice),
    length invs = k /\ (k < n)%nat
    /\ w_ticks w' = (w_ticks w + 2 + k)%nat
    /\ w_files w' = failed_files doc_build cat invs (w_files w)
    /\ w_files w' !! CATALOG_CSV = Some (catalog_file cat)
    /\ w_files w' !! MANIFEST_CSV = w_files w !! MANIFEST_CSV
    /\ w_files w' !! ZIP_PATH = w_files w !! ZIP_PATH
    /\ Forall (fun inv =>
         w_files w' !! pdf_name inv <> None
         /\ exists t i d, inv = assemble t (add_days (clock (w_ticks w)) (-30)) i d)
         invs.
Proof.
  intros Hrun. cbn [script] in Hrun.
  apply main_raise in Hrun as (_ & ds & g1 & Hlen & Hds & Hnone & Ht & Hf).
  set (base := add_days (clock (w_ticks w)) (-30)) in *.
  set (invs := assemble_all clock base (S (w_ticks w)) (seq 1 n) ds) in *.
  assert (Hl : length invs = length ds).
  { apply length_assemble_all_le. rewrite length_seq. lia. }
  exists (length ds), invs. rewrite Hf. unfold failed_files.
  repeat split; try done.
  - rewrite write_pdfs_lookup_not_pdf by reflexivity. apply lookup_insert_eq.
  - rewrite write_pdfs_lookup_not_pdf by reflexivity. by rewrite lookup_insert_ne.
  - rewrite write_pdfs_lookup_not_pdf by reflexivity. by rewrite lookup_insert_ne.
  - apply Forall_forall. intros inv Hin. split.
    + apply write_pdfs_written. change (List.map pdf_name invs) with (pdf_name <$> invs).
      apply list_elem_of_fmap. eauto.
    + clear -Hin. subst invs. revert Hin. generalize (S (w_ticks w)) (seq 1 n).
      intros t l. revert t ds. induction l as [| i l IH]; intros t [| d ds] Hin;
        cbn [assemble_all] in Hin; try by apply elem_of_nil in Hin.
      apply elem_of_cons in Hin as [-> | Hin]; [eauto | by eapply IH].
Qed.

Lemma failed_run_leaves_partial_output_witness :
  SHORT_RUN = (Raise SAMPLE_ERROR, snd SHORT_RUN)
  /\ w_files (snd SHORT_RUN) !! CATALOG_CSV = Some (catalog_file SHORT_CATALOG)
  /\ w_files (snd SHORT_RUN) !! MANIFEST_CSV = None
  /\ w_files (snd SHORT_RUN) !! ZIP_PATH = None.
Proof.
  assert (H : SHORT_RUN = (Raise SAMPLE_ERROR, snd SHORT_RUN))
    by (vm_compute; reflexivity).
  split; [exact H |].
  destruct (failed_run_leaves_partial_output
              (fun _ => SHORT_WORDS) EXAMPLE_CLOCK (fun _ => "pdf"%string) 2
              SHORT_CATALOG STALE_WORLD (snd SHORT_RUN) H)
    as (k & invs & _ & _ & _ & _ & Hc & Hm & Hz & _).
  split; [exact Hc |]. split; [rewrite Hm | rewrite Hz]; reflexivity.
Defined.

(** ** X10: a longer run extends a shorter one *)

Lemma loop_draws_app (cat : catalog) (n m : nat) : forall g ds g1,
  loop_draws cat n g = (Some ds, g1) ->
  loop_draws cat (n + m) g
  = match loop_draws cat m g1 with
    | (Some ds', g2) => (Some (ds ++ ds'), g2)
    | (None, g2) => (None, g2)
    end.
Proof.
  induction n as [| n IH]; intros g ds g1 Hd; cbn [loop_draws Nat.add] in *.
  - injection Hd as <- <-. by destruct (loop_draws cat m g) as [[ds' |] g2].
  - destruct (pass_draws cat g) as [[d |] g0]; [| done].
    destruct (loop_draws cat n g0) as [[ds0 |] g3] eqn:Hn; [| done].
    injection Hd as <- <-. rewrite (IH _ _ _ Hn).
    by destruct (loop_draws cat m g3) as [[ds' |] g2].
Qed.

Lemma assemble_all_app clock base : forall (n m a t : nat) (ds ds' : list draws),
  length ds = n ->
  assemble_all clock base t (seq a (n + m)) (ds ++ ds')
  = assemble_all clock base t (seq a n) ds
    ++ assemble_all clock base (t + n) (seq (a + n) m) ds'.
Proof.
  induction n as [| n IH]; intros m a t [| d ds] ds' Hlen; cbn in Hlen; try done.
  - cbn. by rewrite !Nat.add_0_r.
  - cbn [Nat.add seq app assemble_all]. f_equal.
    rewrite IH by lia. do 2 f_equal; [lia | f_equal; lia].
Qed.

Lemma run_invoices_app mt clock (n m t0 : nat) :
  exists more,
    length more = m
    /\ run_invoices mt clock (n + m) PRODUCT_CATALOG t0
       = run_invoices mt clock n PRODUCT_CATALOG t0 ++ more.
Proof.
  unfold run_invoices.
  destruct (loop_draws_ok PRODUCT_CATALOG n PRODUCT_CATALOG_NoDup
              PRODUCT_CATALOG_length (mk_rng (mt 42%Z) 0)) as (ds & Hds & Hlen & _).
  destruct (loop_draws PRODUCT_CATALOG n (mk_rng (mt 42%Z) 0)) as [o g1] eqn:Hn.
  cbn [fst] in Hds. subst o. rewrite (loop_draws_app _ n m _ _ _ Hn).
  destruct (loop_draws_ok PRODUCT_CATALOG m PRODUCT_CATALOG_NoDup
              PRODUCT_CATALOG_length g1) as (ds' & Hds' & Hlen' & _).
  destruct (loop_draws PRODUCT_CATALOG m g1) as [o g2]. cbn [fst] in Hds'. subst o.
  cbn [fst]. rewrite assemble_all_app by done. eexists. split; [| reflexivity].
  rewrite length_assemble_all; [done | by rewrite length_seq].
Qed.

(** X10. Raising the number of invoices only adds invoices: started in
    the same state, a run of [n + m] passes completes with the [n]
    invoices of the run of [n] passes, in the same order, followed by
    [m] more; so the manifest of the longer run starts with the rows
    of the shorter one. *)
Theorem longer_run_extends mt clock doc_build (n m : nat) (w : world) :
  let short := run_invoices mt clock n PRODUCT_CATALOG (w_ticks w) in
  let long := run_invoices mt clock (n + m) PRODUCT_CATALOG (w_ticks w) in
  (exists g',
     script mt clock doc_build None (n + m) PRODUCT_CATALOG w =
     (Ok tt, mk_world g' (S (w_ticks w) + (n + m))
               (final_files doc_build PRODUCT_CATALOG long (w_files w))))
  /\ (exists more, length more = m /\ long = short ++ more)
  /\ take n long = short
  /\ take (S n) (MANIFEST_HEADER :: List.map manifest_row long)
     = MANIFEST_HEADER :: List.map manifest_row short.
Proof.
  cbn zeta. split; [apply run_completes |].
  destruct (run_invoices_app mt clock n m (w_ticks w)) as (more & Hlen & Heq).
  pose proof (length_run_invoices mt clock n (w_ticks w)) as Hn.
  split; [by exists more |]. rewrite Heq. split.
  - by rewrite take_app_length'.
  - cbn [take]. f_equal. rewrite map_app.
    rewrite take_app_length'; [done | by rewrite length_map].
Qed.

(** ** X11: the lines of the catalog export *)

Lemma writerow_catalog_row (e : string * (string * float)) :
  entry_plain e = true ->
  Csv.writerow [e.1; e.2.1; Fmt.f2 e.2.2] = catalog_line e.
Proof.
  intros [H1 H2]%andb_true_iff. unfold plain in *.
  apply negb_true_iff in H1, H2.
  unfold Csv.writerow, catalog_line. cbn [List.map Csv.join].
  rewrite !field_plain by (done || apply f2_plain).
  rewrite !append_assoc. reflexivity.
Qed.

Lemma catalog_rows_lines (cat : catalog) :
  forallb entry_plain cat = true ->
  Csv.writerows (catalog_rows cat)
  = (CATALOG_HEADER_LINE ++ String.concat "" (List.map catalog_line cat))%string.
Proof.
  intros Hall. unfold Csv.writerows, catalog_rows. cbn [List.map].
  rewrite concat_cons. f_equal. rewrite map_map. f_equal.
  apply map_ext_in. intros [name [unit price]] Hin.
  rewrite forallb_forall in Hall. by rewrite <- (writerow_catalog_row _ (Hall _ Hin)).
Qed.

Lemma main_loop_keeps clock doc_build cat base (indices : list nat) :
  forall (rows : list (list string)) (w w' : world) (o : outcome (list (list string)))
         (k : string),
    main_loop clock doc_build cat base indices rows w = (o, w') ->
    is_pdf k = false -> w_files w' !! k = w_files w !! k.
Proof.
  induction indices as [| i rest IH]; intros rows w w' o k Hrun Hk.
  - by injection Hrun as <- <-.
  - cbn [main_loop] in Hrun. unfold mbind, M_bind, bind in Hrun.
    rewrite loop_body_eq in Hrun.
    destruct (pass_draws cat (w_rng w)) as [[d |] g1].
    + cbn beta iota zeta in Hrun. rewrite (IH _ _ _ _ _ Hrun Hk). cbn [w_files].
      apply lookup_insert_ne. intros E. rewrite <- E, is_pdf_pdf_name in Hk. discriminate.
    + by injection Hrun as <- <-.
Qed.

Lemma main_catalog mt clock doc_build (n : nat) (cat : catalog) (w w' : world)
                   (o : outcome unit) :
  main mt clock doc_build n cat w = (o, w') ->
  w_files w' !! CATALOG_CSV = Some (catalog_file cat).
Proof.
  unfold main. unfold mbind, M_bind, bind, seed, write_file, now, zip_pdfs.
  cbn [w_rng w_ticks w_files].
  destruct (main_loop _ _ _ _ _ _ _) as [[rows | e0] w2] eqn:Hloop;
    intros [= <- <-]; cbn [w_files]; rewrite ?lookup_insert_ne by done;
    rewrite (main_loop_keeps _ _ _ _ _ _ _ _ _ CATALOG_CSV Hloop eq_refl);
    apply lookup_insert_eq.
Qed.

(** X11. A run that completes, or that is stopped by the [ValueError]
    of [random.sample], leaves the catalog export in the folder,
    whatever the catalog: the header row and one row per entry as
    [csv.writer] writes them. When no name and no unit holds a comma,
    a double quote or a line break (as in the catalog of the program),
    these are the header line and one line [name,unit,price] per
    entry, in the order of the catalog, without quotes, the price with
    two decimals and no thousands separator. (An error of a write is
    not in the model; the property is about these two endings.) *)
Theorem catalog_export_lines
    mt clock doc_build (n : nat) (cat : catalog) (w w' : world) (o : outcome unit) :
  script mt clock doc_build None n cat w = (o, w') ->
  o = Ok tt \/ o = Raise SAMPLE_ERROR ->
  w_files w' !! CATALOG_CSV = Some (Bytes (Csv.writerows (catalog_rows cat)))
  /\ (forallb entry_plain cat = true ->
      Csv.writerows (catalog_rows cat)
      = (CATALOG_HEADER_LINE ++ String.concat "" (List.map catalog_line cat))%string)
  /\ forallb entry_plain PRODUCT_CATALOG = true.
Proof.
  intros Hrun _. cbn [script] in Hrun.
  split; [exact (main_catalog _ _ _ _ _ _ _ _ Hrun) |].
  split; [apply catalog_rows_lines | vm_compute; reflexivity].
Qed.

Lemma catalog_export_lines_witness :
  forallb entry_plain PRODUCT_CATALOG = true
  /\ w_files (snd (script (fun _ => EXAMPLE_WORDS) EXAMPLE_CLOCK (fun _ => "pdf"%string)
                          None 1 PRODUCT_CATALOG STALE_WORLD)) !! CATALOG_CSV
     = Some (Bytes (CATALOG_HEADER_LINE
                    ++ String.concat "" (List.map catalog_line PRODUCT_CATALOG)))
  /\ w_files (snd SHORT_RUN) !! CATALOG_CSV
     = Some (Bytes (CATALOG_HEADER_LINE
                    ++ String.concat "" (List.map catalog_line SHORT_CATALOG))).
Proof.
  split; [vm_compute; reflexivity |]. split.
  - destruct (catalog_export_lines (fun _ => EXAMPLE_WORDS) EXAMPLE_CLOCK
                (fun _ => "pdf"%string) 1 PRODUCT_CATALOG STALE_WORLD
                (snd (script (fun _ => EXAMPLE_WORDS) EXAMPLE_CLOCK
                             (fun _ => "pdf"%string) None 1 PRODUCT_CATALOG STALE_WORLD))
                (Ok tt))
      as (Hfile & Hlines & Hplain).
    + vm_compute. reflexivity.
    + left. reflexivity.
    + rewrite Hfile, (Hlines Hplain). reflexivity.
  - destruct (catalog_export_lines (fun _ => SHORT_WORDS) EXAMPLE_CLOCK
                (fun _ => "pdf"%string) 2 SHORT_CATALOG STALE_WORLD
                (snd SHORT_RUN) (Raise SAMPLE_ERROR))
      as (Hfile & Hlines & _).
    + vm_compute. reflexivity.
    + right. reflexivity.
    + rewrite Hfile, Hlines; [reflexivity | vm_compute; reflexivity].
Defined.

(** ** X12: the header of a PDF and its manifest row *)

Lemma strftime_same_day (t : datetime) : same_day (strftime_bdY t) (strftime_iso t).
Proof.
  unfold same_day, strftime_bdY, strftime_iso.
  pose proof (ord2ymd_bounds (ordinal t)) as Hb.
  destruct (ord2ymd (ordinal t)) as [[y m] d]. destruct Hb as [Hm Hd].
  exists (Z.to_nat y), (Z.to_nat m), (Z.to_nat d), (nth (Z.to_nat m) MONTH_ABBR ""%string).
  split; [lia |]. split; [lia |]. split; [| done].
  assert (Hcases : (m = 1 \/ m = 2 \/ m = 3 \/ m = 4 \/ m = 5 \/ m = 6 \/ m = 7
                    \/ m = 8 \/ m = 9 \/ m = 10 \/ m = 11 \/ m = 12)%Z) by lia.
  repeat (destruct Hcases as [-> | Hcases]; [reflexivity |]). by subst m.
Qed.

(** X12. A run completes, and the header of every PDF names the
    invoice of its manifest row: the number of the row is the number
    in the PDF and the name of the PDF file without [.pdf]; the
    recipient block is the three recipient columns under [TO]; and
    the invoice date and the due date of the PDF are the days of the
    two date columns, printed as month name, day and year instead of
    year-month-day. *)
Theorem pdf_header_matches_manifest mt clock doc_build (n : nat) (w : world) :
  let invs := run_invoices mt clock n PRODUCT_CATALOG (w_ticks w) in
  (exists g',
     script mt clock doc_build None n PRODUCT_CATALOG w =
     (Ok tt, mk_world g' (S (w_ticks w) + n)
               (final_files doc_build PRODUCT_CATALOG invs (w_files w))))
  /\ Forall (fun inv =>
       exists number iso_issued iso_due name a1 a2 pdf_issued pdf_due,
         take 6 (manifest_row inv) = [number; iso_issued; iso_due; name; a1; a2]
         /\ pdf_name inv = (number ++ ".pdf")%string
         /\ st_meta (story_of inv)
            = [("Invoice No."%string, number); ("Invoice Date"%string, pdf_issued);
               ("Due Date"%string, pdf_due)]
         /\ st_to (story_of inv) = ["TO"%string; name; a1; a2]
         /\ same_day pdf_issued iso_issued
         /\ same_day pdf_due iso_due) invs.
Proof.
  cbn zeta. split; [apply run_completes |].
  apply run_invoices_Forall. intros t i d _.
  set (inv := assemble t (add_days (clock (w_ticks w)) (-30)) i d).
  exists (invoice_no inv), (strftime_iso (issued inv)), (strftime_iso (due inv)),
         (to_name inv), (addr1 inv), (addr2 inv),
         (strftime_bdY (issued inv)), (strftime_bdY (due inv)).
  split.
  { unfold manifest_row. by destruct (main_totals (lines inv) (tax_rate inv)) as [[? ?] ?]. }
  split; [reflexivity |].
  unfold story_of, invoice_story, draw_invoice_totals. cbn [st_meta st_to].
  repeat split; apply strftime_same_day.
Qed.
